(** * Heylock SDK: a shallow embedding of [src/index.js]

    The agent class of the SDK is embedded as a state-and-exception monad
    over one record, [state], that holds the private and public fields of a
    [Heylock] instance together with the part of the JavaScript world the
    class touches: the object heap, [localStorage], the console, the
    requests handed to [fetch] and the calls made to subscriber callbacks.

    Conventions of the embedding:
    - JavaScript values are [jsval]; objects and arrays live in the heap
      and are only ever held by reference ([VRef]), so that two holders of
      one array observe each other's writes;
    - finite numbers are integers ([Z]): timestamps, indexes, status codes
      and quota counters are integers on the wire;
    - strings are [string]: sequences of code units below 256, so a
      character is a code unit and [length] counts characters; [trim]
      removes the white space and line terminators ECMAScript has in that
      range, the code units 9 to 13, 32 and 160 (the no-break space);
    - an [async] method runs to completion in one step; what the network
      answers is an argument of the method ([fetch_result]), and what the
      clock reads is the argument [now];
    - [Number] on strings, [JSON.parse] and [JSON.stringify] on text are
      builtins of the language, taken as parameters of the development;
    - an object is a finite map from keys to values: the order in which
      its keys were written is not kept, and [JSON.stringify] lists the
      keys of an object in the order of the map;
    - a subscriber callback supplied by the caller is a token
      ([UserCallback]); calling it is recorded in [called]. *)

From Stdlib Require Import ZArith Ascii String.
From stdpp Require Import gmap strings list fin_maps pretty.

Local Open Scope Z_scope.

Definition MAX_MESSAGE_LENGTH : Z := 10000.
Definition MAX_CONTEXT_ENTRY_LENGTH : Z := 2000.
Definition SHOULD_ENGAGE_THROTTLING_MS : Z := 15000.

(** ** Strings *)

Definition strlen (s : string) : Z := Z.of_nat (String.length s).

(** The white space and the line terminators of ECMAScript among the code
    units below 256: TAB, LF, VT, FF, CR, SP and NBSP (U+00A0). These are
    what [String.prototype.trim] removes. *)
Definition is_white_space (a : ascii) : bool :=
  match N_of_ascii a with
  | 9 | 10 | 11 | 12 | 13 | 32 | 160 => true
  | _ => false
  end%N.

Fixpoint trimStart (s : string) : string :=
  match s with
  | String a s' => if is_white_space a then trimStart s' else s
  | EmptyString => EmptyString
  end.

Definition trimEnd (s : string) : string := String.rev (trimStart (String.rev s)).

Definition trim (s : string) : string := trimEnd (trimStart s).

Definition is_blank (s : string) : bool := bool_decide (trim s = "").

Fixpoint prefixb (p s : string) : bool :=
  match p, s with
  | EmptyString, _ => true
  | String a p', String b s' => bool_decide (a = b) && prefixb p' s'
  | String _ _, EmptyString => false
  end.

(** [hay.includes(needle)] *)
Fixpoint includes (hay needle : string) : bool :=
  prefixb needle hay ||
  match hay with
  | EmptyString => false
  | String _ hay' => includes hay' needle
  end.

(** [s.split('\n')]: never empty, the last element is the unterminated rest. *)
Fixpoint split_newline (s : string) : list string :=
  match s with
  | EmptyString => [EmptyString]
  | String a s' =>
      if bool_decide (a = "010"%char) then EmptyString :: split_newline s'
      else match split_newline s' with
           | l :: ls => String a l :: ls
           | [] => [String a EmptyString]
           end
  end.

(** ** Values, the heap and JSON *)

Definition loc := positive.

Inductive number : Type :=
| Finite (n : Z)
| NaN
| Infinity (negative : bool).

Inductive jsval : Type :=
| VUndefined
| VNull
| VBool (b : bool)
| VNumber (x : number)
| VStr (s : string)
| VRef (l : loc).

Abbreviation VNum n := (VNumber (Finite n)).
Abbreviation VNaN := (VNumber NaN).
Abbreviation VInfinity negative := (VNumber (Infinity negative)).

Global Instance number_eq_dec : EqDecision number.
Proof. solve_decision. Defined.

Global Instance jsval_eq_dec : EqDecision jsval.
Proof. solve_decision. Defined.

Inductive cell : Type :=
| CObj (fields : gmap string jsval)
| CArr (elems : list jsval).

Set Warnings "-register-all".

(** JSON documents: response bodies, request payloads, stored text once
    parsed. *)
Inductive json : Type :=
| JNull
| JBool (b : bool)
| JNum (n : Z)
| JStr (s : string)
| JArr (items : list json)
| JObj (members : list (string * json)).

Fixpoint assoc (key : string) (members : list (string * json)) : option json :=
  match members with
  | [] => None
  | (k, j) :: rest => if bool_decide (k = key) then Some j else assoc key rest
  end.

Inductive type_tag := TUndefined | TObject | TBoolean | TNumber | TString.

Global Instance type_tag_eq_dec : EqDecision type_tag.
Proof. solve_decision. Defined.

Definition typeof (v : jsval) : type_tag :=
  match v with
  | VUndefined => TUndefined
  | VNull | VRef _ => TObject
  | VBool _ => TBoolean
  | VNumber _ => TNumber
  | VStr _ => TString
  end.

Definition truthy (v : jsval) : bool :=
  match v with
  | VUndefined | VNull | VNaN | VBool false | VNum 0 | VStr EmptyString => false
  | _ => true
  end.

(** [a ?? b] *)
Definition nullish (v : jsval) : bool :=
  match v with VUndefined | VNull => true | _ => false end.

Definition coalesce (a b : jsval) : jsval := if nullish a then b else a.

(** [Number.isFinite(v)] *)
Definition isFinite (v : jsval) : bool :=
  match v with VNum _ => true | _ => false end.

(** [`${v}`] for a number. *)
Definition number_toString (v : jsval) : string :=
  match v with
  | VNum n => pretty n
  | VInfinity false => "Infinity"
  | VInfinity true => "-Infinity"
  | _ => "NaN"
  end.

(** ** The instance and its world *)

Record environment := {
  isNode : bool;            (* [typeof process !== 'undefined' && ...] *)
  isBrowser : bool;         (* [typeof window !== 'undefined' && ...] *)
  hasLocalStorage : bool    (* [localStorage.setItem/getItem] do not throw *)
}.

(** The public fields assigned by the constructor. *)
Record config := {
  agentKey : string;
  useStorage : bool;
  useMessageHistory : bool;
  suppressWarnings : bool;
  env : environment
}.

Record usage := { messages : jsval; sorts : jsval; rewrites : jsval }.

(** A subscriber: a function of the caller, or the closure the constructor
    registers to persist the context. *)
Inductive callback :=
| UserCallback (id : nat)
| StorageSubscriber.

Global Instance callback_eq_dec : EqDecision callback.
Proof. solve_decision. Defined.

Inductive jsError :=
| Error (message : string)
| TypeError (message : string)
| ReferenceError (message : string)
| SyntaxError (message : string).

Global Instance jsError_eq_dec : EqDecision jsError.
Proof. solve_decision. Defined.

Definition error_message (e : jsError) : string :=
  match e with
  | Error m | TypeError m | ReferenceError m | SyntaxError m => m
  end.

(** [`${error}`] *)
Definition error_toString (e : jsError) : string :=
  match e with
  | Error m => "Error: " +:+ m
  | TypeError m => "TypeError: " +:+ m
  | ReferenceError m => "ReferenceError: " +:+ m
  | SyntaxError m => "SyntaxError: " +:+ m
  end.

Record request := {
  url : string;
  method : string;
  authorization : option string;
  payload : option json
}.

(** One call of a caller's callback, with the argument it received. *)
Record invocation := { callee : nat; argument : jsval }.

Record state := {
  cfg : config;
  _isInitialized : bool;
  _usageRemaining : usage;
  _messageHistory : loc;
  _context : loc;
  _onInitializedCallbacks : list nat;
  _onMessageHistoryChangeCallbacks : list nat;
  _onContextChangeCallbacks : list callback;
  _shouldEngageTimeCalled : Z;
  heap : gmap loc cell;
  localStorage : gmap string string;
  console : list string;
  fetched : list request;
  called : list invocation;
  yielded : list json
}.

Definition set_isInitialized (x : bool) (s : state) : state :=
  {| cfg := cfg s;
     _isInitialized := x;
     _usageRemaining := _usageRemaining s;
     _messageHistory := _messageHistory s;
     _context := _context s;
     _onInitializedCallbacks := _onInitializedCallbacks s;
     _onMessageHistoryChangeCallbacks := _onMessageHistoryChangeCallbacks s;
     _onContextChangeCallbacks := _onContextChangeCallbacks s;
     _shouldEngageTimeCalled := _shouldEngageTimeCalled s;
     heap := heap s;
     localStorage := localStorage s;
     console := console s;
     fetched := fetched s;
     called := called s;
     yielded := yielded s |}.

Definition set_usageRemaining (x : usage) (s : state) : state :=
  {| cfg := cfg s;
     _isInitialized := _isInitialized s;
     _usageRemaining := x;
     _messageHistory := _messageHistory s;
     _context := _context s;
     _onInitializedCallbacks := _onInitializedCallbacks s;
     _onMessageHistoryChangeCallbacks := _onMessageHistoryChangeCallbacks s;
     _onContextChangeCallbacks := _onContextChangeCallbacks s;
     _shouldEngageTimeCalled := _shouldEngageTimeCalled s;
     heap := heap s;
     localStorage := localStorage s;
     console := console s;
     fetched := fetched s;
     called := called s;
     yielded := yielded s |}.

Definition set_messageHistory (x : loc) (s : state) : state :=
  {| cfg := cfg s;
     _isInitialized := _isInitialized s;
     _usageRemaining := _usageRemaining s;
     _messageHistory := x;
     _context := _context s;
     _onInitializedCallbacks := _onInitializedCallbacks s;
     _onMessageHistoryChangeCallbacks := _onMessageHistoryChangeCallbacks s;
     _onContextChangeCallbacks := _onContextChangeCallbacks s;
     _shouldEngageTimeCalled := _shouldEngageTimeCalled s;
     heap := heap s;
     localStorage := localStorage s;
     console := console s;
     fetched := fetched s;
     called := called s;
     yielded := yielded s |}.

Definition set_context (x : loc) (s : state) : state :=
  {| cfg := cfg s;
     _isInitialized := _isInitialized s;
     _usageRemaining := _usageRemaining s;
     _messageHistory := _messageHistory s;
     _context := x;
     _onInitializedCallbacks := _onInitializedCallbacks s;
     _onMessageHistoryChangeCallbacks := _onMessageHistoryChangeCallbacks s;
     _onContextChangeCallbacks := _onContextChangeCallbacks s;
     _shouldEngageTimeCalled := _shouldEngageTimeCalled s;
     heap := heap s;
     localStorage := localStorage s;
     console := console s;
     fetched := fetched s;
     called := called s;
     yielded := yielded s |}.

Definition set_onInitializedCallbacks (x : list nat) (s : state) : state :=
  {| cfg := cfg s;
     _isInitialized := _isInitialized s;
     _usageRemaining := _usageRemaining s;
     _messageHistory := _messageHistory s;
     _context := _context s;
     _onInitializedCallbacks := x;
     _onMessageHistoryChangeCallbacks := _onMessageHistoryChangeCallbacks s;
     _onContextChangeCallbacks := _onContextChangeCallbacks s;
     _shouldEngageTimeCalled := _shouldEngageTimeCalled s;
     heap := heap s;
     localStorage := localStorage s;
     console := console s;
     fetched := fetched s;
     called := called s;
     yielded := yielded s |}.

Definition set_onMessageHistoryChangeCallbacks (x : list nat) (s : state) : state :=
  {| cfg := cfg s;
     _isInitialized := _isInitialized s;
     _usageRemaining := _usageRemaining s;
     _messageHistory := _messageHistory s;
     _context := _context s;
     _onInitializedCallbacks := _onInitializedCallbacks s;
     _onMessageHistoryChangeCallbacks := x;
     _onContextChangeCallbacks := _onContextChangeCallbacks s;
     _shouldEngageTimeCalled := _shouldEngageTimeCalled s;
     heap := heap s;
     localStorage := localStorage s;
     console := console s;
     fetched := fetched s;
     called := called s;
     yielded := yielded s |}.

Definition set_onContextChangeCallbacks (x : list callback) (s : state) : state :=
  {| cfg := cfg s;
     _isInitialized := _isInitialized s;
     _usageRemaining := _usageRemaining s;
     _messageHistory := _messageHistory s;
     _context := _context s;
     _onInitializedCallbacks := _onInitializedCallbacks s;
     _onMessageHistoryChangeCallbacks := _onMessageHistoryChangeCallbacks s;
     _onContextChangeCallbacks := x;
     _shouldEngageTimeCalled := _shouldEngageTimeCalled s;
     heap := heap s;
     localStorage := localStorage s;
     console := console s;
     fetched := fetched s;
     called := called s;
     yielded := yielded s |}.

Definition set_shouldEngageTimeCalled (x : Z) (s : state) : state :=
  {| cfg := cfg s;
     _isInitialized := _isInitialized s;
     _usageRemaining := _usageRemaining s;
     _messageHistory := _messageHistory s;
     _context := _context s;
     _onInitializedCallbacks := _onInitializedCallbacks s;
     _onMessageHistoryChangeCallbacks := _onMessageHistoryChangeCallbacks s;
     _onContextChangeCallbacks := _onContextChangeCallbacks s;
     _shouldEngageTimeCalled := x;
     heap := heap s;
     localStorage := localStorage s;
     console := console s;
     fetched := fetched s;
     called := called s;
     yielded := yielded s |}.

Definition set_heap (x : gmap loc cell) (s : state) : state :=
  {| cfg := cfg s;
     _isInitialized := _isInitialized s;
     _usageRemaining := _usageRemaining s;
     _messageHistory := _messageHistory s;
     _context := _context s;
     _onInitializedCallbacks := _onInitializedCallbacks s;
     _onMessageHistoryChangeCallbacks := _onMessageHistoryChangeCallbacks s;
     _onContextChangeCallbacks := _onContextChangeCallbacks s;
     _shouldEngageTimeCalled := _shouldEngageTimeCalled s;
     heap := x;
     localStorage := localStorage s;
     console := console s;
     fetched := fetched s;
     called := called s;
     yielded := yielded s |}.

Definition set_localStorage (x : gmap string string) (s : state) : state :=
  {| cfg := cfg s;
     _isInitialized := _isInitialized s;
     _usageRemaining := _usageRemaining s;
     _messageHistory := _messageHistory s;
     _context := _context s;
     _onInitializedCallbacks := _onInitializedCallbacks s;
     _onMessageHistoryChangeCallbacks := _onMessageHistoryChangeCallbacks s;
     _onContextChangeCallbacks := _onContextChangeCallbacks s;
     _shouldEngageTimeCalled := _shouldEngageTimeCalled s;
     heap := heap s;
     localStorage := x;
     console := console s;
     fetched := fetched s;
     called := called s;
     yielded := yielded s |}.

Definition set_console (x : list string) (s : state) : state :=
  {| cfg := cfg s;
     _isInitialized := _isInitialized s;
     _usageRemaining := _usageRemaining s;
     _messageHistory := _messageHistory s;
     _context := _context s;
     _onInitializedCallbacks := _onInitializedCallbacks s;
     _onMessageHistoryChangeCallbacks := _onMessageHistoryChangeCallbacks s;
     _onContextChangeCallbacks := _onContextChangeCallbacks s;
     _shouldEngageTimeCalled := _shouldEngageTimeCalled s;
     heap := heap s;
     localStorage := localStorage s;
     console := x;
     fetched := fetched s;
     called := called s;
     yielded := yielded s |}.

Definition set_fetched (x : list request) (s : state) : state :=
  {| cfg := cfg s;
     _isInitialized := _isInitialized s;
     _usageRemaining := _usageRemaining s;
     _messageHistory := _messageHistory s;
     _context := _context s;
     _onInitializedCallbacks := _onInitializedCallbacks s;
     _onMessageHistoryChangeCallbacks := _onMessageHistoryChangeCallbacks s;
     _onContextChangeCallbacks := _onContextChangeCallbacks s;
     _shouldEngageTimeCalled := _shouldEngageTimeCalled s;
     heap := heap s;
     localStorage := localStorage s;
     console := console s;
     fetched := x;
     called := called s;
     yielded := yielded s |}.

Definition set_called (x : list invocation) (s : state) : state :=
  {| cfg := cfg s;
     _isInitialized := _isInitialized s;
     _usageRemaining := _usageRemaining s;
     _messageHistory := _messageHistory s;
     _context := _context s;
     _onInitializedCallbacks := _onInitializedCallbacks s;
     _onMessageHistoryChangeCallbacks := _onMessageHistoryChangeCallbacks s;
     _onContextChangeCallbacks := _onContextChangeCallbacks s;
     _shouldEngageTimeCalled := _shouldEngageTimeCalled s;
     heap := heap s;
     localStorage := localStorage s;
     console := console s;
     fetched := fetched s;
     called := x;
     yielded := yielded s |}.

Definition set_yielded (x : list json) (s : state) : state :=
  {| cfg := cfg s;
     _isInitialized := _isInitialized s;
     _usageRemaining := _usageRemaining s;
     _messageHistory := _messageHistory s;
     _context := _context s;
     _onInitializedCallbacks := _onInitializedCallbacks s;
     _onMessageHistoryChangeCallbacks := _onMessageHistoryChangeCallbacks s;
     _onContextChangeCallbacks := _onContextChangeCallbacks s;
     _shouldEngageTimeCalled := _shouldEngageTimeCalled s;
     heap := heap s;
     localStorage := localStorage s;
     console := console s;
     fetched := fetched s;
     called := called s;
     yielded := x |}.

Definition set_cfg (x : config) (s : state) : state :=
  {| cfg := x;
     _isInitialized := _isInitialized s;
     _usageRemaining := _usageRemaining s;
     _messageHistory := _messageHistory s;
     _context := _context s;
     _onInitializedCallbacks := _onInitializedCallbacks s;
     _onMessageHistoryChangeCallbacks := _onMessageHistoryChangeCallbacks s;
     _onContextChangeCallbacks := _onContextChangeCallbacks s;
     _shouldEngageTimeCalled := _shouldEngageTimeCalled s;
     heap := heap s;
     localStorage := localStorage s;
     console := console s;
     fetched := fetched s;
     called := called s;
     yielded := yielded s |}.

(** ** The monad of methods: state and exceptions *)

Inductive outcome (A : Type) : Type :=
| Returned (a : A)
| Thrown (e : jsError).
Arguments Returned {A} a.
Arguments Thrown {A} e.

Definition M (A : Type) : Type := state → outcome A * state.

Definition ret {A} (a : A) : M A := λ s, (Returned a, s).

Definition throw {A} (e : jsError) : M A := λ s, (Thrown e, s).

Definition bind {A B} (m : M A) (k : A → M B) : M B :=
  λ s, match m s with
       | (Returned a, s') => k a s'
       | (Thrown e, s') => (Thrown e, s')
       end.

(** [try { m } catch (e) { h e }]: the state reached when [m] threw is kept. *)
Definition try_catch {A} (m : M A) (h : jsError → M A) : M A :=
  λ s, match m s with
       | (Thrown e, s') => h e s'
       | r => r
       end.

Definition gets {A} (f : state → A) : M A := λ s, (Returned (f s), s).

Definition modify (f : state → state) : M unit := λ s, (Returned tt, f s).

Notation "'let*' x ':=' m 'in' k" := (bind m (λ x, k))
  (at level 10, x binder, m at level 200, k at level 200).
Notation "m >> k" := (bind m (λ _, k)) (at level 100, right associativity).

Definition when (b : bool) (m : M unit) : M unit := if b then m else ret tt.

Fixpoint forEach {A} (l : list A) (f : A → M unit) : M unit :=
  match l with
  | [] => ret tt
  | x :: rest => f x >> forEach rest f
  end.

(** [!this.suppressWarnings && console.warn(text)] *)
Definition warn (text : string) : M unit :=
  λ s, if suppressWarnings (cfg s) then (Returned tt, s)
       else (Returned tt, set_console (console s ++ [text]) s).

(** [console.warn(text)] *)
Definition console_warn (text : string) : M unit :=
  modify (λ s, set_console (console s ++ [text]) s).

(** *** Heap access *)

(** A new object or array: a location the heap does not use yet. *)
Definition alloc (c : cell) : M loc :=
  λ s, let l := fresh (dom (heap s)) in
       (Returned l, set_heap (<[l := c]> (heap s)) s).

Definition store (l : loc) (c : cell) : M unit :=
  modify (λ s, set_heap (<[l := c]> (heap s)) s).

Definition elements_of (h : gmap loc cell) (l : loc) : option (list jsval) :=
  match h !! l with
  | Some (CArr es) => Some es
  | _ => None
  end.

Definition elements (l : loc) : M (list jsval) :=
  λ s, match elements_of (heap s) l with
       | Some es => (Returned es, s)
       | None => (Thrown (TypeError "not an array"), s)
       end.

(** [Array.isArray(v)] *)
Definition isArray (h : gmap loc cell) (v : jsval) : bool :=
  match v with
  | VRef l => bool_decide (is_Some (elements_of h l))
  | _ => false
  end.

(** [v.key] where [v] is known not to be [null] or [undefined]. *)
Definition field (h : gmap loc cell) (v : jsval) (key : string) : jsval :=
  match v with
  | VRef l =>
      match h !! l with
      | Some (CObj fields) => default VUndefined (fields !! key)
      | _ => VUndefined
      end
  | _ => VUndefined
  end.

(** How the messages of a [TypeError] name a value. *)
Definition nullish_name (v : jsval) : string :=
  match v with
  | VNull => "null"
  | _ => "undefined"
  end.

Definition primitive_name (v : jsval) : string :=
  match v with
  | VBool true => "boolean 'true'"
  | VBool false => "boolean 'false'"
  | VNumber _ => "number '" +:+ number_toString v +:+ "'"
  | VStr text => "string '" +:+ text +:+ "'"
  | _ => ""
  end.

(** [v.key], which throws on [null] and [undefined]. *)
Definition get_property (v : jsval) (key : string) : M jsval :=
  λ s, if nullish v
       then (Thrown (TypeError ("Cannot read properties of " +:+ nullish_name v
                                 +:+ " (reading '" +:+ key +:+ "')")), s)
       else (Returned (field (heap s) v key), s).

(** [v.key = x] in strict mode. *)
Definition set_property (v : jsval) (key : string) (x : jsval) : M unit :=
  λ s, match v with
       | VRef l =>
           match heap s !! l with
           | Some (CObj fields) =>
               (Returned tt, set_heap (<[l := CObj (<[key := x]> fields)]> (heap s)) s)
           | _ => (Returned tt, s)
           end
       | VUndefined | VNull =>
           (Thrown (TypeError ("Cannot set properties of " +:+ nullish_name v
                                +:+ " (setting '" +:+ key +:+ "')")), s)
       | _ =>
           (Thrown (TypeError ("Cannot create property '" +:+ key +:+ "' on "
                                +:+ primitive_name v)), s)
       end.

(** [array[index]] for a number [index]. *)
Definition at_index (es : list jsval) (index : jsval) : jsval :=
  match index with
  | VNum n => if n <? 0 then VUndefined else default VUndefined (es !! Z.to_nat n)
  | _ => VUndefined
  end.

(** [array.push(v)], the new length. *)
Definition push (l : loc) (v : jsval) : M Z :=
  let* es := elements l in
  store l (CArr (es ++ [v])) >>
  ret (Z.of_nat (length es) + 1).

(** The start position [splice] and friends compute from a number. *)
Definition relative_start (len : nat) (index : jsval) : nat :=
  match index with
  | VNum n => if n <? 0 then Z.to_nat (Z.max 0 (Z.of_nat len + n))
              else Nat.min (Z.to_nat n) len
  | VInfinity false => len
  | _ => 0%nat
  end.

(** [array.splice(index, 1)] *)
Definition splice1 (l : loc) (index : jsval) : M unit :=
  let* es := elements l in
  store l (CArr (delete (relative_start (length es) index) es)).

(** [index > n] and [index < n] on numbers. *)
Definition num_gt (index : jsval) (n : Z) : bool :=
  match index with
  | VNum i => n <? i
  | VInfinity false => true
  | _ => false
  end.

Definition num_lt (index : jsval) (n : Z) : bool :=
  match index with
  | VNum i => i <? n
  | VInfinity true => true
  | _ => false
  end.

Definition is_role (v : jsval) : bool :=
  bool_decide (v = VStr "user") || bool_decide (v = VStr "assistant").

Definition new_message (content : string) (role : jsval) : cell :=
  CObj (<["content" := VStr content]> (<["role" := role]> ∅)).

Definition new_entry (content : string) (timestamp : jsval) : cell :=
  CObj (<["content" := VStr content]> (<["timestamp" := timestamp]> ∅)).

(** ** Public variables *)

(** [get isInitialized()] *)
Definition isInitialized : M bool := gets _isInitialized.

(** [get usageRemaining()]; the counters are read by value here. *)
Definition usageRemaining : M usage := gets _usageRemaining.

(** [get messageHistory()]: [this.#messageHistory ?? []]. The private field
    always holds an array, so what is returned is that array. *)
Definition messageHistory : M jsval := gets (λ s, VRef (_messageHistory s)).

(** [get context()]: [this.#context ?? []]. *)
Definition context : M jsval := gets (λ s, VRef (_context s)).

(** ** Callbacks *)

(** Calling a function of the caller: the call and its argument are
    recorded. *)
Definition call (id : nat) (arg : jsval) : M unit :=
  modify (λ s, set_called (called s ++ [{| callee := id; argument := arg |}]) s).

(** [onMessageHistoryChange(callback)] *)
Definition onMessageHistoryChange (id : nat) : M unit :=
  modify (λ s, set_onMessageHistoryChangeCallbacks
                 (_onMessageHistoryChangeCallbacks s ++ [id]) s).

(** *** Message history management *)

Definition onMessageHistoryChangeExecute : M unit :=
  let* callbacks := gets _onMessageHistoryChangeCallbacks in
  forEach callbacks (λ callback,
    try_catch
      (let* history := messageHistory in
       call callback history)
      (λ err, warn "onMessageHistoryChange callback error:")).

(** [addMessage(content, role = "user")] *)
Definition addMessage (content role : jsval) : M Z :=
  let role := if bool_decide (role = VUndefined) then VStr "user" else role in
  match content with
  | VStr text =>
      if MAX_MESSAGE_LENGTH <? strlen text then
        throw (Error ("addMessageToHistory failed: content exceeds maximum allowed length of "
                      +:+ pretty MAX_MESSAGE_LENGTH +:+ " characters."))
      else if negb (is_role role) then
        throw (Error "addMessageToHistory failed: role must be either 'user' or 'assistant'.")
      else
        let* message := alloc (new_message (trim text) role) in
        let* history := gets _messageHistory in
        let* newLength := push history (VRef message) in
        onMessageHistoryChangeExecute >>
        ret (newLength - 1)
  | _ => throw (Error "addMessageToHistory failed: content must be a string.")
  end.

(** [removeMessage(index)] *)
Definition removeMessage (index : jsval) : M unit :=
  if negb (bool_decide (typeof index = TNumber)) || num_lt index 0 then
    throw (Error "removeMessage failed: index must be a number greater than or equal to 0.")
  else
    let* history := gets _messageHistory in
    let* es := elements history in
    if num_gt index (Z.of_nat (length es) - 1) then
      throw (Error ("removeMessage failed: index " +:+ number_toString index
                    +:+ " is out of bounds for message history of length "
                    +:+ pretty (length es) +:+ "."))
    else
      splice1 history index >>
      onMessageHistoryChangeExecute.

(** [modifyMessage(index, content, role)] *)
Definition modifyMessage (index content role : jsval) : M unit :=
  if negb (bool_decide (typeof index = TNumber)) || num_lt index 0 then
    throw (Error "modifyMessage failed: index must be a number greater than or equal to 0.")
  else
    let* history := gets _messageHistory in
    let* es := elements history in
    if num_gt index (Z.of_nat (length es) - 1) then
      throw (Error ("modifyMessage failed: index " +:+ number_toString index
                    +:+ " is out of bounds for message history of length "
                    +:+ pretty (length es) +:+ "."))
    else
      match content with
      | VStr text =>
          if is_blank text then
            throw (Error "modifyMessage failed: content must be a non-empty string.")
          else if MAX_MESSAGE_LENGTH <? strlen text then
            throw (Error ("modifyMessage failed: content exceeds maximum allowed length of "
                          +:+ pretty MAX_MESSAGE_LENGTH +:+ " characters."))
          else if truthy role && negb (is_role role) then
            throw (Error "modifyMessage failed: role must be either 'user' or 'assistant'.")
          else
            set_property (at_index es index) "content" (VStr (trim text)) >>
            let* es := elements history in
            let* old := get_property (at_index es index) "role" in
            set_property (at_index es index) "role" (if truthy role then role else old) >>
            onMessageHistoryChangeExecute
      | _ => throw (Error "modifyMessage failed: content must be a non-empty string.")
      end.

(** The test of the validation loop of [setMessageHistory]. *)
Definition message_invalid (h : gmap loc cell) (message : jsval) : bool :=
  negb (bool_decide (typeof message = TObject))
  || bool_decide (message = VNull)
  || match field h message "content" with
     | VStr text => MAX_MESSAGE_LENGTH <? strlen text
     | _ => true
     end
  || negb (is_role (field h message "role")).

Definition setMessageHistory_invalid (index : Z) : jsError :=
  Error ("setMessageHistory failed: message at index " +:+ pretty index +:+ " is invalid. "
         +:+ "Each message must be an object with a string 'content' (max length "
         +:+ pretty MAX_MESSAGE_LENGTH +:+ ") and 'role' of either 'user' or 'assistant'.").

Fixpoint validate_messages (index : Z) (es : list jsval) : M unit :=
  match es with
  | [] => ret tt
  | message :: rest =>
      let* h := gets heap in
      if message_invalid h message then throw (setMessageHistory_invalid index)
      else validate_messages (index + 1) rest
  end.

(** [messageHistory.map(message => ({content: message.content.trim(), role: message.role}))],
    the elements of the new array. *)
Fixpoint copy_messages (es : list jsval) : M (list jsval) :=
  match es with
  | [] => ret []
  | message :: rest =>
      let* content := get_property message "content" in
      let* role := get_property message "role" in
      match content with
      | VStr text =>
          let* copy := alloc (new_message (trim text) role) in
          let* copies := copy_messages rest in
          ret (VRef copy :: copies)
      | _ => throw (TypeError "message.content.trim is not a function")
      end
  end.

(** [setMessageHistory(messageHistory)] *)
Definition setMessageHistory (messageHistory : jsval) : M unit :=
  let* h := gets heap in
  match messageHistory with
  | VRef l =>
      match elements_of h l with
      | Some es =>
          validate_messages 0 es >>
          let* copies := copy_messages es in
          let* array := alloc (CArr copies) in
          modify (set_messageHistory array) >>
          onMessageHistoryChangeExecute
      | None => throw (Error "setMessageHistory failed: messageHistory must be an array.")
      end
  | _ => throw (Error "setMessageHistory failed: messageHistory must be an array.")
  end.

(** [clearMessageHistory()] *)
Definition clearMessageHistory : M unit :=
  let* array := alloc (CArr []) in
  modify (set_messageHistory array) >>
  onMessageHistoryChangeExecute.

(** ** Serialisation of heap values *)

(** What [JSON.stringify] makes of a value before it prints it: a document,
    nothing at all (for [undefined]), or a [TypeError] on a cyclic
    structure. *)
Inductive serial :=
| Serial (j : json)
| Omitted
| Cyclic.

Fixpoint serial_items (items : list serial) : option (list json) :=
  match items with
  | [] => Some []
  | Cyclic :: _ => None
  | Serial j :: rest => cons j <$> serial_items rest
  | Omitted :: rest => cons JNull <$> serial_items rest
  end.

Fixpoint serial_members (members : list (string * serial)) : option (list (string * json)) :=
  match members with
  | [] => Some []
  | (_, Cyclic) :: _ => None
  | (k, Serial j) :: rest => cons (k, j) <$> serial_members rest
  | (_, Omitted) :: rest => serial_members rest
  end.

(** A path through an acyclic structure visits every location at most
    once, so [fuel] larger than the heap only runs out on a cycle. *)
Fixpoint reify (fuel : nat) (h : gmap loc cell) (v : jsval) : serial :=
  match v with
  | VUndefined => Omitted
  | VNull | VNaN | VInfinity _ => Serial JNull
  | VBool b => Serial (JBool b)
  | VNum n => Serial (JNum n)
  | VStr s => Serial (JStr s)
  | VRef l =>
      match fuel with
      | O => Cyclic
      | S fuel' =>
          match h !! l with
          | Some (CArr es) =>
              from_option (λ items, Serial (JArr items)) Cyclic
                (serial_items (map (reify fuel' h) es))
          | Some (CObj fields) =>
              from_option (λ members, Serial (JObj members)) Cyclic
                (serial_members (map (λ kv, (kv.1, reify fuel' h kv.2)) (map_to_list fields)))
          | None => Omitted
          end
      end
  end.

Definition serialise (h : gmap loc cell) (v : jsval) : serial := reify (S (size h)) h v.

Fixpoint join (sep : string) (parts : list string) : string :=
  match parts with
  | [] => ""
  | [p] => p
  | p :: rest => p +:+ sep +:+ join sep rest
  end.

(** [`${v}`] *)
Fixpoint ToString (fuel : nat) (h : gmap loc cell) (v : jsval) : string :=
  match v with
  | VUndefined => "undefined"
  | VNull => "null"
  | VBool true => "true"
  | VBool false => "false"
  | VStr s => s
  | VRef l =>
      match h !! l, fuel with
      | Some (CArr es), S fuel' =>
          join "," (map (λ e, if nullish e then "" else ToString fuel' h e) es)
      | Some (CArr es), O => ""
      | _, _ => "[object Object]"
      end
  | number => number_toString number
  end.

Section Builtins.

(** [Number(text)] *)
Variable StringToNumber : string → number.
(** [JSON.parse(text)]; [None] when it throws a [SyntaxError]. *)
Variable JSON_parse : string → option json.
(** [JSON.stringify] on a document. *)
Variable JSON_stringify : json → string.

(** ** Storage management *)

(** [#setStorageItem(key, value)] *)
Definition setStorageItem (key : string) (value : jsval) : M unit :=
  if bool_decide (key = "") then
    throw (Error "#setStorageItem failed: key must be a non-empty string.")
  else if bool_decide (value = VUndefined) then
    throw (Error "#setStorageItem failed: value must not be undefined.")
  else
    let* e := gets (λ s, env (cfg s)) in
    if isNode e && negb (isBrowser e) then
      warn "Data can only be saved in a browser environment."
    else
      try_catch
        (if negb (hasLocalStorage e) then
           throw (ReferenceError "localStorage is not defined")
         else
           let* h := gets heap in
           match serialise h value with
           | Serial j =>
               modify (λ s, set_localStorage (<[key := JSON_stringify j]> (localStorage s)) s)
           | Omitted =>
               modify (λ s, set_localStorage (<[key := "undefined"]> (localStorage s)) s)
           | Cyclic => throw (TypeError "Converting circular structure to JSON")
           end)
        (λ error, warn "Data was not saved due to an unexpected error.").

(** [#getStorageItem(key)] *)
Definition getStorageItem (key : string) : M jsval :=
  if is_blank key then
    throw (Error "getStorageItem failed: key must be a non-empty string.")
  else
    let* e := gets (λ s, env (cfg s)) in
    if isNode e && negb (isBrowser e) then
      warn "Data can only be retrieved in a browser environment." >>
      ret VUndefined
    else
      try_catch
        (if negb (hasLocalStorage e) then
           throw (ReferenceError "localStorage is not defined")
         else
           let* item := gets (λ s, localStorage s !! key) in
           ret (from_option VStr VNull item))
        (λ error,
           warn "Data was not retrieved due to an unexpected error." >>
           ret VUndefined).

(** ** Context management *)

(** [onContextChange(callback)] *)
Definition onContextChange (callback : callback) : M unit :=
  modify (λ s, set_onContextChangeCallbacks (_onContextChangeCallbacks s ++ [callback]) s).

Definition onContextChangeExecute : M unit :=
  let* callbacks := gets _onContextChangeCallbacks in
  forEach callbacks (λ callback,
    try_catch
      (let* ctx := context in
       match callback with
       | UserCallback id => call id ctx
       | StorageSubscriber =>
           let* ctx := context in
           setStorageItem "context" ctx
       end)
      (λ err, warn "onContextChange callback error:")).

(** [timestamp !== undefined && (typeof timestamp !== 'number' || timestamp < 0 || !Number.isFinite(timestamp))] *)
Definition timestamp_invalid (timestamp : jsval) : bool :=
  negb (bool_decide (timestamp = VUndefined))
  && (negb (bool_decide (typeof timestamp = TNumber))
      || num_lt timestamp 0
      || negb (isFinite timestamp)).

(** [timestamp !== undefined && typeof timestamp === 'number' && Number.isFinite(timestamp)] *)
Definition timestamp_given (timestamp : jsval) : bool :=
  negb (bool_decide (timestamp = VUndefined))
  && bool_decide (typeof timestamp = TNumber)
  && isFinite timestamp.

(** [addContextEntry(content, timestamp)] *)
Definition addContextEntry (content timestamp : jsval) (now : Z) : M Z :=
  match content with
  | VStr text =>
      if is_blank text then
        throw (Error "addContextEntry failed: content must be a non-empty string.")
      else if MAX_CONTEXT_ENTRY_LENGTH <? strlen text then
        throw (Error ("addContextEntry failed: content exceeds maximum allowed length of "
                      +:+ pretty MAX_CONTEXT_ENTRY_LENGTH +:+ " characters."))
      else if timestamp_invalid timestamp then
        throw (Error "addContextEntry failed: timestamp must be a finite, non-negative number if provided.")
      else
        when (timestamp_given timestamp && num_gt timestamp now)
          (console_warn "addContextEntry warning: timestamp is in the future. This may lead to unexpected behavior.") >>
        let* entry := alloc (new_entry (trim text) (coalesce timestamp (VNum now))) in
        let* ctx := gets _context in
        let* newArrayLength := push ctx (VRef entry) in
        onContextChangeExecute >>
        ret (newArrayLength - 1)
  | _ => throw (Error "addContextEntry failed: content must be a non-empty string.")
  end.

(** [removeContextEntry(index)] *)
Definition removeContextEntry (index : jsval) : M unit :=
  if negb (bool_decide (typeof index = TNumber)) || num_lt index 0 then
    throw (Error "removeContextEntry failed: index must be a number greater than or equal to 0.")
  else
    let* ctx := gets _context in
    let* es := elements ctx in
    if num_gt index (Z.of_nat (length es) - 1) then
      throw (Error ("removeContextEntry failed: index " +:+ number_toString index
                    +:+ " is out of bounds for context of length "
                    +:+ pretty (length es) +:+ "."))
    else
      splice1 ctx index >>
      onContextChangeExecute.

(** [array[index] = v] for an index within the array. *)
Definition set_index (l : loc) (index : jsval) (v : jsval) : M unit :=
  let* es := elements l in
  match index with
  | VNum n => store l (CArr (<[Z.to_nat n := v]> es))
  | _ => ret tt
  end.

(** [modifyContextEntry(index, content, timestamp)] *)
Definition modifyContextEntry (index content timestamp : jsval) (now : Z) : M unit :=
  if negb (bool_decide (typeof index = TNumber)) || num_lt index 0 then
    throw (Error "modifyContextEntry failed: index must be a number greater than or equal to 0.")
  else
    let* ctx := gets _context in
    let* es := elements ctx in
    if num_gt index (Z.of_nat (length es) - 1) then
      throw (Error ("modifyContextEntry failed: index " +:+ number_toString index
                    +:+ " is out of bounds for context of length "
                    +:+ pretty (length es) +:+ "."))
    else
      match content with
      | VStr text =>
          if is_blank text then
            throw (Error "modifyContextEntry failed: content must be a non-empty string if provided.")
          else if MAX_CONTEXT_ENTRY_LENGTH <? strlen text then
            throw (Error ("modifyContextEntry failed: content exceeds maximum allowed length of "
                          +:+ pretty MAX_CONTEXT_ENTRY_LENGTH +:+ " characters."))
          else if timestamp_invalid timestamp then
            throw (Error "modifyContextEntry failed: timestamp must be a finite, non-negative number if provided.")
          else
            when (timestamp_given timestamp && num_gt timestamp now)
              (console_warn "modifyContextEntry warning: timestamp is in the future. This may lead to unexpected behavior.") >>
            let* stamp :=
              if nullish timestamp then get_property (at_index es index) "timestamp"
              else ret timestamp in
            let* newContextEntry := alloc (new_entry (trim text) stamp) in
            set_index ctx index (VRef newContextEntry) >>
            onContextChangeExecute
      | _ => throw (Error "modifyContextEntry failed: content must be a non-empty string if provided.")
      end.

(** The test of the validation loop of [setContext]. *)
Definition entry_invalid (h : gmap loc cell) (entry : jsval) : bool :=
  negb (bool_decide (typeof entry = TObject))
  || bool_decide (entry = VNull)
  || match field h entry "content" with
     | VStr text => is_blank text || (MAX_CONTEXT_ENTRY_LENGTH <? strlen text)
     | _ => true
     end
  || timestamp_invalid (field h entry "timestamp").

Definition setContext_invalid (index : Z) : jsError :=
  Error ("setContext failed: entry at index " +:+ pretty index +:+ " is invalid. "
         +:+ "Each entry must be an object with a non-empty string 'content' (max length "
         +:+ pretty MAX_CONTEXT_ENTRY_LENGTH +:+ ") and an optional finite, non-negative 'timestamp'.").

(** Reading an identifier that no enclosing scope declares (module code is
    strict). *)
Definition unbound_identifier (name : string) : M jsval :=
  throw (ReferenceError (name +:+ " is not defined")).

(** The validation loop of [setContext]. Its warning reads [timestamp],
    which [setContext] does not declare, where the entry's field
    [entry.timestamp] was tested just before. *)
Fixpoint validate_entries (index : Z) (es : list jsval) (now : Z) : M unit :=
  match es with
  | [] => ret tt
  | entry :: rest =>
      let* h := gets heap in
      if entry_invalid h entry then throw (setContext_invalid index)
      else
        (if timestamp_given (field h entry "timestamp") then
           let* timestamp := unbound_identifier "timestamp" in
           when (num_gt timestamp now)
             (console_warn "setContext warning: timestamp is in the future. This may lead to unexpected behavior.")
         else ret tt) >>
        validate_entries (index + 1) rest now
  end.

(** [contextArray.map(entry => ({content: entry.content.trim(), timestamp: entry.timestamp ?? new Date().getTime()}))],
    the elements of the new array. *)
Fixpoint copy_entries (es : list jsval) (now : Z) : M (list jsval) :=
  match es with
  | [] => ret []
  | entry :: rest =>
      let* content := get_property entry "content" in
      let* timestamp := get_property entry "timestamp" in
      match content with
      | VStr text =>
          let* copy := alloc (new_entry (trim text) (coalesce timestamp (VNum now))) in
          let* copies := copy_entries rest now in
          ret (VRef copy :: copies)
      | _ => throw (TypeError "entry.content.trim is not a function")
      end
  end.

(** [setContext(contextArray)] *)
Definition setContext (contextArray : jsval) (now : Z) : M unit :=
  let* h := gets heap in
  match contextArray with
  | VRef l =>
      match elements_of h l with
      | Some es =>
          validate_entries 0 es now >>
          let* copies := copy_entries es now in
          let* array := alloc (CArr copies) in
          modify (set_context array) >>
          onContextChangeExecute
      | None => throw (Error "setContext failed: contextArray must be an array.")
      end
  | _ => throw (Error "setContext failed: contextArray must be an array.")
  end.

(** [clearContext()] *)
Definition clearContext : M unit :=
  let* array := alloc (CArr []) in
  modify (set_context array) >>
  onContextChangeExecute.

Definition plural (n : Z) : string := if bool_decide (n = 1) then "" else "s".

(** [formatTimestampAgo(timestamp)] of [getContextString] *)
Definition formatTimestampAgo (timestamp : jsval) (now : Z) : string :=
  match timestamp with
  | VNum t =>
      if t <? 0 then ""
      else
        let differenceMs := now - t in
        if differenceMs <? 0 then "in the future"
        else
          let seconds := differenceMs / 1000 in
          if seconds <? 1 then "now"
          else if seconds <? 60 then pretty seconds +:+ " second" +:+ plural seconds +:+ " ago"
          else
            let minutes := seconds / 60 in
            if minutes <? 60 then pretty minutes +:+ " minute" +:+ plural minutes +:+ " ago"
            else
              let hours := minutes / 60 in
              if hours <? 24 then pretty hours +:+ " hour" +:+ plural hours +:+ " ago"
              else
                let days := hours / 24 in
                pretty days +:+ " day" +:+ plural days +:+ " ago"
  | _ => ""
  end.

Fixpoint render_entries (es : list jsval) (now : Z) (contextString : string) : M string :=
  match es with
  | [] => ret contextString
  | entry :: rest =>
      let* content := get_property entry "content" in
      let* timestamp := get_property entry "timestamp" in
      let* h := gets heap in
      render_entries rest now
        (contextString +:+ ToString (size h) h content +:+ " "
                       +:+ formatTimestampAgo timestamp now +:+ ". ")
  end.

(** [getContextString()] *)
Definition getContextString (now : Z) : M string :=
  let* ctx := gets _context in
  let* es := elements ctx in
  render_entries es now "".

(** ** The network *)

(** What the class reads of a [Response]. *)
Record response := {
  status : Z;
  (** [headers.get('x-ratelimit-remaining')]; [None] is [null] *)
  ratelimit_remaining : option string;
  (** [await json()]; [None] when the body is not JSON *)
  body : option json;
  (** the chunks [body.getReader()] delivers until [done], decoded *)
  reads : list string
}.

Inductive fetch_result :=
| Resolved (r : response)
| Rejected (e : jsError).

(** [await fetch(url, {method, headers, body})] *)
Definition fetch (rq : request) (answer : fetch_result) : M response :=
  modify (λ s, set_fetched (fetched s ++ [rq]) s) >>
  match answer with
  | Resolved r => ret r
  | Rejected e => throw e
  end.

(** [await res.json()] *)
Definition res_json (r : response) : M json :=
  match body r with
  | Some j => ret j
  | None => throw (SyntaxError "Unexpected token in JSON")
  end.

(** [j.key] on a parsed document. *)
Definition member (j : json) (key : string) : M (option json) :=
  match j with
  | JNull => throw (TypeError ("Cannot read properties of null (reading '" +:+ key +:+ "')"))
  | JObj members => ret (assoc key members)
  | _ => ret None
  end.

(** [JSON.stringify({k: v, ...})] of an object literal, as a document. *)
Definition stringify_members (members : list (string * jsval)) : M json :=
  let* h := gets heap in
  match serial_members (map (λ kv, (kv.1, serialise h kv.2)) members) with
  | Some ms => ret (JObj ms)
  | None => throw (TypeError "Converting circular structure to JSON")
  end.

(** The [catch] block every route ends with. *)
Definition rethrow {A} (prefix : string) (error : jsError) : M A :=
  if includes (error_message error) prefix then throw (Error (error_message error))
  else throw (Error (prefix +:+ "an unexpected error occurred. "
                     +:+ "Please ensure you are using the correct version of the package. "
                     +:+ "Error details: " +:+ error_toString error)).

(** ** Numbers *)

(** [Number(header)] for what [headers.get] returns. *)
Definition Number (header : option string) : number :=
  match header with
  | None => Finite 0
  | Some text => StringToNumber text
  end.

(** [Number(v)] *)
Definition ToNumber (h : gmap loc cell) (v : jsval) : number :=
  match v with
  | VUndefined => NaN
  | VNull => Finite 0
  | VBool true => Finite 1
  | VBool false => Finite 0
  | VNumber x => x
  | VStr text => StringToNumber text
  | VRef _ => StringToNumber (ToString (size h) h v)
  end.

(** [isNaN(v)] *)
Definition isNaN (h : gmap loc cell) (v : jsval) : bool :=
  bool_decide (ToNumber h v = NaN).

(** [a && b] *)
Definition js_and (a b : jsval) : jsval := if truthy a then b else a.

(** [x - 1] *)
Definition minus_one (x : number) : number :=
  match x with
  | Finite n => Finite (n - 1)
  | other => other
  end.

(** [x <= 0] *)
Definition number_le_zero (x : number) : bool :=
  match x with
  | Finite n => n <=? 0
  | Infinity negative => negative
  | NaN => false
  end.

(** ** Limit route *)

Definition set_messages (v : jsval) (u : usage) : usage :=
  {| messages := v; sorts := sorts u; rewrites := rewrites u |}.
Definition set_sorts (v : jsval) (u : usage) : usage :=
  {| messages := messages u; sorts := v; rewrites := rewrites u |}.
Definition set_rewrites (v : jsval) (u : usage) : usage :=
  {| messages := messages u; sorts := sorts u; rewrites := v |}.

(** [counter--] on a field of [this.#usageRemaining] *)
Definition decrement (read : usage → jsval) (write : jsval → usage → usage) : M unit :=
  modify (λ s, set_usageRemaining
                 (write (VNumber (minus_one (ToNumber (heap s) (read (_usageRemaining s)))))
                        (_usageRemaining s)) s).

Definition assign (write : jsval → usage → usage) (v : jsval) : M unit :=
  modify (λ s, set_usageRemaining (write v (_usageRemaining s)) s).

(** A parsed document becomes a value: arrays and objects are allocated. *)
Fixpoint import (j : json) : M jsval :=
  match j with
  | JNull => ret VNull
  | JBool b => ret (VBool b)
  | JNum n => ret (VNum n)
  | JStr s => ret (VStr s)
  | JArr items =>
      let* vs := (fix go (items : list json) : M (list jsval) :=
                    match items with
                    | [] => ret []
                    | item :: rest =>
                        let* v := import item in
                        let* vs := go rest in
                        ret (v :: vs)
                    end) items in
      let* l := alloc (CArr vs) in
      ret (VRef l)
  | JObj members =>
      let* fields := (fix go (members : list (string * json)) : M (gmap string jsval) :=
                        match members with
                        | [] => ret ∅
                        | (k, item) :: rest =>
                            let* fields := go rest in
                            let* v := import item in
                            ret (<[k := v]> fields)
                        end) members in
      let* l := alloc (CObj fields) in
      ret (VRef l)
  end.

(** [doc.a.b.remaining]: a missing link throws, a missing last member is
    [undefined]. *)
Definition remaining_of (limits : option json) (kind : string) : M jsval :=
  match limits with
  | None => throw (TypeError ("Cannot read properties of undefined (reading '" +:+ kind +:+ "')"))
  | Some limits =>
      let* counter := member limits kind in
      match counter with
      | None => throw (TypeError "Cannot read properties of undefined (reading 'remaining')")
      | Some counter =>
          let* remaining := member counter "remaining" in
          match remaining with
          | None => ret VUndefined
          | Some j => import j
          end
      end
  end.

(** [fetchUsageRemaining()] *)
Definition fetchUsageRemaining (answer : fetch_result) : M usage :=
  let* initialized := isInitialized in
  if negb initialized then
    throw (Error "fetchLimits failed: agent is not initialized. Please wait for initialization to complete.")
  else
    try_catch
      (let* key := gets (λ s, agentKey (cfg s)) in
       let* limitsRes := fetch {| url := "https://heylock.dev/api/v1/limits"; method := "GET";
                                  authorization := Some key; payload := None |} answer in
       if status limitsRes =? 401 then
         throw (Error "fetchUsageRemaining failed: authorization failed. Please check your agent key and try again.")
       else if status limitsRes =? 500 then
         throw (Error "fetchUsageRemaining failed: we are experiencing temporary server issues. Please try again later.")
       else if status limitsRes =? 503 then
         throw (Error "fetchUsageRemaining failed: the server is busy.")
       else if negb (status limitsRes =? 200) then
         throw (Error "fetchUsageRemaining failed: something went wrong. Please check your internet connection and ensure you are using the correct package version.")
       else
         let* limitsData := res_json limitsRes in
         let* limits := member limitsData "limits" in
         let* m := remaining_of limits "messages" in
         let* so := remaining_of limits "sorts" in
         let* r := remaining_of limits "rewrites" in
         modify (set_usageRemaining {| messages := m; sorts := so; rewrites := r |}) >>
         usageRemaining)
      (rethrow "fetchUsageRemaining failed: ").

(** ** Initialization *)

(** [onInitialized(callback)] *)
Definition onInitialized (id : nat) : M unit :=
  modify (λ s, set_onInitializedCallbacks (_onInitializedCallbacks s ++ [id]) s).

(** [#onInitializedExecute()] *)
Definition onInitializedExecute : M unit :=
  let* callbacks := gets _onInitializedCallbacks in
  forEach callbacks (λ callback,
    try_catch
      (let* initialized := isInitialized in
       call callback (VBool initialized))
      (λ error, warn "onInitialized callback error:")).

(** [#initializeAgent(agentKey)]: [verify] answers the verification
    request, [limits] the request of [fetchUsageRemaining]. *)
Definition initializeAgent (agentKey : string) (verify limits : fetch_result) : M unit :=
  try_catch
    (let* verifyKeyRes :=
       fetch {| url := "https://heylock.dev/api/internal/verifyKey"; method := "POST";
                authorization := None;
                payload := Some (JObj [("key", JStr agentKey)]) |} verify in
     if status verifyKeyRes =? 500 then
       throw (Error "Agent initialization failed: we are experiencing temporary server issues. Please try again later.")
     else if negb (status verifyKeyRes =? 200) then
       throw (Error "Agent initialization failed: something went wrong. Please check your internet connection and try again.")
     else
       let* verifyKeyData := res_json verifyKeyRes in
       let* valid := member verifyKeyData "valid" in
       match valid with
       | Some (JBool false) =>
           throw (Error "Agent initialization failed: the provided agentKey is invalid. Please verify your key and try again.")
       | Some (JBool true) =>
           modify (set_isInitialized true) >>
           fetchUsageRemaining limits >>
           onInitializedExecute
       | _ =>
           throw (Error "Agent initialization failed: received an unexpected response from the server. Please ensure you are using the correct version of the package.")
       end)
    (rethrow "Agent initialization failed: ").

(** ** Message route *)

(** A parameter with a default value. *)
Definition default_param (v d : jsval) : jsval :=
  if bool_decide (v = VUndefined) then d else v.

(** The block "Setting rate limits" of [message], [messageStream] and
    [rewrite]:
    [if(!isNaN(rateLimitRemaining) && rateLimitRemainingHeader !== null)
       counter = rateLimitRemaining; else counter--;] *)
Definition setting_rate_limits (rateLimitRemainingHeader : option string)
    (read : usage → jsval) (write : jsval → usage → usage) : M number :=
  let rateLimitRemaining := Number rateLimitRemainingHeader in
  (if negb (bool_decide (rateLimitRemaining = NaN))
      && bool_decide (is_Some rateLimitRemainingHeader)
   then assign write (VNumber rateLimitRemaining)
   else decrement read write) >>
  ret rateLimitRemaining.

(** [value && ...] in an object literal: the operand when it is chosen,
    [false] otherwise. *)
Definition guarded (flag : bool) (v : jsval) : jsval := if flag then v else VBool false.

(** [message(content, useContext = true, saveToMessageHistory = true)] *)
Definition message (content useContext saveToMessageHistory : jsval)
    (now : Z) (answer : fetch_result) : M string :=
  let useContext := default_param useContext (VBool true) in
  let saveToMessageHistory := default_param saveToMessageHistory (VBool true) in
  let* initialized := isInitialized in
  if negb initialized then
    throw (Error "message failed: agent is not initialized. Please wait for initialization to complete.")
  else
    match content with
    | VStr text =>
        if is_blank text then
          throw (Error "message failed: content must be a non-empty string")
        else if MAX_MESSAGE_LENGTH <? strlen text then
          throw (Error ("message failed: content exceeds maximum allowed length of "
                        +:+ pretty MAX_MESSAGE_LENGTH +:+ " characters."))
        else
          match saveToMessageHistory, useContext with
          | VBool save, VBool withContext =>
              when save (addMessage content (VStr "user") >> ret tt) >>
              try_catch
                (let* key := gets (λ s, agentKey (cfg s)) in
                 let* useHistory := gets (λ s, useMessageHistory (cfg s)) in
                 let* history := messageHistory in
                 let* contextString :=
                   if withContext then getContextString now else ret "" in
                 let* payload :=
                   stringify_members
                     [("content", content);
                      ("history", guarded useHistory history);
                      ("stream", VBool false);
                      ("context", guarded withContext (VStr contextString))] in
                 let* messageRes :=
                   fetch {| url := "https://heylock.dev/api/v1/message"; method := "POST";
                            authorization := Some key; payload := Some payload |} answer in
                 let* rateLimitRemaining :=
                   setting_rate_limits (ratelimit_remaining messageRes) messages set_messages in
                 if status messageRes =? 500 then
                   throw (Error "message failed: we are experiencing temporary server issues. Please try again later.")
                 else if status messageRes =? 400 then
                   throw (Error "message failed: please check arguments. Refer to the documentation for more information (see documentation link).")
                 else if status messageRes =? 401 then
                   throw (Error "message failed: authorization failed. Please check your agent key and try again.")
                 else if status messageRes =? 429 then
                   if negb (bool_decide (rateLimitRemaining = NaN)) && number_le_zero rateLimitRemaining then
                     throw (Error "message failed: you have reached your message plan limit. Please upgrade your plan or wait for the limit to reset.")
                   else
                     throw (Error "message failed: too many requests. Try again later.")
                 else if status messageRes =? 502 then
                   throw (Error "message failed: we are experiencing unexpected external service errors. Please try again later.")
                 else if negb (status messageRes =? 200) then
                   throw (Error "message failed: something went wrong. Please check your internet connection or ensure you are using the correct package version.")
                 else
                   let* messageData := res_json messageRes in
                   match messageData with
                   | JObj members =>
                       match assoc "message" members with
                       | Some (JStr output) =>
                           when save (addMessage (VStr output) (VStr "assistant") >> ret tt) >>
                           ret output
                       | _ => throw (Error "message failed: received an unexpected response from the server. Please ensure you are using the correct version of the package.")
                       end
                   | _ => throw (Error "message failed: received an unexpected response from the server. Please ensure you are using the correct version of the package.")
                   end)
                (rethrow "message failed: ")
          | VBool _, _ => throw (Error "message failed: useContext must be a boolean.")
          | _, _ => throw (Error "message failed: saveToMessageHistory must be a boolean.")
          end
    | _ => throw (Error "message failed: content must be a non-empty string")
    end.

(** [greet(instructions, useContext = true, saveToMessageHistory = true)] *)
Definition greet (instructions useContext saveToMessageHistory : jsval)
    (now : Z) (answer : fetch_result) : M string :=
  let useContext := default_param useContext (VBool true) in
  let saveToMessageHistory := default_param saveToMessageHistory (VBool true) in
  let unusable :=
    match instructions with
    | VStr text => is_blank text
    | _ => true
    end in
  if unusable && negb (bool_decide (instructions = VUndefined)) then
    throw (Error "greet failed: instructions must be a non-empty string if provided.")
  else if match instructions with
          | VStr text => MAX_MESSAGE_LENGTH <? strlen text
          | _ => false
          end then
    throw (Error ("greet failed: instructions exceeds maximum allowed length of "
                  +:+ pretty MAX_MESSAGE_LENGTH +:+ " characters."))
  else
    match useContext, saveToMessageHistory with
    | VBool withContext, VBool _ =>
        let effectiveInstructions :=
          match instructions with
          | VStr text =>
              "Write a greeting message encouraging the visitor to interact with you. Use instructions: "
              +:+ text
          | _ =>
              "Greet the visitor in one short, friendly sentence. Encourage interaction. Sound human."
              +:+ (if withContext then " Mention their interests or passions subtly." else "")
          end in
        let* useHistory := gets (λ s, useMessageHistory (cfg s)) in
        let* history := gets _messageHistory in
        let* es := elements history in
        let effectiveInstructions :=
          if useHistory && (0 <? Z.of_nat (length es)) then
            effectiveInstructions
            +:+ " Take into account our previous conversation history to make the greeting more personalized and contextual"
          else effectiveInstructions in
        try_catch
          (let* output := message (VStr effectiveInstructions) (VBool true) (VBool false) now answer in
           addMessage (VStr output) (VStr "assistant") >>
           ret output)
          (λ error, throw (Error ("greet failed - " +:+ error_toString error)))
    | VBool _, _ => throw (Error "greet failed: saveToMessageHistory must be a boolean.")
    | _, _ => throw (Error "greet failed: useContext must be a boolean.")
    end.

(** ** Should-Engage route *)

(** What [shouldEngage] resolves to: the notice of the throttle, or the
    document of the service. *)
Record engagement := {
  shouldEngage_ : bool;
  reasoning : string;
  warning : option string;
  fallback : bool
}.

Definition throttled : engagement :=
  {| shouldEngage_ := false;
     reasoning := "";
     warning := Some ("Throttling in effect (" +:+ pretty SHOULD_ENGAGE_THROTTLING_MS
                      +:+ " ms). Please wait before calling again");
     fallback := true |}.

(** [shouldEngage(instructions)] *)
Definition shouldEngage (instructions : jsval) (now : Z) (answer : fetch_result) : M engagement :=
  let currentTime := now in
  let* timeCalled := gets _shouldEngageTimeCalled in
  if currentTime - timeCalled <? SHOULD_ENGAGE_THROTTLING_MS then
    console_warn ("shouldEngage ignored: throttling in effect (" +:+ pretty SHOULD_ENGAGE_THROTTLING_MS
                  +:+ " ms). Please wait before calling again.") >>
    ret throttled
  else
    modify (set_shouldEngageTimeCalled currentTime) >>
    if negb (bool_decide (instructions = VUndefined))
       && match instructions with
          | VStr text => is_blank text
          | _ => true
          end then
      throw (Error "shouldEngage failed: instructions must be a non-empty string if provided.")
    else if match instructions with
            | VStr text => MAX_MESSAGE_LENGTH <? strlen text
            | _ => false
            end then
      throw (Error ("shouldEngage failed: instructions exceeds maximum allowed length of "
                    +:+ pretty MAX_MESSAGE_LENGTH +:+ " characters."))
    else
      try_catch
        (let* key := gets (λ s, agentKey (cfg s)) in
         let* contextString := getContextString now in
         let* payload :=
           stringify_members [("instructions", instructions); ("context", VStr contextString)] in
         let* shouldEngageRes :=
           fetch {| url := "https://heylock.dev/api/v1/should-engage"; method := "POST";
                    authorization := Some key; payload := Some payload |} answer in
         if status shouldEngageRes =? 400 then
           throw (Error "shouldEngage failed: invalid arguments. Please check your instructions and try again.")
         else if status shouldEngageRes =? 401 then
           throw (Error "shouldEngage failed: authorization failed. Please check your agent key and try again.")
         else if status shouldEngageRes =? 500 then
           throw (Error "shouldEngage failed: we are experiencing server issues. Please try again later.")
         else if status shouldEngageRes =? 502 then
           throw (Error "shouldEngage failed: external service error. Please try again later.")
         else if negb (status shouldEngageRes =? 200) then
           throw (Error ("shouldEngage failed: unexpected error (HTTP "
                         +:+ pretty (status shouldEngageRes) +:+ ")."))
         else
           let* shouldEngageData := res_json shouldEngageRes in
           match shouldEngageData with
           | JObj members =>
               match assoc "shouldEngage" members, assoc "reasoning" members, assoc "fallback" members with
               | Some (JBool engage), Some (JStr why), Some (JBool fell) =>
                   ret {| shouldEngage_ := engage; reasoning := why;
                          warning := match assoc "warning" members with
                                     | Some (JStr w) => Some w
                                     | _ => None
                                     end;
                          fallback := fell |}
               | _, _, _ =>
                   throw (Error "shouldEngage failed: received an unexpected response from the server. Please ensure you are using the correct version of the package.")
               end
           | _ =>
               throw (Error "shouldEngage failed: received an unexpected response from the server. Please ensure you are using the correct version of the package.")
           end)
        (rethrow "shouldEngage failed: ").

(** ** Rewrite route *)

(** [rewrite(content, instructions, useContext = true)] *)
Definition rewrite (content instructions useContext : jsval)
    (now : Z) (answer : fetch_result) : M string :=
  let useContext := default_param useContext (VBool true) in
  match content with
  | VStr text =>
      if is_blank text then
        throw (Error "rewrite failed: content must be a non-empty string.")
      else if MAX_MESSAGE_LENGTH <? strlen text then
        throw (Error ("rewrite failed: content exceeds maximum allowed length of "
                      +:+ pretty MAX_MESSAGE_LENGTH +:+ " characters."))
      else
        match useContext with
        | VBool withContext =>
            if negb (bool_decide (instructions = VUndefined))
               && negb (bool_decide (typeof instructions = TString)) then
              throw (Error "rewrite failed: instructions must be a string if provided.")
            else if match instructions with
                    | VStr i => MAX_MESSAGE_LENGTH <? strlen i
                    | _ => false
                    end then
              throw (Error ("rewrite failed: instructions exceeds maximum allowed length of "
                            +:+ pretty MAX_MESSAGE_LENGTH +:+ " characters."))
            else
              try_catch
                (let* key := gets (λ s, agentKey (cfg s)) in
                 let* contextString :=
                   if withContext then getContextString now else ret "" in
                 let* payload :=
                   stringify_members
                     [("text", content);
                      ("instructions", instructions);
                      ("context", guarded withContext (VStr contextString))] in
                 let* rewriteRes :=
                   fetch {| url := "https://heylock.dev/api/v1/rewrite"; method := "POST";
                            authorization := Some key; payload := Some payload |} answer in
                 let* rateLimitRemaining :=
                   setting_rate_limits (ratelimit_remaining rewriteRes) rewrites set_rewrites in
                 if status rewriteRes =? 400 then
                   throw (Error "rewrite failed: invalid arguments. Please check your content, instructions or context.")
                 else if status rewriteRes =? 401 then
                   throw (Error "rewrite failed: authorization failed. Please check your agent key and try again.")
                 else if status rewriteRes =? 429 then
                   if negb (bool_decide (rateLimitRemaining = NaN)) && number_le_zero rateLimitRemaining then
                     throw (Error "rewrite failed: you have reached your rewrite plan limit. Please upgrade your plan or wait for the limit to reset.")
                   else
                     throw (Error "rewrite failed: too many requests. Try again later.")
                 else if status rewriteRes =? 500 then
                   throw (Error "rewrite failed: we are experiencing server issues. Please try again later.")
                 else if status rewriteRes =? 502 then
                   throw (Error "rewrite failed: external service error. Please try again later.")
                 else if negb (status rewriteRes =? 200) then
                   throw (Error ("rewrite failed: unexpected error (HTTP "
                                 +:+ pretty (status rewriteRes) +:+ ")."))
                 else
                   let* rewriteData := res_json rewriteRes in
                   match rewriteData with
                   | JObj members =>
                       match assoc "text" members with
                       | Some (JStr text) => ret text
                       | _ => throw (Error "rewrite failed: received an unexpected response from the server. Please ensure you are using the correct version of the package.")
                       end
                   | _ => throw (Error "rewrite failed: received an unexpected response from the server. Please ensure you are using the correct version of the package.")
                   end)
                (rethrow "rewrite failed: ")
        | _ => throw (Error "rewrite failed: useContext must be a boolean.")
        end
  | _ => throw (Error "rewrite failed: content must be a non-empty string.")
  end.

(** ** Sort route *)

Record SortResult := {
  array : option (list jsval);
  indexes : list Z;
  sort_reasoning : option string;
  sort_warning : option string;
  sort_fallback : bool
}.

(** The integers of [sortData.indexes], unless
    [indexes.some(idx => typeof idx !== 'number' || !Number.isInteger(idx))]. *)
Fixpoint integer_indexes (items : list json) : option (list Z) :=
  match items with
  | [] => Some []
  | JNum n :: rest => cons n <$> integer_indexes rest
  | _ :: _ => None
  end.

(** [sortData.indexes.map(index => array[index])] *)
Definition gather (array : list jsval) (indexes : list Z) : list jsval :=
  map (λ index, at_index array (VNum index)) indexes.

(** The block "Setting rate limits" of [sort]:
    [if(!isNaN(rateLimitRemaining && rateLimitRemainingHeader !== null))
       counter = rateLimitRemaining; else counter--;] *)
Definition setting_rate_limits_sort (rateLimitRemainingHeader : option string) : M number :=
  let rateLimitRemaining := Number rateLimitRemainingHeader in
  let* h := gets heap in
  (if negb (isNaN h (js_and (VNumber rateLimitRemaining)
                            (VBool (bool_decide (is_Some rateLimitRemainingHeader)))))
   then assign set_sorts (VNumber rateLimitRemaining)
   else decrement sorts set_sorts) >>
  ret rateLimitRemaining.

(** [sort(array, instructions, useContext = true)] *)
Definition sort (array instructions useContext : jsval)
    (now : Z) (answer : fetch_result) : M SortResult :=
  let useContext := default_param useContext (VBool true) in
  let* h := gets heap in
  let input := match array with
               | VRef l => elements_of h l
               | _ => None
               end in
  match input with
  | None =>
      ret {| array := None; indexes := []; sort_reasoning := None;
             sort_warning := Some "Input array is invalid or too short to sort. Returning original array.";
             sort_fallback := true |}
  | Some items =>
      if Z.of_nat (length items) <? 2 then
        ret {| array := None; indexes := map Z.of_nat (seq 0 (length items));
               sort_reasoning := None;
               sort_warning := Some "Input array is invalid or too short to sort. Returning original array.";
               sort_fallback := true |}
      else if negb (bool_decide (instructions = VUndefined))
              && negb (bool_decide (typeof instructions = TString)) then
        throw (Error "sort failed: instructions must be a string if provided.")
      else
        match useContext with
        | VBool withContext =>
            try_catch
              (let* key := gets (λ s, agentKey (cfg s)) in
               let* contextString :=
                 if withContext then getContextString now else ret "" in
               let* payload :=
                 stringify_members
                   [("array", array);
                    ("instructions", instructions);
                    ("context", guarded withContext (VStr contextString))] in
               let* sortRes :=
                 fetch {| url := "https://heylock.dev/api/v1/sort"; method := "POST";
                          authorization := Some key; payload := Some payload |} answer in
               let* rateLimitRemaining :=
                 setting_rate_limits_sort (ratelimit_remaining sortRes) in
               if status sortRes =? 400 then
                 throw (Error "sort failed: invalid arguments. Please check your array, instructions, and context.")
               else if status sortRes =? 401 then
                 throw (Error "sort failed: authorization failed. Please check your agent key and try again.")
               else if status sortRes =? 429 then
                 if negb (bool_decide (rateLimitRemaining = NaN)) && number_le_zero rateLimitRemaining then
                   throw (Error "sort failed: you have reached your sort plan limit. Please upgrade your plan or wait for the limit to reset.")
                 else
                   throw (Error "sort failed: too many requests. Try again later.")
               else if status sortRes =? 500 then
                 throw (Error "sort failed: we are experiencing server issues. Please try again later.")
               else if status sortRes =? 502 then
                 throw (Error "sort failed: external service error. Please try again later.")
               else if negb (status sortRes =? 200) then
                 throw (Error ("sort failed: unexpected error (HTTP "
                               +:+ pretty (status sortRes) +:+ ")."))
               else
                 let* sortData := res_json sortRes in
                 match sortData with
                 | JObj members =>
                     match assoc "indexes" members, assoc "reasoning" members with
                     | Some (JArr idxs), Some (JStr why) =>
                         match integer_indexes idxs with
                         | Some indexes =>
                             if negb (bool_decide (length indexes = length items)) then
                               throw (Error "sort failed: response indexes length does not match input array length. Possible server bug or data corruption.")
                             else
                               ret {| array := Some (gather items indexes);
                                      indexes := indexes;
                                      sort_reasoning := Some why;
                                      sort_warning := None;
                                      sort_fallback :=
                                        match assoc "fallback" members with
                                        | Some (JBool b) => b
                                        | _ => false
                                        end |}
                         | None =>
                             throw (Error "sort failed: received an unexpected response from the server. Please ensure you are using the correct version of the package.")
                         end
                     | _, _ =>
                         throw (Error "sort failed: received an unexpected response from the server. Please ensure you are using the correct version of the package.")
                     end
                 | _ =>
                     throw (Error "sort failed: received an unexpected response from the server. Please ensure you are using the correct version of the package.")
                 end)
              (rethrow "sort failed: ")
        | _ => throw (Error "sort failed: useContext must be a boolean.")
        end
  end.

(** ** Streaming *)

(** Truthiness of a member of a parsed record; [None] is [undefined]. *)
Definition json_truthy (j : option json) : bool :=
  match j with
  | None | Some JNull | Some (JBool false) | Some (JNum 0) | Some (JStr EmptyString) => false
  | Some _ => true
  end.

(** [fullMessage += j] *)
Fixpoint json_toString (j : json) : string :=
  match j with
  | JNull => "null"
  | JBool true => "true"
  | JBool false => "false"
  | JNum n => pretty n
  | JStr s => s
  | JArr items =>
      join "," (map (λ item, match item with
                             | JNull => ""
                             | _ => json_toString item
                             end) items)
  | JObj _ => "[object Object]"
  end.

(** [yield v] *)
Definition yield (v : json) : M unit :=
  modify (λ s, set_yielded (yielded s ++ [v]) s).

(** The body of [for(const line of lines)]: the text accumulated so far
    after the line, and whether the generator returned on it. *)
Definition on_line (saveToMessageHistory : bool) (assistantMessageIndex : jsval)
    (line : string) (fullMessage : string) : M (string * bool) :=
  let trimmedLine := trim line in
  if bool_decide (trimmedLine = "") then ret (fullMessage, false)
  else
    match JSON_parse trimmedLine with
    | None => ret (fullMessage, false)
    | Some JNull => ret (fullMessage, false)
    | Some chunk =>
        let message := match chunk with JObj members => assoc "message" members | _ => None end in
        let done := match chunk with JObj members => assoc "done" members | _ => None end in
        if json_truthy message && negb (json_truthy done) then
          let fullMessage := fullMessage +:+ from_option json_toString "" message in
          try_catch
            (when saveToMessageHistory
               (modifyMessage assistantMessageIndex (VStr fullMessage) (VStr "assistant")) >>
             yield (default JNull message) >>
             ret (fullMessage, false))
            (λ parseError, ret (fullMessage, false))
        else if json_truthy done then ret (fullMessage, true)
        else ret (fullMessage, false)
    end.

Fixpoint for_lines (saveToMessageHistory : bool) (assistantMessageIndex : jsval)
    (lines : list string) (fullMessage : string) : M (string * bool) :=
  match lines with
  | [] => ret (fullMessage, false)
  | line :: rest =>
      let* after := on_line saveToMessageHistory assistantMessageIndex line fullMessage in
      if after.2 then ret after
      else for_lines saveToMessageHistory assistantMessageIndex rest after.1
  end.

(** [while(true)] over the reads of the body: the value the generator
    returns, [None] when the body ends before a record with [done]. *)
Fixpoint while_reads (saveToMessageHistory : bool) (assistantMessageIndex : jsval)
    (reads : list string) (buffer fullMessage : string) : M (option string) :=
  match reads with
  | [] => ret None
  | value :: rest =>
      let lines := split_newline (buffer +:+ value) in
      let buffer := List.last lines "" in
      let lines := removelast lines in
      let* after := for_lines saveToMessageHistory assistantMessageIndex lines fullMessage in
      if after.2 then ret (Some after.1)
      else while_reads saveToMessageHistory assistantMessageIndex rest buffer after.1
  end.

(** [array.filter((message, index) => index !== skip)] *)
Definition filter_index (es : list jsval) (skip : jsval) : list jsval :=
  mjoin (imap (λ index message,
                 if bool_decide (VNum (Z.of_nat index) = skip) then [] else [message]) es).

(** [messageStream(content, useContext = true, saveToMessageHistory = true)],
    consumed to its end: the fragments are recorded in [yielded]. *)
Definition messageStream (content useContext saveToMessageHistory : jsval)
    (now : Z) (answer : fetch_result) : M (option string) :=
  let useContext := default_param useContext (VBool true) in
  let saveToMessageHistory := default_param saveToMessageHistory (VBool true) in
  let* initialized := isInitialized in
  if negb initialized then
    throw (Error "messageStream failed: agent is not initialized. Please wait for initialization to complete.")
  else
    match content with
    | VStr text =>
        if is_blank text then
          throw (Error "messageStream failed: content must be a non-empty string.")
        else if MAX_MESSAGE_LENGTH <? strlen text then
          throw (Error ("messageStream failed: content exceeds maximum allowed length of "
                        +:+ pretty MAX_MESSAGE_LENGTH +:+ " characters."))
        else
          match useContext, saveToMessageHistory with
          | VBool withContext, VBool save =>
              when save (addMessage content (VStr "user") >> ret tt) >>
              let* assistantMessageIndex :=
                if save then
                  let* index := addMessage (VStr "") (VStr "assistant") in
                  ret (VNum index)
                else ret (VBool false) in
              try_catch
                (let* key := gets (λ s, agentKey (cfg s)) in
                 let* useHistory := gets (λ s, useMessageHistory (cfg s)) in
                 let* history := gets _messageHistory in
                 let* es := elements history in
                 let* historyForStream := alloc (CArr (filter_index es assistantMessageIndex)) in
                 let* contextString :=
                   if withContext then getContextString now else ret "" in
                 let* payload :=
                   stringify_members
                     [("content", content);
                      ("history", guarded useHistory (VRef historyForStream));
                      ("stream", VBool true);
                      ("context", guarded withContext (VStr contextString))] in
                 let* messageRes :=
                   fetch {| url := "https://heylock.dev/api/v1/message"; method := "POST";
                            authorization := Some key; payload := Some payload |} answer in
                 let* rateLimitRemaining :=
                   setting_rate_limits (ratelimit_remaining messageRes) messages set_messages in
                 if status messageRes =? 500 then
                   throw (Error "messageStream failed: we are experiencing temporary server issues. Please try again later.")
                 else if status messageRes =? 400 then
                   throw (Error "messageStream failed: please check arguments. Refer to the documentation for more information (see documentation link).")
                 else if status messageRes =? 401 then
                   throw (Error "messageStream failed: authorization failed. Please check your agent key and try again.")
                 else if status messageRes =? 429 then
                   if negb (bool_decide (rateLimitRemaining = NaN)) && number_le_zero rateLimitRemaining then
                     throw (Error "messageStream failed: you have reached your message plan limit. Please upgrade your plan or wait for the limit to reset.")
                   else
                     throw (Error "messageStream failed: too many requests. Try again later.")
                 else if status messageRes =? 502 then
                   throw (Error "messageStream failed: we are experiencing unexpected external service errors. Please try again later.")
                 else if negb (status messageRes =? 200) then
                   throw (Error "messageStream failed: something went wrong. Please check your internet connection or ensure you are using the correct package version.")
                 else
                   while_reads save assistantMessageIndex (reads messageRes) "" "")
                (λ error,
                   modifyMessage assistantMessageIndex
                     (VStr "An error occurred while processing your request. Please try again later.")
                     VUndefined >>
                   rethrow "messageStream failed: " error)
          | VBool _, _ => throw (Error "messageStream failed: saveToMessageHistory must be a boolean.")
          | _, _ => throw (Error "messageStream failed: useContext must be a boolean.")
          end
    | _ => throw (Error "messageStream failed: content must be a non-empty string.")
    end.

(** ** Construction *)

(** The options object; [agentId] is what the README and the storage tests
    pass, the constructor does not read it. *)
Record options := {
  opt_useStorage : jsval;
  opt_useMessageHistory : jsval;
  opt_suppressWarnings : jsval;
  opt_agentId : jsval
}.

(** The test [parsedContext.every(entry => ...)] of the constructor. *)
Definition stored_entry_valid (entry : json) : bool :=
  match entry with
  | JObj members =>
      match assoc "content" members with
      | Some (JStr text) =>
          negb (is_blank text)
          && (strlen text <=? MAX_CONTEXT_ENTRY_LENGTH)
          && match assoc "timestamp" members with
             | None => true
             | Some (JNum t) => 0 <=? t
             | Some _ => false
             end
      | _ => false
      end
  | _ => false
  end.

(** [parsedContext.map(entry => ({content: entry.content.trim(), timestamp: entry.timestamp ?? new Date().getTime()}))] *)
Fixpoint restore_entries (entries : list json) (now : Z) : M (list jsval) :=
  match entries with
  | [] => ret []
  | entry :: rest =>
      let text := match entry with
                  | JObj members => match assoc "content" members with
                                    | Some (JStr text) => text
                                    | _ => ""
                                    end
                  | _ => ""
                  end in
      let timestamp := match entry with
                       | JObj members => match assoc "timestamp" members with
                                         | Some (JNum t) => VNum t
                                         | _ => VUndefined
                                         end
                       | _ => VUndefined
                       end in
      let* copy := alloc (new_entry (trim text) (coalesce timestamp (VNum now))) in
      let* copies := restore_entries rest now in
      ret (VRef copy :: copies)
  end.

(** The instance before the body of the constructor runs: the field
    initialisers have allocated the two arrays. *)
Definition instance (e : environment) (h : gmap loc cell) (storage : gmap string string) : state :=
  let history := fresh (dom h) in
  let h := <[history := CArr []]> h in
  let ctx := fresh (dom h) in
  let h := <[ctx := CArr []]> h in
  {| cfg := {| agentKey := ""; useStorage := true; useMessageHistory := true;
               suppressWarnings := false; env := e |};
     _isInitialized := false;
     _usageRemaining := {| messages := VNull; sorts := VNull; rewrites := VNull |};
     _messageHistory := history;
     _context := ctx;
     _onInitializedCallbacks := [];
     _onMessageHistoryChangeCallbacks := [];
     _onContextChangeCallbacks := [];
     _shouldEngageTimeCalled := 0;
     heap := h;
     localStorage := storage;
     console := [];
     fetched := [];
     called := [];
     yielded := [] |}.

(** The body of [constructor(agentKey, options = {})] up to the call of
    [#initializeAgent], which completes later. *)
Definition constructor (agentKey : jsval) (opts : options) (now : Z) : M unit :=
  let useStorage := coalesce (opt_useStorage opts) (VBool true) in
  let useMessageHistory := coalesce (opt_useMessageHistory opts) (VBool true) in
  let suppressWarnings := coalesce (opt_suppressWarnings opts) (VBool false) in
  match agentKey with
  | VStr key =>
      if strlen key <=? 0 then
        throw (Error "Agent initialization failed: agentKey must be a non-empty string.")
      else
        match useStorage, useMessageHistory with
        | VBool storage, VBool history =>
            let* e := gets (λ s, env (cfg s)) in
            modify (set_cfg {| agentKey := key; useStorage := storage; useMessageHistory := history;
                               suppressWarnings := truthy suppressWarnings; env := e |}) >>
            when storage
              (onContextChange StorageSubscriber >>
               let* contextStorageString := getStorageItem "context" in
               match contextStorageString with
               | VStr text =>
                   if bool_decide (text = "") then ret tt
                   else
                     match JSON_parse text with
                     | Some (JArr parsedContext) =>
                         if forallb stored_entry_valid parsedContext then
                           let* copies := restore_entries parsedContext now in
                           let* array := alloc (CArr copies) in
                           modify (set_context array)
                         else warn "Stored context is invalid. Context will not be restored."
                     | Some _ => warn "Stored context is invalid. Context will not be restored."
                     | None => warn "Failed to parse stored context. Context will not be restored."
                     end
               | _ => ret tt
               end)
        | VBool _, _ => throw (Error "Agent initialization failed: useMessageHistory must be a boolean.")
        | _, _ => throw (Error "Agent initialization failed: useStorage must be a boolean.")
        end
  | _ => throw (Error "Agent initialization failed: agentKey must be a non-empty string.")
  end.

(** [new Heylock(agentKey, options)] *)
Definition new_Heylock (agentKey : jsval) (opts : options) (now : Z)
    (e : environment) (h : gmap loc cell) (storage : gmap string string) : outcome unit * state :=
  constructor agentKey opts now (instance e h storage).

End Builtins.

(** ** The functions the subscriptions return

    A callback is a function here by its type; the test
    [typeof callback !== 'function'] of the three methods is not met. *)

(** [array.indexOf(x)], with [from] the index of the head. *)
Fixpoint indexOf {A} `{EqDecision A} (l : list A) (x : A) (from : Z) : Z :=
  match l with
  | [] => -1
  | y :: rest => if decide (y = x) then from else indexOf rest x (from + 1)
  end.

(** [array.splice(index, 1)] on an array of callbacks. *)
Definition splice_callbacks {A} (l : list A) (index : Z) : list A :=
  delete (relative_start (length l) (VNum index)) l.

(** The function [onInitialized] returns:
    [() => { const index = newArrayLength - 1;
             if (index !== -1) this.#onInitializedCallbacks.splice(index, 1); }] *)
Definition onInitialized_unsubscribe (newArrayLength : Z) : M unit :=
  let index := newArrayLength - 1 in
  when (negb (bool_decide (index = -1)))
    (modify (λ s, set_onInitializedCallbacks
                    (splice_callbacks (_onInitializedCallbacks s) index) s)).

(** [onInitialized(callback)] with its result: [newArrayLength] is what
    [push] returned. *)
Definition onInitialized_subscription (id : nat) : M (M unit) :=
  onInitialized id >>
  let* newArrayLength := gets (λ s, Z.of_nat (length (_onInitializedCallbacks s))) in
  ret (onInitialized_unsubscribe newArrayLength).

(** The function [onMessageHistoryChange] returns:
    [() => { const index = this.#onMessageHistoryChangeCallbacks.indexOf(callback);
             if (index !== -1) this.#onMessageHistoryChangeCallbacks.splice(index, 1); }] *)
Definition onMessageHistoryChange_unsubscribe (id : nat) : M unit :=
  let* index := gets (λ s, indexOf (_onMessageHistoryChangeCallbacks s) id 0) in
  when (negb (bool_decide (index = -1)))
    (modify (λ s, set_onMessageHistoryChangeCallbacks
                    (splice_callbacks (_onMessageHistoryChangeCallbacks s) index) s)).

(** The function [onContextChange] returns, with the same body over
    [this.#onContextChangeCallbacks]. *)
Definition onContextChange_unsubscribe (callback : callback) : M unit :=
  let* index := gets (λ s, indexOf (_onContextChangeCallbacks s) callback 0) in
  when (negb (bool_decide (index = -1)))
    (modify (λ s, set_onContextChangeCallbacks
                    (splice_callbacks (_onContextChangeCallbacks s) index) s)).

(** * Verification *)

(** ** What the statements speak about *)

(** A field of the state is left as it was, whatever the outcome. *)
Definition keeps {A B} (f : state → B) (m : M A) : Prop := ∀ s, f (m s).2 = f s.

(** [m] leaves the time of the last admitted call of [shouldEngage]. *)
Definition keeps_timer {A} (m : M A) : Prop := keeps _shouldEngageTimeCalled m.

(** The elements of the two stores. *)
Definition history_elements (s : state) : option (list jsval) :=
  elements_of (heap s) (_messageHistory s).

Definition context_elements (s : state) : option (list jsval) :=
  elements_of (heap s) (_context s).

(** [getContextString] can read every entry of the context. *)
Definition context_readable (s : state) : Prop :=
  ∃ es, context_elements s = Some es ∧ Forall (λ e, nullish e = false) es.

(** A value that is no reference. *)
Definition primitive (v : jsval) : Prop := ∀ l, v ≠ VRef l.

(** The message at [index] of the history is the object at [o]. *)
Definition placeholder (s : state) (index : nat) (o : loc) : Prop :=
  ∃ es fields,
    history_elements s = Some es ∧ es !! index = Some (VRef o) ∧ heap s !! o = Some (CObj fields).

(** The content [modifyMessage] accepts. *)
Definition storable (text : string) : Prop :=
  is_blank text = false ∧ strlen text ≤ MAX_MESSAGE_LENGTH.

Definition concat_strings (parts : list string) : string := foldr String.append "" parts.

Global Instance storable_dec text : Decision (storable text).
Proof. unfold storable. apply _. Defined.

(** The texts a stream accumulates: after each fragment, the
    concatenation of the fragments so far, behind [full]. *)
Fixpoint cumulative (full : string) (fragments : list string) : list string :=
  match fragments with
  | [] => []
  | fragment :: rest => (full +:+ fragment) :: cumulative (full +:+ fragment) rest
  end.

(** The fragments whose accumulated text [modifyMessage] accepts. *)
Definition emitted (full : string) (fragments : list string) : list string :=
  (filter (λ emission, storable emission.2) (zip fragments (cumulative full fragments))).*1.

(** The last accumulated text [modifyMessage] accepts, [stored] when
    it accepts none. *)
Definition last_accepted (full : string) (fragments : list string) (stored : string) : string :=
  List.last (filter storable (cumulative full fragments)) stored.




(** What a caller can do with an array it was handed. *)
Definition caller_push (array v : jsval) : M Z :=
  match array with
  | VRef l => push l v
  | _ => throw (TypeError "push is not a function")
  end.

(** [array[index].key = v] *)
Definition caller_write (array : jsval) (index : Z) (key : string) (v : jsval) : M unit :=
  match array with
  | VRef l =>
      let* es := elements l in
      set_property (at_index es (VNum index)) key v
  | _ => throw (TypeError "not an array")
  end.

(** [array.length] and [array[index].key] *)
Definition caller_length (array : jsval) : M Z :=
  match array with
  | VRef l =>
      let* es := elements l in
      ret (Z.of_nat (length es))
  | _ => throw (TypeError "not an array")
  end.

Definition caller_read (array : jsval) (index : Z) (key : string) : M jsval :=
  match array with
  | VRef l =>
      let* es := elements l in
      get_property (at_index es (VNum index)) key
  | _ => throw (TypeError "not an array")
  end.

(** ** Uses of the agent *)

(** What the owner of an agent can do with it once it is constructed: call
    a public method, call a function a subscription returned, write into
    an array a getter handed out; and the handshake of the constructor,
    which completes at some point. *)
Inductive use : Type :=
| Use_initializeAgent (agentKey : string) (verify limits : fetch_result)
| Use_isInitialized
| Use_usageRemaining
| Use_messageHistory
| Use_context
| Use_onInitialized (callback : nat)
| Use_onInitialized_unsubscribe (newArrayLength : Z)
| Use_onMessageHistoryChange (callback : nat)
| Use_onMessageHistoryChange_unsubscribe (callback : nat)
| Use_onContextChange (callback : nat)
| Use_onContextChange_unsubscribe (callback : nat)
| Use_addMessage (content role : jsval)
| Use_removeMessage (index : jsval)
| Use_modifyMessage (index content role : jsval)
| Use_setMessageHistory (messageHistory : jsval)
| Use_clearMessageHistory
| Use_addContextEntry (content timestamp : jsval) (now : Z)
| Use_removeContextEntry (index : jsval)
| Use_modifyContextEntry (index content timestamp : jsval) (now : Z)
| Use_setContext (contextArray : jsval) (now : Z)
| Use_clearContext
| Use_getContextString (now : Z)
| Use_fetchUsageRemaining (answer : fetch_result)
| Use_message (content useContext saveToMessageHistory : jsval) (now : Z) (answer : fetch_result)
| Use_messageStream (content useContext saveToMessageHistory : jsval) (now : Z)
    (answer : fetch_result)
| Use_greet (instructions useContext saveToMessageHistory : jsval) (now : Z)
    (answer : fetch_result)
| Use_shouldEngage (instructions : jsval) (now : Z) (answer : fetch_result)
| Use_rewrite (content instructions useContext : jsval) (now : Z) (answer : fetch_result)
| Use_sort (array instructions useContext : jsval) (now : Z) (answer : fetch_result)
| Use_caller_push (array v : jsval)
| Use_caller_write (array : jsval) (index : Z) (key : string) (v : jsval).

Section Uses.

Variable StringToNumber : string → number.
Variable JSON_parse : string → option json.
Variable JSON_stringify : json → string.

Definition perform (u : use) : M unit :=
  match u with
  | Use_initializeAgent agentKey verify limits => initializeAgent agentKey verify limits
  | Use_isInitialized => isInitialized >> ret tt
  | Use_usageRemaining => usageRemaining >> ret tt
  | Use_messageHistory => messageHistory >> ret tt
  | Use_context => context >> ret tt
  | Use_onInitialized callback => onInitialized callback
  | Use_onInitialized_unsubscribe newArrayLength => onInitialized_unsubscribe newArrayLength
  | Use_onMessageHistoryChange callback => onMessageHistoryChange callback
  | Use_onMessageHistoryChange_unsubscribe callback => onMessageHistoryChange_unsubscribe callback
  | Use_onContextChange callback => onContextChange (UserCallback callback)
  | Use_onContextChange_unsubscribe callback => onContextChange_unsubscribe (UserCallback callback)
  | Use_addMessage content role => addMessage content role >> ret tt
  | Use_removeMessage index => removeMessage index
  | Use_modifyMessage index content role => modifyMessage index content role
  | Use_setMessageHistory messageHistory => setMessageHistory messageHistory
  | Use_clearMessageHistory => clearMessageHistory
  | Use_addContextEntry content timestamp now =>
      addContextEntry JSON_stringify content timestamp now >> ret tt
  | Use_removeContextEntry index => removeContextEntry JSON_stringify index
  | Use_modifyContextEntry index content timestamp now =>
      modifyContextEntry JSON_stringify index content timestamp now
  | Use_setContext contextArray now => setContext JSON_stringify contextArray now
  | Use_clearContext => clearContext JSON_stringify
  | Use_getContextString now => getContextString now >> ret tt
  | Use_fetchUsageRemaining answer => fetchUsageRemaining answer >> ret tt
  | Use_message content useContext saveToMessageHistory now answer =>
      message StringToNumber content useContext saveToMessageHistory now answer >> ret tt
  | Use_messageStream content useContext saveToMessageHistory now answer =>
      messageStream StringToNumber JSON_parse content useContext saveToMessageHistory now answer
      >> ret tt
  | Use_greet instructions useContext saveToMessageHistory now answer =>
      greet StringToNumber instructions useContext saveToMessageHistory now answer >> ret tt
  | Use_shouldEngage instructions now answer => shouldEngage instructions now answer >> ret tt
  | Use_rewrite content instructions useContext now answer =>
      rewrite StringToNumber content instructions useContext now answer >> ret tt
  | Use_sort array instructions useContext now answer =>
      sort StringToNumber array instructions useContext now answer >> ret tt
  | Use_caller_push array v => caller_push array v >> ret tt
  | Use_caller_write array index key v => caller_write array index key v
  end.

(** A sequence of uses, one after the other; the owner catches what a
    use throws. *)
Fixpoint perform_all (us : list use) : M unit :=
  match us with
  | [] => ret tt
  | u :: rest => try_catch (perform u) (λ error, ret tt) >> perform_all rest
  end.

End Uses.

(** ** Builtins for the examples *)

Fixpoint digits_value (text : string) (acc : Z) : option Z :=
  match text with
  | EmptyString => Some acc
  | String a rest =>
      match Ascii.is_nat a with
      | Some d => digits_value rest (10 * acc + Z.of_nat d)
      | None => None
      end
  end.

(** [Number] on texts of decimal digits (and on the empty text). *)
Definition decimal_number (text : string) : number :=
  match digits_value text 0 with
  | Some n => Finite n
  | None => NaN
  end.

Definition quote : string := String "034" EmptyString.

Definition quoted (text : string) : string := quote +:+ text +:+ quote.

(** [JSON.stringify] on documents whose strings need no escape. *)
Fixpoint print_json (j : json) : string :=
  match j with
  | JNull => "null"
  | JBool true => "true"
  | JBool false => "false"
  | JNum n => pretty n
  | JStr s => quoted s
  | JArr items => "[" +:+ join "," (map print_json items) +:+ "]"
  | JObj members =>
      "{" +:+ join "," (map (λ kv, quoted kv.1 +:+ ":" +:+ print_json kv.2) members) +:+ "}"
  end.

(** The records of the streaming examples and their lines. *)
Definition record_fragment (fragment : string) : json :=
  JObj [("message", JStr fragment); ("done", JBool false)].

Definition record_done : json := JObj [("done", JBool true)].

Definition example_records : list json :=
  [record_fragment "He"; record_fragment "llo"; record_fragment "Hi "; record_fragment " ";
   record_fragment "a"; record_done].

(** [JSON.parse] on the lines of the examples: the record a line prints. *)
Definition parse_examples (text : string) : option json :=
  list_find (λ record, bool_decide (print_json record = text)) example_records ≫= λ found, Some found.2.

Definition terminated (line : string) : string := line +:+ String "010" EmptyString.

(** ** Instances for the examples *)

Definition node : environment :=
  {| isNode := true; isBrowser := false; hasLocalStorage := false |}.

Definition browser : environment :=
  {| isNode := false; isBrowser := true; hasLocalStorage := true |}.

Definition quiet_without_storage : options :=
  {| opt_useStorage := VBool false; opt_useMessageHistory := VUndefined;
     opt_suppressWarnings := VBool true; opt_agentId := VUndefined |}.

Definition with_agentId (id : string) : options :=
  {| opt_useStorage := VUndefined; opt_useMessageHistory := VUndefined;
     opt_suppressWarnings := VBool true; opt_agentId := VStr id |}.

Definition answer (code : Z) (header : option string) (document : option json)
    (chunks : list string) : fetch_result :=
  Resolved {| status := code; ratelimit_remaining := header; body := document; reads := chunks |}.

Definition limits_document (m so r : Z) : json :=
  JObj [("limits", JObj [("messages", JObj [("remaining", JNum m)]);
                         ("sorts", JObj [("remaining", JNum so)]);
                         ("rewrites", JObj [("remaining", JNum r)])])].

(** [new Heylock('KEY', {useStorage: false, suppressWarnings: true})] in
    Node, before the handshake has completed. *)
Definition constructed : state :=
  (new_Heylock parse_examples (VStr "KEY") quiet_without_storage 0 node ∅ ∅).2.

(** The same instance once the key was verified and the limits read
    as 10 messages, 5 sorts and 7 rewrites. *)
Definition ready : state :=
  (initializeAgent "KEY"
     (answer 200 None (Some (JObj [("valid", JBool true)])) [])
     (answer 200 None (Some (limits_document 10 5 7)) [])
     constructed).2.

(** Two objects and an array of them, as a caller builds its argument. *)
Definition array_of_two (a b : cell) : M jsval :=
  let* x := alloc a in
  let* y := alloc b in
  let* l := alloc (CArr [VRef x; VRef y]) in
  ret (VRef l).

Definition array_of_values (vs : list jsval) : M jsval :=
  let* l := alloc (CArr vs) in
  ret (VRef l).

Definition engagement_document : json :=
  JObj [("shouldEngage", JBool true); ("reasoning", JStr "go"); ("fallback", JBool false)].

(** A method that leaves [called] alone when it throws. *)
Definition silent_failure {A} (m : M A) : Prop :=
  ∀ s e s', m s = (Thrown e, s') → called s' = called s.

(** An entry that passes the validation of [setContext] and has a
    timestamp. *)
Definition timestamped_entry (h : gmap loc cell) (entry : jsval) : Prop :=
  entry_invalid h entry = false ∧ field h entry "timestamp" ≠ VUndefined.

Global Instance timestamped_entry_dec h entry : Decision (timestamped_entry h entry).
Proof. unfold timestamped_entry. apply _. Defined.

(** The test at which the loop of [setContext] stops: the element is
    invalid, or it is valid and has a timestamp. *)
Definition stops_validation (h : gmap loc cell) (entry : jsval) : Prop :=
  entry_invalid h entry = true ∨ timestamped_entry h entry.

Global Instance stops_validation_dec h entry : Decision (stops_validation h entry).
Proof. unfold stops_validation. apply _. Defined.

(** The content of the last message of the history. *)
Definition last_content (s : state) : jsval :=
  match history_elements s with
  | Some es => field (heap s) (List.last es VUndefined) "content"
  | None => VUndefined
  end.

(** The five ways the handshake fails: status 500, another status, a body
    without a boolean [valid], [valid: false], a rejected request. *)
Definition failing_handshakes : list fetch_result :=
  [answer 500 None None [];
   answer 404 None None [];
   answer 200 None (Some (JObj [("valid", JStr "nope")])) [];
   answer 200 None (Some (JObj [("valid", JBool false)])) [];
   Rejected (TypeError "fetch failed")].

(** A message or an entry as the agent makes them: an object whose fields
    hold no reference. *)
Definition plain (h : gmap loc cell) (v : jsval) : Prop :=
  ∃ o fields, v = VRef o ∧ h !! o = Some (CObj fields) ∧ map_Forall (λ _ x, primitive x) fields.

(** The two stores as the methods of the agent leave them: two arrays of
    such objects. *)
Definition well_formed (s : state) : Prop :=
  _messageHistory s ≠ _context s
  ∧ ∃ hs cs, history_elements s = Some hs ∧ context_elements s = Some cs
             ∧ Forall (plain (heap s)) hs ∧ Forall (plain (heap s)) cs.

(** The heap of a caller that made the array [['a', 'b', 'c']]. *)
Definition with_letters : state :=
  (array_of_values [VStr "a"; VStr "b"; VStr "c"] ready).2.

(** The heap of a caller that made
    [[{content: 'ok', timestamp: 1}, {content: 'later'}]]. *)
Definition with_entries : state :=
  (array_of_two (new_entry "ok" (VNum 1)) (new_entry "later" VUndefined) ready).2.

(** The instance [ready] with one subscriber of the history, after
    [addMessage('Hello', 'user')] and [addMessage('Hi there', 'assistant')]. *)
Definition conversing : state :=
  ((onMessageHistoryChange 7 >>
    addMessage (VStr "Hello") (VStr "user") >>
    addMessage (VStr "Hi there") (VStr "assistant")) ready).2.

(** The state once every subscriber of the history has been called, in
    the order of registration, with the array of the history. *)
Definition history_notified (s : state) : state :=
  set_called
    (called s ++ map (λ id, {| callee := id; argument := VRef (_messageHistory s) |})
                     (_onMessageHistoryChangeCallbacks s)) s.

(** An optional argument that is a number: the number, or [undefined]
    when it is left out. *)
Definition optional_number (given : option Z) : jsval :=
  match given with
  | Some n => VNum n
  | None => VUndefined
  end.

(** What the subscribers of a store cannot change: every field of the
    agent except the record of the calls, the local storage and the
    console. *)
Definition beyond_notifications (s : state) :=
  (cfg s, _isInitialized s, _usageRemaining s, _messageHistory s, _context s,
   _onInitializedCallbacks s, _onMessageHistoryChangeCallbacks s, _onContextChangeCallbacks s,
   _shouldEngageTimeCalled s, heap s, fetched s, yielded s).

(** The calls [#onContextChangeExecute] makes to the functions of the
    caller: one for each, in the order of registration, with the array of
    the context. *)
Definition context_calls (s : state) : list invocation :=
  omap (λ callback, match callback with
                    | UserCallback id => Some {| callee := id; argument := VRef (_context s) |}
                    | StorageSubscriber => None
                    end) (_onContextChangeCallbacks s).

(** The console of an agent that suppresses its warnings. *)
Definition console_when_quiet (s : state) : list string :=
  if suppressWarnings (cfg s) then console s else [].

(** [new Heylock('KEY', {suppressWarnings: true})] in a browser with an
    empty local storage, then one subscriber of the context,
    [addContextEntry('likes tea', 1000)] and, at 5 s,
    [addContextEntry('from Oslo')]. *)
Definition remembering : state :=
  ((constructor parse_examples (VStr "KEY") (with_agentId "A2") 0 >>
    onContextChange (UserCallback 9) >>
    addContextEntry print_json (VStr "likes tea") (VNum 1000) 1000 >>
    addContextEntry print_json (VStr "from Oslo") VUndefined 5000) (instance browser ∅ ∅)).2.

(** Arrays a caller builds for [setMessageHistory] and [setContext]:
    [[{content: ' Hi ', role: 'user'}, {content: 'Yo', role: 'assistant'}]],
    the same with the role ['system'] for the second message,
    [[{content: ' a '}, {content: 'b'}]] and [[{content: 'ok'}, {content: '  '}]]. *)
Definition with_messages : state :=
  (array_of_two (new_message " Hi " (VStr "user")) (new_message "Yo" (VStr "assistant"))
     conversing).2.

Definition with_bad_messages : state :=
  (array_of_two (new_message " Hi " (VStr "user")) (new_message "Yo" (VStr "system"))
     conversing).2.

Definition with_plain_entries : state :=
  (array_of_two (new_entry " a " VUndefined) (new_entry "b" VUndefined) remembering).2.

Definition with_bad_entries : state :=
  (array_of_two (new_entry "ok" VUndefined) (new_entry "  " VUndefined) remembering).2.

(** When the call threw, what it threw is an [Error] whose message names
    the method: it contains [prefix]. *)
Definition failure_names {A} (prefix : string) (result : outcome A * state) : Prop :=
  match result.1 with
  | Thrown e => ∃ message, e = Error message ∧ includes message prefix = true
  | Returned _ => True
  end.

(** Stored contexts for the examples of the constructor, one the
    constructor accepts and one with a blank entry, and [JSON.parse] on
    their texts. *)
Definition usable_stored_context : json :=
  JArr [JObj [("content", JStr " likes tea "); ("timestamp", JNum 1000)];
        JObj [("content", JStr "from Oslo")]].

Definition unusable_stored_context : json :=
  JArr [JObj [("content", JStr "likes tea")]; JObj [("content", JStr "  ")]].

Definition parse_contexts (text : string) : option json :=
  list_find (λ document, bool_decide (print_json document = text))
    [usable_stored_context; unusable_stored_context]
  ≫= λ found, Some found.2.

(** The heap of a caller that made the array [['a']]. *)
Definition with_one_letter : state :=
  (array_of_values [VStr "a"] ready).2.

(** The instance [constructed], not yet initialized, with one
    [onInitialized] callback. *)
Definition awaiting : state := (onInitialized 3 constructed).2.

(** ** Reasoning about methods *)

Lemma bind_returned {A B} (m : M A) (k : A → M B) s a s' :
  m s = (Returned a, s') → bind m k s = k a s'.
Proof. intros H. unfold bind. by rewrite H. Qed.

Lemma bind_thrown {A B} (m : M A) (k : A → M B) s e s' :
  m s = (Thrown e, s') → bind m k s = (Thrown e, s').
Proof. intros H. unfold bind. by rewrite H. Qed.

Lemma keeps_ret {A B} (f : state → B) (a : A) : keeps f (ret a).
Proof. by intros s. Qed.

Lemma keeps_throw {A B} (f : state → B) e : keeps f (@throw A e).
Proof. by intros s. Qed.

Lemma keeps_gets {A B} (f : state → B) (g : state → A) : keeps f (gets g).
Proof. by intros s. Qed.

Lemma keeps_bind {A B C} (f : state → C) (m : M A) (k : A → M B) :
  keeps f m → (∀ a, keeps f (k a)) → keeps f (bind m k).
Proof.
  intros Hm Hk s. unfold bind. specialize (Hm s).
  destruct (m s) as [[a|e] s']; simpl in *; [|done]. by rewrite Hk.
Qed.

Lemma keeps_try_catch {A C} (f : state → C) (m : M A) (h : jsError → M A) :
  keeps f m → (∀ e, keeps f (h e)) → keeps f (try_catch m h).
Proof.
  intros Hm Hh s. unfold try_catch. specialize (Hm s).
  destruct (m s) as [[a|e] s']; simpl in *; [done|]. by rewrite Hh.
Qed.

Lemma keeps_when {C} (f : state → C) b m : keeps f m → keeps f (when b m).
Proof. intros Hm. destruct b; [done|]. apply keeps_ret. Qed.

Lemma keeps_forEach {A C} (f : state → C) (l : list A) (g : A → M unit) :
  (∀ a, keeps f (g a)) → keeps f (forEach l g).
Proof.
  intros Hg. induction l as [|a l IH]; [apply keeps_ret|].
  apply keeps_bind; [apply Hg|]. intros _. apply IH.
Qed.

Lemma keeps_rethrow {A C} (f : state → C) prefix e : keeps f (@rethrow A prefix e).
Proof. unfold rethrow. destruct (includes _ _); apply keeps_throw. Qed.

Lemma keeps_get_property {C} (f : state → C) v key : keeps f (get_property v key).
Proof. intros s. unfold get_property. by destruct (nullish v). Qed.

Lemma keeps_elements {C} (f : state → C) l : keeps f (elements l).
Proof. intros s. unfold elements. by destruct (elements_of _ _). Qed.

Lemma keeps_warn {C} (f : state → C) text :
  (∀ x s, f (set_console x s) = f s) → keeps f (warn text).
Proof. intros Hf s. unfold warn. destruct (suppressWarnings _); [done|]. apply Hf. Qed.

Lemma keeps_call {C} (f : state → C) id arg :
  (∀ x s, f (set_called x s) = f s) → keeps f (call id arg).
Proof. intros Hf s. apply Hf. Qed.

(** One step of a proof that a method keeps a field. *)
Ltac keeps_step :=
  lazymatch goal with
  | |- keeps _ (bind _ _) => apply keeps_bind; [|intros ?]
  | |- keeps _ (try_catch _ _) => apply keeps_try_catch; [|intros ?]
  | |- keeps _ (ret _) => apply keeps_ret
  | |- keeps _ (throw _) => apply keeps_throw
  | |- keeps _ (gets _) => apply keeps_gets
  | |- keeps _ (when _ _) => apply keeps_when
  | |- keeps _ (forEach _ _) => apply keeps_forEach; intros ?
  | |- keeps _ (rethrow _ _) => apply keeps_rethrow
  | |- keeps _ (get_property _ _) => apply keeps_get_property
  | |- keeps _ (elements _) => apply keeps_elements
  | |- keeps _ (warn _) => apply keeps_warn; done
  | |- keeps _ (call _ _) => apply keeps_call; done
  | |- keeps _ (modify _) => by intros ?
  | |- keeps _ (if ?b then _ else _) => destruct b
  | |- keeps _ (match ?x with _ => _ end) => destruct x
  end.

Lemma keeps_onMessageHistoryChangeExecute {C} (f : state → C) :
  (∀ x s, f (set_console x s) = f s) → (∀ x s, f (set_called x s) = f s) →
  keeps f onMessageHistoryChangeExecute.
Proof. intros H1 H2. unfold onMessageHistoryChangeExecute, messageHistory. repeat keeps_step. Qed.

Lemma forEach_returns {A} (l : list A) (g : A → M unit) :
  (∀ a s, (g a s).1 = Returned tt) → ∀ s, (forEach l g s).1 = Returned tt.
Proof.
  intros Hg. induction l as [|a l IH]; intros s; [done|].
  cbn [forEach]. unfold bind. specialize (Hg a s).
  destruct (g a s) as [[[]|e] s']; simpl in *; [apply IH|done].
Qed.

Lemma onMessageHistoryChangeExecute_returns s :
  (onMessageHistoryChangeExecute s).1 = Returned tt.
Proof.
  unfold onMessageHistoryChangeExecute, bind at 1. cbn [gets].
  apply forEach_returns. by intros id s'.
Qed.



(** ** Streaming *)

Lemma append_cons a s t : String a s +:+ t = String a (s +:+ t).
Proof. reflexivity. Qed.

Lemma append_empty_r s : s +:+ "" = s.
Proof. induction s as [|a s IH]; [done|]. by rewrite append_cons, IH. Qed.

Lemma append_assoc s t u : (s +:+ t) +:+ u = s +:+ (t +:+ u).
Proof. induction s as [|a s IH]; [done|]. by rewrite !append_cons, IH. Qed.

Lemma last_cons_default {A} (l : list A) x d : List.last (x :: l) d = List.last l x.
Proof.
  revert x d. induction l as [|y l IH]; intros x d; [done|].
  change (List.last (x :: y :: l) d) with (List.last (y :: l) d). by rewrite !IH.
Qed.

Lemma emitted_cons full fragment fragments :
  emitted full (fragment :: fragments)
  = if decide (storable (full +:+ fragment))
    then fragment :: emitted (full +:+ fragment) fragments
    else emitted (full +:+ fragment) fragments.
Proof.
  unfold emitted. cbn [cumulative zip zip_with]. rewrite filter_cons. cbn [snd].
  by destruct (decide (storable (full +:+ fragment))).
Qed.

Lemma last_accepted_cons full fragment fragments stored :
  last_accepted full (fragment :: fragments) stored
  = last_accepted (full +:+ fragment) fragments
      (if decide (storable (full +:+ fragment)) then full +:+ fragment else stored).
Proof.
  unfold last_accepted. cbn [cumulative]. rewrite filter_cons.
  destruct (decide (storable (full +:+ fragment))); [apply last_cons_default|done].
Qed.

(** The text accumulated after fragment [k] is the concatenation of the
    fragments up to and including it. *)
Lemma cumulative_lookup fragments : ∀ full k,
  cumulative full fragments !! k
  = (λ _, full +:+ concat_strings (take (S k) fragments)) <$> fragments !! k.
Proof.
  induction fragments as [|fragment fragments IH]; intros full k; [done|].
  destruct k as [|k]; cbn [cumulative lookup list_lookup take concat_strings foldr fmap option_map].
  - cbn. by rewrite append_empty_r.
  - rewrite IH. destruct (fragments !! k); [|done]. cbn. by rewrite append_assoc.
Qed.

(** When [modifyMessage] accepts every accumulated text, every fragment
    is emitted and the last text is the concatenation of all of them. *)
Lemma emitted_all fragments : ∀ full,
  Forall storable (cumulative full fragments) → emitted full fragments = fragments.
Proof.
  induction fragments as [|fragment fragments IH]; intros full Hall; [done|].
  cbn [cumulative] in Hall. apply Forall_cons in Hall as [Hok Hall].
  rewrite emitted_cons, decide_True by done. by rewrite IH.
Qed.

Lemma last_accepted_all fragments : ∀ full stored,
  Forall storable (cumulative full fragments) →
  fragments ≠ [] →
  last_accepted full fragments stored = full +:+ concat_strings fragments.
Proof.
  induction fragments as [|fragment fragments IH]; intros full stored Hall Hne; [done|].
  cbn [cumulative] in Hall. apply Forall_cons in Hall as [Hok Hall].
  rewrite last_accepted_cons, decide_True by done.
  destruct fragments as [|f fs].
  - cbn. by rewrite append_empty_r.
  - rewrite IH by done. cbn [concat_strings foldr]. by rewrite append_assoc.
Qed.

Section Streaming.

Variable JSON_parse : string → option json.










End Streaming.

(** ** Initialization reports success only *)

Lemma silent_failure_keeps {A} (m : M A) : keeps called m → silent_failure m.
Proof. intros Hm s e s' Hrun. specialize (Hm s). by rewrite Hrun in Hm. Qed.

Lemma silent_failure_bind {A B} (m : M A) (k : A → M B) :
  keeps called m → (∀ a, silent_failure (k a)) → silent_failure (bind m k).
Proof.
  intros Hm Hk s e s' Hrun. unfold bind in Hrun. specialize (Hm s).
  destruct (m s) as [[a|e0] s0]; simpl in Hm.
  - rewrite <- Hm. by eapply Hk.
  - injection Hrun as _ <-. done.
Qed.

Lemma silent_failure_returns {A} (m : M A) :
  (∀ s, ∃ a, (m s).1 = Returned a) → silent_failure m.
Proof. intros Hm s e s' Hrun. destruct (Hm s) as [a Ha]. by rewrite Hrun in Ha. Qed.

Lemma keeps_fetch {C} (f : state → C) rq answer :
  (∀ x s, f (set_fetched x s) = f s) → keeps f (fetch rq answer).
Proof. intros Hf. unfold fetch. keeps_step; [by intros s; apply Hf|]. repeat keeps_step. Qed.

Lemma keeps_res_json {C} (f : state → C) r : keeps f (res_json r).
Proof. unfold res_json. repeat keeps_step. Qed.

Lemma keeps_member {C} (f : state → C) j key : keeps f (member j key).
Proof. unfold member. repeat keeps_step. Qed.

Lemma keeps_alloc {C} (f : state → C) c :
  (∀ x s, f (set_heap x s) = f s) → keeps f (alloc c).
Proof. intros Hf s. apply Hf. Qed.

Lemma keeps_import {C} (f : state → C) :
  (∀ x s, f (set_heap x s) = f s) → ∀ j, keeps f (import j).
Proof.
  intros Hf. fix IH 1. intros [| | | |items|members]; cbn [import]; try apply keeps_ret.
  - keeps_step; [|keeps_step; [by apply keeps_alloc|apply keeps_ret]].
    induction items as [|item items IHitems]; [apply keeps_ret|].
    keeps_step; [apply IH|]. keeps_step; [apply IHitems|apply keeps_ret].
  - keeps_step; [|keeps_step; [by apply keeps_alloc|apply keeps_ret]].
    induction members as [|[k item] members IHmembers]; [apply keeps_ret|].
    keeps_step; [apply IHmembers|]. keeps_step; [apply IH|apply keeps_ret].
Qed.

Lemma keeps_remaining_of {C} (f : state → C) limits kind :
  (∀ x s, f (set_heap x s) = f s) → keeps f (remaining_of limits kind).
Proof.
  intros Hf. unfold remaining_of.
  repeat (keeps_step; try apply keeps_member; try by apply keeps_import).
Qed.

Lemma keeps_fetchUsageRemaining {C} (f : state → C) answer :
  (∀ x s, f (set_heap x s) = f s) →
  (∀ x s, f (set_fetched x s) = f s) →
  (∀ x s, f (set_usageRemaining x s) = f s) →
  keeps f (fetchUsageRemaining answer).
Proof.
  intros H1 H2 H3. unfold fetchUsageRemaining, isInitialized, usageRemaining.
  repeat (keeps_step; try (by apply keeps_fetch); try apply keeps_res_json;
          try apply keeps_member; try (by apply keeps_remaining_of)).
  intros s. apply H3.
Qed.

Lemma onInitializedExecute_returns s : (onInitializedExecute s).1 = Returned tt.
Proof.
  unfold onInitializedExecute, bind at 1. cbn [gets].
  apply forEach_returns. by intros id s'.
Qed.

(** Whenever [#initializeAgent] throws, no callback was called: the
    callbacks are run by the last statement of the success path. *)
Lemma initializeAgent_throws_silently key verify limits :
  silent_failure (initializeAgent key verify limits).
Proof.
  intros s e s' Hrun. unfold initializeAgent, try_catch in Hrun.
  match type of Hrun with context [match ?body s with _ => _ end] =>
    assert (silent_failure body) as Hbody end.
  { apply silent_failure_bind; [by apply keeps_fetch|]. intros r.
    repeat lazymatch goal with
    | |- silent_failure (if ?b then _ else _) => destruct b
    | |- silent_failure (match ?x with _ => _ end) => destruct x
    | |- silent_failure (throw _) => apply silent_failure_keeps, keeps_throw
    | |- silent_failure (bind (res_json _) _) =>
        apply silent_failure_bind; [apply keeps_res_json|intros ?]
    | |- silent_failure (bind (member _ _) _) =>
        apply silent_failure_bind; [apply keeps_member|intros ?]
    | |- silent_failure (bind (modify _) _) =>
        apply silent_failure_bind; [by intros ?|intros ?]
    | |- silent_failure (bind (fetchUsageRemaining _) _) =>
        apply silent_failure_bind; [by apply keeps_fetchUsageRemaining|intros ?]
    | |- silent_failure onInitializedExecute =>
        apply silent_failure_returns; intros s1; exists tt; apply onInitializedExecute_returns
    end. }
  match type of Hrun with context [match ?body s with _ => _ end] =>
    destruct (body s) as [[[]|e0] s0] eqn:Hb end; [done|].
  assert (s' = s0) as ->.
  { unfold rethrow in Hrun. by destruct (includes _ _); injection Hrun as _ <-. }
  by eapply Hbody.
Qed.

(** ** Rendering the context and building payloads *)

Lemma keeps_render_entries {C} (f : state → C) es : ∀ now acc, keeps f (render_entries es now acc).
Proof.
  induction es as [|e es IH]; intros now acc; cbn [render_entries]; [apply keeps_ret|].
  repeat keeps_step. apply IH.
Qed.

Lemma keeps_getContextString {C} (f : state → C) now : keeps f (getContextString now).
Proof. unfold getContextString. repeat keeps_step. apply keeps_render_entries. Qed.

Lemma keeps_stringify_members {C} (f : state → C) members : keeps f (stringify_members members).
Proof. unfold stringify_members. repeat keeps_step. Qed.

Lemma render_entries_returns es : ∀ now acc s,
  Forall (λ e, nullish e = false) es →
  ∃ text, render_entries es now acc s = (Returned text, s).
Proof.
  induction es as [|e es IH]; intros now acc s Hes; [by eexists|].
  apply Forall_cons in Hes as [He Hes]. cbn [render_entries].
  unfold bind at 1, get_property at 1. rewrite He.
  unfold bind at 1, get_property at 1. rewrite He.
  unfold bind at 1. cbn [gets]. apply IH, Hes.
Qed.

Lemma getContextString_returns now s :
  context_readable s → ∃ text, getContextString now s = (Returned text, s).
Proof.
  intros (es & Hes & Hall). unfold getContextString.
  unfold bind at 1. cbn [gets]. unfold bind at 1, elements.
  unfold context_elements in Hes. rewrite Hes.
  by apply render_entries_returns.
Qed.

Lemma serial_members_cons k x rest :
  x ≠ Cyclic → is_Some (serial_members rest) → is_Some (serial_members ((k, x) :: rest)).
Proof. intros Hx [ms Hms]. destruct x; cbn; rewrite ?Hms; by eauto. Qed.

Lemma serialise_primitive h v : primitive v → serialise h v ≠ Cyclic.
Proof. intros Hv. destruct v as [| |b|[n| |neg]|t|l']; try done; by destruct (Hv l'). Qed.

Lemma stringify_members_returns members ms s :
  serial_members (map (λ kv, (kv.1, serialise (heap s) kv.2)) members) = Some ms →
  stringify_members members s = (Returned (JObj ms), s).
Proof. intros H. unfold stringify_members, bind. cbn [gets]. by rewrite H. Qed.

Lemma gather_lookup items order i index :
  order !! i = Some index → gather items order !! i = Some (at_index items (VNum index)).
Proof. intros H. unfold gather. by rewrite list_lookup_fmap, H. Qed.

(** [array[index]] for an integer [index] is the element at that position
    of the list, and [undefined] outside of it. *)
Lemma at_index_inside items index :
  0 ≤ index < Z.of_nat (length items) →
  Some (at_index items (VNum index)) = items !! Z.to_nat index.
Proof.
  intros Hin. unfold at_index.
  replace (index <? 0) with false by (symmetry; apply Z.ltb_ge; lia).
  destruct (lookup_lt_is_Some_2 items (Z.to_nat index)) as [x Hx]; [lia|].
  by rewrite Hx.
Qed.

Lemma at_index_outside items index :
  ¬ 0 ≤ index < Z.of_nat (length items) → at_index items (VNum index) = VUndefined.
Proof.
  intros Hout. unfold at_index. destruct (index <? 0) eqn:Hneg; [done|].
  apply Z.ltb_ge in Hneg. by rewrite lookup_ge_None_2 by lia.
Qed.

(** ** Replacing the message history *)

Lemma validate_messages_invalid es : ∀ index s,
  Exists (λ m, message_invalid (heap s) m = true) es →
  ∃ j, (j < length es)%nat
       ∧ validate_messages index es s = (Thrown (setMessageHistory_invalid (index + Z.of_nat j)), s).
Proof.
  induction es as [|m es IH]; intros index s Hex; [by apply Exists_nil in Hex|].
  cbn [validate_messages]. unfold bind at 1. cbn [gets].
  destruct (message_invalid (heap s) m) eqn:Hm.
  - exists 0%nat. cbn. split; [lia|]. by rewrite Z.add_0_r.
  - apply Exists_cons in Hex as [Hex|Hex]; [congruence|].
    destruct (IH (index + 1) s Hex) as (j & Hj & Hrun).
    exists (S j). cbn [length]. split; [lia|]. rewrite Hrun. do 3 f_equal. lia.
Qed.

Lemma validate_messages_valid es : ∀ index s,
  Forall (λ m, message_invalid (heap s) m = false) es →
  validate_messages index es s = (Returned tt, s).
Proof.
  induction es as [|m es IH]; intros index s Hall; [done|].
  apply Forall_cons in Hall as [Hm Hall].
  cbn [validate_messages]. unfold bind at 1. cbn [gets]. rewrite Hm. by apply IH.
Qed.

(** X28: [setMessageHistory] is all-or-nothing: with an invalid element
    in the array it throws the validation error, which names the index of
    an element, and changes nothing. *)
Lemma setMessageHistory_all_or_nothing s l es :
  elements_of (heap s) l = Some es →
  Exists (λ m, message_invalid (heap s) m = true) es →
  ∃ j, (j < length es)%nat
       ∧ setMessageHistory (VRef l) s = (Thrown (setMessageHistory_invalid (Z.of_nat j)), s).
Proof.
  intros Hes Hex. destruct (validate_messages_invalid es 0 s Hex) as (j & Hj & Hrun).
  exists j. split; [done|].
  unfold setMessageHistory, bind at 1. cbn [gets]. rewrite Hes.
  unfold bind at 1. by rewrite Hrun.
Qed.

Lemma Forall2_impl_valid {A B} (P : A → Prop) (Q Q' : A → B → Prop) l k :
  Forall P l → Forall2 Q l k → (∀ x y, P x → Q x y → Q' x y) → Forall2 Q' l k.
Proof.
  intros HP HQ Himpl. induction HQ as [|x y l k Hxy _ IH]; [constructor|].
  apply Forall_cons in HP as [Hx HP]. constructor; [by apply Himpl|by apply IH].
Qed.

Lemma fresh_unused (h : gmap loc cell) : h !! fresh (dom h) = None.
Proof. apply not_elem_of_dom, is_fresh. Qed.

(** A valid message is an object of the heap with a string content. *)
Lemma message_valid_object h m :
  message_invalid h m = false →
  ∃ o fields text, m = VRef o ∧ h !! o = Some (CObj fields)
                   ∧ fields !! "content" = Some (VStr text).
Proof.
  unfold message_invalid. intros H.
  repeat (apply orb_false_elim in H as [H ?]).
  destruct m as [| |b|x|t|o]; try done. exists o.
  unfold field in *. destruct (h !! o) as [[fields|es]|]; try done.
  destruct (fields !! "content") as [[| |b|x|t|o']|] eqn:Hc; try done. eauto.
Qed.

(** What [copy_messages] allocates: for every message a new object, at a
    location the heap did not use, with the trimmed content and the role
    of the original; the heap it started from is still there. *)
Lemma copy_messages_fresh es : ∀ s,
  Forall (λ m, message_invalid (heap s) m = false) es →
  ∃ copies h',
    copy_messages es s = (Returned copies, set_heap h' s)
    ∧ heap s ⊆ h'
    ∧ Forall2 (λ original copy,
                 ∃ o text, copy = VRef o
                           ∧ heap s !! o = None
                           ∧ field (heap s) original "content" = VStr text
                           ∧ h' !! o = Some (new_message (trim text) (field (heap s) original "role")))
              es copies.
Proof.
  induction es as [|m es IH]; intros s Hall.
  - exists [], (heap s). split; [by destruct s|]. split; [done|constructor].
  - apply Forall_cons in Hall as [Hm Hall].
    destruct (message_valid_object _ _ Hm) as (om & fields & text & -> & Hom & Hcontent).
    set (o := fresh (dom (heap s))).
    set (s1 := set_heap (<[o := new_message (trim text) (field (heap s) (VRef om) "role")]> (heap s)) s).
    assert (Ho : heap s !! o = None) by apply fresh_unused.
    assert (Hsub : heap s ⊆ heap s1) by (by apply insert_subseteq).
    assert (Hfield : ∀ v key, message_invalid (heap s) v = false →
                              field (heap s1) v key = field (heap s) v key).
    { intros v key Hv. destruct (message_valid_object _ _ Hv) as (ov & fv & tv & -> & Hov & _).
      unfold field. rewrite Hov. by rewrite (lookup_weaken _ _ _ _ Hov Hsub). }
    destruct (IH s1) as (copies & h' & Hrun & Hsub' & Hcopies).
    { eapply Forall_impl; [exact Hall|]. intros v Hv. cbn beta in *.
      unfold message_invalid in *. by rewrite !Hfield. }
    exists (VRef o :: copies), h'.
    cbn [copy_messages]. unfold bind at 1, get_property at 1. cbn [nullish].
    unfold bind at 1, get_property at 1. cbn [nullish].
    assert (Hc : field (heap s) (VRef om) "content" = VStr text).
    { unfold field. by rewrite Hom, Hcontent. }
    rewrite Hc. unfold bind at 1. cbn [alloc]. fold o. fold s1.
    unfold bind at 1. rewrite Hrun. cbn [ret].
    split; [by destruct s|]. split; [by etrans|].
    constructor.
    + exists o, text. repeat split; [done|done|].
      eapply lookup_weaken; [|exact Hsub']. unfold s1. cbn [heap set_heap].
      by rewrite lookup_insert_eq.
    + eapply Forall2_impl_valid; [exact Hall|exact Hcopies|]. cbn beta.
      intros original copy Hvalid (o' & text' & -> & Ho' & Hc' & Hnew).
      exists o', text'. rewrite !Hfield in * by done. repeat split; [|done|done].
      eapply lookup_weaken_None; [exact Ho'|exact Hsub].
Qed.

(** X29: when [setMessageHistory] succeeds the history is a new array of
    new objects: no location the heap used before, the caller's array and
    messages included, is part of it, and those are left as they were. *)
Lemma setMessageHistory_copies s l es :
  elements_of (heap s) l = Some es →
  Forall (λ m, message_invalid (heap s) m = false) es →
  ∃ s' copies,
    setMessageHistory (VRef l) s = (Returned tt, s')
    ∧ history_elements s' = Some copies
    ∧ heap s !! _messageHistory s' = None
    ∧ heap s ⊆ heap s'
    ∧ Forall2 (λ original copy,
                 ∃ o text, copy = VRef o
                           ∧ heap s !! o = None
                           ∧ field (heap s) original "content" = VStr text
                           ∧ heap s' !! o = Some (new_message (trim text) (field (heap s) original "role")))
              es copies.
Proof.
  intros Hes Hall.
  destruct (copy_messages_fresh es s Hall) as (copies & h1 & Hcopy & Hsub & Hcopies).
  unfold setMessageHistory, bind at 1. cbn [gets]. rewrite Hes.
  unfold bind at 1. rewrite validate_messages_valid by done.
  unfold bind at 1. rewrite Hcopy. unfold bind at 1. cbn [alloc heap set_heap].
  set (a := fresh (dom h1)). unfold bind at 1. cbn [modify].
  match goal with |- ∃ s' _, onMessageHistoryChangeExecute ?s0 = _ ∧ _ =>
    pose proof (onMessageHistoryChangeExecute_returns s0) as Hr;
    pose proof (keeps_onMessageHistoryChangeExecute heap ltac:(done) ltac:(done) s0) as Hh;
    pose proof (keeps_onMessageHistoryChangeExecute _messageHistory ltac:(done) ltac:(done) s0) as Hm;
    destruct (onMessageHistoryChangeExecute s0) as [[[]|e] s'] eqn:Hrun; [|done]
  end.
  cbn [snd heap set_heap set_messageHistory _messageHistory] in Hh, Hm.
  assert (Ha : h1 !! a = None) by apply fresh_unused.
  exists s', copies. split; [done|].
  unfold history_elements, elements_of. rewrite Hh, Hm, lookup_insert_eq.
  split; [done|]. split; [by eapply lookup_weaken_None|].
  split; [etrans; [exact Hsub|by apply insert_subseteq]|].
  eapply Forall2_impl; [exact Hcopies|]. cbn beta.
  intros original copy (o & text & -> & Ho & Hc & Hnew).
  exists o, text. repeat split; [done|done|].
  rewrite lookup_insert_ne; [done|]. intros <-. congruence.
Qed.

Section InvalidEntries.
Variable JSON_stringify : json → string.

Lemma validate_entries_invalid es : ∀ index now s,
  Exists (λ x, entry_invalid (heap s) x = true) es →
  ∃ e, validate_entries index es now s = (Thrown e, s).
Proof.
  induction es as [|x es IH]; intros index now s Hex; [by apply Exists_nil in Hex|].
  cbn [validate_entries]. unfold bind at 1. cbn [gets].
  destruct (entry_invalid (heap s) x) eqn:Hx; [by eexists|].
  apply Exists_cons in Hex as [Hex|Hex]; [congruence|].
  destruct (timestamp_given _); [by eexists|].
  unfold bind at 1. cbn [ret]. by apply IH.
Qed.

(** X30: [setContext] commits nothing of an array with an invalid
    element: it throws and the state is as before. *)
Lemma setContext_all_or_nothing s l es now :
  elements_of (heap s) l = Some es →
  Exists (λ x, entry_invalid (heap s) x = true) es →
  ∃ e, setContext JSON_stringify (VRef l) now s = (Thrown e, s).
Proof.
  intros Hes Hex. destruct (validate_entries_invalid es 0 now s Hex) as (e & Hrun).
  exists e. unfold setContext, bind at 1. cbn [gets]. rewrite Hes.
  unfold bind at 1. by rewrite Hrun.
Qed.
End InvalidEntries.

Section Usage.
Variable StringToNumber : string → number.

(** The block of [message], [messageStream] and [rewrite] with a header
    that [Number] reads as a number: the counter becomes that number. *)
Lemma setting_rate_limits_numeric text x read write s :
  StringToNumber text = x → x ≠ NaN →
  setting_rate_limits StringToNumber (Some text) read write s
  = (Returned x, set_usageRemaining (write (VNumber x) (_usageRemaining s)) s).
Proof.
  intros Hx Hnum. unfold setting_rate_limits. cbn [Number]. rewrite Hx.
  rewrite (bool_decide_eq_false_2 _ Hnum).
  by rewrite (bool_decide_eq_true_2 (is_Some (Some text))) by eauto.
Qed.

(** The same block without the header, or with one that is no number: the
    counter is decremented. *)
Lemma setting_rate_limits_absent header read write s :
  header = None ∨ (∃ text, header = Some text ∧ StringToNumber text = NaN) →
  setting_rate_limits StringToNumber header read write s
  = (Returned (Number StringToNumber header),
     set_usageRemaining
       (write (VNumber (minus_one (ToNumber StringToNumber (heap s) (read (_usageRemaining s)))))
              (_usageRemaining s)) s).
Proof.
  intros [->|(text & -> & Hnan)]; unfold setting_rate_limits; cbn [Number].
  - by rewrite (bool_decide_eq_false_2 (is_Some None)) by (by intros [? ?]).
  - rewrite Hnan. by rewrite (bool_decide_eq_true_2 (NaN = NaN)).
Qed.

(** The block of [sort] without the header: the counter becomes 0. *)
Lemma setting_rate_limits_sort_absent s :
  setting_rate_limits_sort StringToNumber None s
  = (Returned (Finite 0), set_usageRemaining (set_sorts (VNum 0) (_usageRemaining s)) s).
Proof. reflexivity. Qed.

End Usage.

(** ** Replacing the context *)

Lemma timestamped_entry_given h entry :
  timestamped_entry h entry → timestamp_given (field h entry "timestamp") = true.
Proof.
  intros [Hvalid Hdefined]. unfold entry_invalid in Hvalid.
  apply orb_false_elim in Hvalid as [_ Hstamp].
  unfold timestamp_invalid in Hstamp. unfold timestamp_given.
  destruct (field h entry "timestamp") as [| |b|[n| |neg]|t|l]; try done.
  by destruct neg.
Qed.

(** The validation loop changes nothing, and it stops at the first entry
    that is invalid or has a timestamp: with the validation error that
    names the index of the former, with the [ReferenceError] at the
    latter. *)
Lemma validate_entries_stops es : ∀ index now s j x,
  list_find (stops_validation (heap s)) es = Some (j, x) →
  validate_entries index es now s
  = (Thrown (if entry_invalid (heap s) x then setContext_invalid (index + Z.of_nat j)
             else ReferenceError "timestamp is not defined"), s).
Proof.
  induction es as [|y es IH]; intros index now s j x Hfind; [done|].
  cbn [list_find] in Hfind. cbn [validate_entries]. unfold bind at 1. cbn [gets].
  destruct (decide (stops_validation (heap s) y)) as [Hstop|Hpass].
  - injection Hfind as <- <-. destruct (entry_invalid (heap s) y) eqn:Hy.
    + by rewrite Z.add_0_r.
    + destruct Hstop as [?|Hstamped]; [congruence|].
      by rewrite (timestamped_entry_given _ _ Hstamped).
  - destruct (list_find _ es) as [[j' x']|] eqn:Hrest; [|done].
    injection Hfind as <- <-.
    destruct (entry_invalid (heap s) y) eqn:Hy; [destruct Hpass; by left|].
    destruct (timestamp_given (field (heap s) y "timestamp")) eqn:Hgiven.
    { destruct Hpass. right. split; [done|]. intros Hundefined.
      by rewrite Hundefined in Hgiven. }
    unfold bind at 1. cbn [ret]. rewrite (IH (index + 1) now s j' x' Hrest).
    do 3 f_equal. destruct (entry_invalid (heap s) x'); [|done]. f_equal. lia.
Qed.

Section TimestampedEntries.

Variable JSON_stringify : json → string.

(** C10, amended: an array with an entry that passes the validation and
    has a timestamp is never committed. [setContext] throws and leaves the
    whole state, the context included, as it was. The loop stops at the
    first element that is invalid or is a valid entry with a timestamp, at
    or before the entry in question: an invalid element gives the
    validation error that names its index, a valid entry with a timestamp
    gives the [ReferenceError] of the undeclared [timestamp]. *)
Theorem setContext_rejects_timestamped_entry s l es i entry now :
  elements_of (heap s) l = Some es →
  es !! i = Some entry →
  timestamped_entry (heap s) entry →
  ∃ j x,
    list_find (stops_validation (heap s)) es = Some (j, x)
    ∧ (j ≤ i)%nat
    ∧ setContext JSON_stringify (VRef l) now s
      = (Thrown (if entry_invalid (heap s) x then setContext_invalid (Z.of_nat j)
                 else ReferenceError "timestamp is not defined"), s).
Proof.
  intros Hes Hi Hentry.
  destruct (list_find_elem_of (stops_validation (heap s)) es entry) as [[j x] Hfind].
  { by eapply list_elem_of_lookup_2. }
  { by right. }
  exists j, x. split; [done|]. split.
  - apply list_find_Some in Hfind as (_ & _ & Hfirst).
    destruct (decide (j ≤ i)%nat) as [|Hlater]; [done|].
    destruct (Hfirst i entry Hi ltac:(lia)). by right.
  - unfold setContext, bind at 1. cbn [gets]. rewrite Hes.
    unfold bind at 1. by rewrite (validate_entries_stops es 0 now s j x Hfind).
Qed.

End TimestampedEntries.

(** ** The engagement throttle *)

Lemma shouldEngage_within_window instructions now answer s :
  now - _shouldEngageTimeCalled s < SHOULD_ENGAGE_THROTTLING_MS →
  shouldEngage instructions now answer s
  = (Returned throttled,
     set_console
       (console s ++ ["shouldEngage ignored: throttling in effect (" +:+ pretty SHOULD_ENGAGE_THROTTLING_MS
                      +:+ " ms). Please wait before calling again."]) s).
Proof.
  intros H. unfold shouldEngage, bind at 1. cbn [gets].
  apply Z.ltb_lt in H. by rewrite H.
Qed.

Lemma shouldEngage_outside_window instructions now answer s :
  SHOULD_ENGAGE_THROTTLING_MS ≤ now - _shouldEngageTimeCalled s →
  _shouldEngageTimeCalled (shouldEngage instructions now answer s).2 = now.
Proof.
  intros H. unfold shouldEngage, bind at 1. cbn [gets].
  apply Z.ltb_ge in H. rewrite H.
  unfold bind at 1. cbn [modify].
  lazymatch goal with |- _ (?m ?s').2 = _ => assert (keeps _shouldEngageTimeCalled m) as Hk end.
  { repeat (keeps_step; try apply keeps_getContextString; try apply keeps_stringify_members;
            try apply keeps_res_json; try (by apply keeps_fetch)). }
  by rewrite Hk.
Qed.

(** Only [shouldEngage] writes the time of the last admitted call: every
    other method, and what its helpers do to the state, leaves it as it
    is. *)

Lemma keeps_timer_set_property v key x : keeps_timer (set_property v key x).
Proof. intros s. unfold set_property. repeat case_match; done. Qed.

Ltac keeps_timer_step :=
  first
    [ keeps_step
    | apply keeps_timer_set_property
    | apply keeps_fetch; done
    | apply keeps_res_json
    | apply keeps_member
    | apply keeps_alloc; done
    | apply keeps_import; done
    | apply keeps_remaining_of; done
    | apply keeps_fetchUsageRemaining; done
    | apply keeps_getContextString
    | apply keeps_stringify_members
    | apply keeps_onMessageHistoryChangeExecute; done
    | by intros ? ].

Ltac keeps_timer_prims :=
  unfold keeps_timer, push, splice1, set_index, store, console_warn, yield, decrement, assign,
    unbound_identifier, isInitialized, usageRemaining, messageHistory, context.

Ltac keeps_timer_all := keeps_timer_prims; repeat keeps_timer_step.

Lemma keeps_timer_validate_messages es : ∀ index, keeps_timer (validate_messages index es).
Proof. induction es as [|m es IH]; intros index; cbn [validate_messages]; keeps_timer_all; apply IH. Qed.

Lemma keeps_timer_copy_messages es : keeps_timer (copy_messages es).
Proof. induction es as [|m es IH]; cbn [copy_messages]; keeps_timer_all; apply IH. Qed.

Lemma keeps_timer_validate_entries es : ∀ index now, keeps_timer (validate_entries index es now).
Proof.
  induction es as [|m es IH]; intros index now; cbn [validate_entries]; keeps_timer_all; apply IH.
Qed.

Lemma keeps_timer_copy_entries es now : keeps_timer (copy_entries es now).
Proof. induction es as [|m es IH]; cbn [copy_entries]; keeps_timer_all; apply IH. Qed.


Section KeepsTimer.

Variable StringToNumber : string → number.
Variable JSON_parse : string → option json.
Variable JSON_stringify : json → string.

Lemma keeps_timer_onContextChangeExecute : keeps_timer (onContextChangeExecute JSON_stringify).
Proof. unfold onContextChangeExecute, setStorageItem. keeps_timer_all. Qed.

Lemma keeps_timer_onInitializedExecute : keeps_timer onInitializedExecute.
Proof. unfold onInitializedExecute. keeps_timer_all. Qed.

Lemma keeps_timer_setting_rate_limits header read write :
  keeps_timer (setting_rate_limits StringToNumber header read write).
Proof. unfold setting_rate_limits. keeps_timer_all. Qed.

Lemma keeps_timer_setting_rate_limits_sort header :
  keeps_timer (setting_rate_limits_sort StringToNumber header).
Proof. unfold setting_rate_limits_sort. keeps_timer_all. Qed.

Lemma keeps_timer_addMessage content role : keeps_timer (addMessage content role).
Proof. unfold addMessage. keeps_timer_all. Qed.

Lemma keeps_timer_modifyMessage index content role :
  keeps_timer (modifyMessage index content role).
Proof. unfold modifyMessage. keeps_timer_all. Qed.

Lemma keeps_timer_on_line save index line full :
  keeps_timer (on_line JSON_parse save index line full).
Proof.
  unfold on_line. keeps_timer_all; apply keeps_timer_modifyMessage.
Qed.

Lemma keeps_timer_for_lines save index lines : ∀ full,
  keeps_timer (for_lines JSON_parse save index lines full).
Proof.
  induction lines as [|line lines IH]; intros full; cbn [for_lines]; keeps_timer_all;
    first [apply keeps_timer_on_line | apply IH].
Qed.

Lemma keeps_timer_while_reads save index reads : ∀ buffer full,
  keeps_timer (while_reads JSON_parse save index reads buffer full).
Proof.
  induction reads as [|value reads IH]; intros buffer full; cbn [while_reads]; keeps_timer_all;
    first [apply keeps_timer_for_lines | apply IH].
Qed.

Lemma keeps_timer_message content useContext saveToMessageHistory now answer :
  keeps_timer (message StringToNumber content useContext saveToMessageHistory now answer).
Proof.
  unfold message. keeps_timer_all;
    first [apply keeps_timer_addMessage | apply keeps_timer_setting_rate_limits].
Qed.

Lemma keeps_timer_perform u :
  (∀ instructions now answer, u ≠ Use_shouldEngage instructions now answer) →
  keeps_timer (perform StringToNumber JSON_parse JSON_stringify u).
Proof.
  intros Hother. destruct u; cbn [perform].
  - unfold initializeAgent. keeps_timer_all. apply keeps_timer_onInitializedExecute.
  - keeps_timer_all.
  - keeps_timer_all.
  - keeps_timer_all.
  - keeps_timer_all.
  - unfold onInitialized. keeps_timer_all.
  - unfold onInitialized_unsubscribe. keeps_timer_all.
  - unfold onMessageHistoryChange. keeps_timer_all.
  - unfold onMessageHistoryChange_unsubscribe. keeps_timer_all.
  - unfold onContextChange. keeps_timer_all.
  - unfold onContextChange_unsubscribe. keeps_timer_all.
  - keeps_timer_all. apply keeps_timer_addMessage.
  - unfold removeMessage. keeps_timer_all.
  - apply keeps_timer_modifyMessage.
  - unfold setMessageHistory. keeps_timer_all;
      first [apply keeps_timer_validate_messages | apply keeps_timer_copy_messages].
  - unfold clearMessageHistory. keeps_timer_all.
  - unfold addContextEntry. keeps_timer_all; apply keeps_timer_onContextChangeExecute.
  - unfold removeContextEntry. keeps_timer_all; apply keeps_timer_onContextChangeExecute.
  - unfold modifyContextEntry. keeps_timer_all; apply keeps_timer_onContextChangeExecute.
  - unfold setContext. keeps_timer_all;
      first [apply keeps_timer_validate_entries | apply keeps_timer_copy_entries
            | apply keeps_timer_onContextChangeExecute].
  - unfold clearContext. keeps_timer_all; apply keeps_timer_onContextChangeExecute.
  - keeps_timer_all.
  - keeps_timer_all.
  - keeps_timer_all. apply keeps_timer_message.
  - unfold messageStream. keeps_timer_all;
      first [apply keeps_timer_addMessage | apply keeps_timer_modifyMessage
            | apply keeps_timer_setting_rate_limits | apply keeps_timer_while_reads].
  - unfold greet. keeps_timer_all;
      first [apply keeps_timer_message | apply keeps_timer_addMessage].
  - destruct (Hother _ _ _ eq_refl).
  - unfold rewrite. keeps_timer_all; apply keeps_timer_setting_rate_limits.
  - unfold sort. keeps_timer_all; apply keeps_timer_setting_rate_limits_sort.
  - unfold caller_push. keeps_timer_all.
  - unfold caller_write. keeps_timer_all.
Qed.


(** A moment inside the window stays inside it whatever is done with the
    agent: a call of [shouldEngage] either is throttled and leaves the
    recorded time, or is admitted, and then it is later than the moment
    in question. *)
Lemma shouldEngage_keeps_window instructions now answer t s :
  t - _shouldEngageTimeCalled s < SHOULD_ENGAGE_THROTTLING_MS →
  t - _shouldEngageTimeCalled (shouldEngage instructions now answer s).2
  < SHOULD_ENGAGE_THROTTLING_MS.
Proof.
  intros Hinside.
  destruct (decide (now - _shouldEngageTimeCalled s < SHOULD_ENGAGE_THROTTLING_MS))
    as [Hthrottled|Hadmitted].
  - by rewrite shouldEngage_within_window.
  - rewrite shouldEngage_outside_window by lia.
    unfold SHOULD_ENGAGE_THROTTLING_MS in *. lia.
Qed.

Lemma perform_keeps_window u t s :
  t - _shouldEngageTimeCalled s < SHOULD_ENGAGE_THROTTLING_MS →
  t - _shouldEngageTimeCalled
        (try_catch (perform StringToNumber JSON_parse JSON_stringify u) (λ error, ret tt) s).2
  < SHOULD_ENGAGE_THROTTLING_MS.
Proof.
  intros Hinside.
  assert (Hcaught : ∀ m : M unit, (try_catch m (λ error, ret tt) s).2 = (m s).2).
  { intros m. unfold try_catch. by destruct (m s) as [[[]|e] s']. }
  rewrite Hcaught.
  assert (Hcases : (∃ instructions now answer, u = Use_shouldEngage instructions now answer)
                   ∨ ∀ instructions now answer, u ≠ Use_shouldEngage instructions now answer).
  { destruct u; try (by right); left; by eexists _, _, _. }
  destruct Hcases as [(instructions & now & answer & ->)|Hother].
  - cbn [perform]. unfold bind.
    pose proof (shouldEngage_keeps_window instructions now answer t s Hinside) as Hkept.
    by destruct (shouldEngage instructions now answer s) as [[r|e] s'].
  - by rewrite (keeps_timer_perform u Hother s).
Qed.

Lemma perform_all_keeps_window us t : ∀ s,
  t - _shouldEngageTimeCalled s < SHOULD_ENGAGE_THROTTLING_MS →
  t - _shouldEngageTimeCalled (perform_all StringToNumber JSON_parse JSON_stringify us s).2
  < SHOULD_ENGAGE_THROTTLING_MS.
Proof.
  induction us as [|u us IH]; intros s Hinside; [done|].
  cbn [perform_all]. unfold bind at 1.
  pose proof (perform_keeps_window u t s Hinside) as Hkept.
  destruct (try_catch _ _ s) as [[[]|e] s1]; cbn [snd] in *; [by apply IH|done].
Qed.

(** C7, amended: a call that is not throttled itself records its attempt
    time, whatever the request then does. After it, and after whatever
    the owner does with the agent in between ([between]: calls of any
    methods, other calls of [shouldEngage] included), a call less than
    15 s after the first returns the notice of the throttle; it sends no
    request and does not touch the recorded time: all it changes is the
    console, where it writes its warning. *)
Theorem shouldEngage_throttles_after_admitted_call
    s instructions1 t1 answer1 between instructions2 t2 answer2 :
  SHOULD_ENGAGE_THROTTLING_MS ≤ t1 - _shouldEngageTimeCalled s →
  t2 - t1 < SHOULD_ENGAGE_THROTTLING_MS →
  let first := shouldEngage instructions1 t1 answer1 s in
  let before := (perform_all StringToNumber JSON_parse JSON_stringify between first.2).2 in
  let second := shouldEngage instructions2 t2 answer2 before in
  _shouldEngageTimeCalled first.2 = t1
  ∧ second
    = (Returned throttled,
       set_console
         (console before
          ++ ["shouldEngage ignored: throttling in effect (" +:+ pretty SHOULD_ENGAGE_THROTTLING_MS
              +:+ " ms). Please wait before calling again."]) before)
  ∧ fetched second.2 = fetched before
  ∧ _shouldEngageTimeCalled second.2 = _shouldEngageTimeCalled before.
Proof.
  intros Hadmitted Hwithin first before second.
  assert (Htime : _shouldEngageTimeCalled first.2 = t1)
    by (by apply shouldEngage_outside_window).
  assert (Hinside : t2 - _shouldEngageTimeCalled before < SHOULD_ENGAGE_THROTTLING_MS).
  { apply perform_all_keeps_window. by rewrite Htime. }
  split; [done|]. unfold second. by rewrite shouldEngage_within_window.
Qed.

End KeepsTimer.

(** ** Sorting *)

Section Sort.

Variable StringToNumber : string → number.

Lemma setting_rate_limits_sort_returns header s :
  ∃ s', setting_rate_limits_sort StringToNumber header s
        = (Returned (Number StringToNumber header), s').
Proof.
  unfold setting_rate_limits_sort, bind at 1. cbn [gets].
  destruct (negb _); by eexists.
Qed.

(** C8: an array of two or more elements, a 200 response whose body has
    integer indexes, as many as the array has elements, and a reasoning.
    [sort] returns, and element [i] of the array it returns is the element
    of the input at position [indexes[i]]; where [indexes[i]] is no
    position of the input, it is [undefined]. *)
Theorem sort_gathers_by_indexes
    s l items instructions useContext withContext now r members idxs why order :
  elements_of (heap s) l = Some items →
  (2 ≤ length items)%nat →
  instructions = VUndefined ∨ typeof instructions = TString →
  default_param useContext (VBool true) = VBool withContext →
  (withContext = true → context_readable s) →
  serialise (heap s) (VRef l) ≠ Cyclic →
  status r = 200 →
  body r = Some (JObj members) →
  assoc "indexes" members = Some (JArr idxs) →
  assoc "reasoning" members = Some (JStr why) →
  integer_indexes idxs = Some order →
  length order = length items →
  ∃ result output s',
    sort StringToNumber (VRef l) instructions useContext now (Resolved r) s = (Returned result, s')
    ∧ array result = Some output
    ∧ indexes result = order
    ∧ length output = length items
    ∧ ∀ i index,
        order !! i = Some index →
        (0 ≤ index < Z.of_nat (length items) → output !! i = items !! Z.to_nat index)
        ∧ (¬ 0 ≤ index < Z.of_nat (length items) → output !! i = Some VUndefined).
Proof.
  intros Hitems Hlen Hinstr Hdefault Hctx Hser Hstatus Hbody Hidx Hwhy Hint Hsame.
  unfold sort. rewrite Hdefault.
  unfold bind at 1. cbn [gets]. rewrite Hitems.
  replace (Z.of_nat (length items) <? 2) with false by (symmetry; apply Z.ltb_ge; lia).
  replace (negb (bool_decide (instructions = VUndefined))
           && negb (bool_decide (typeof instructions = TString))) with false.
  2:{ destruct Hinstr as [->| ->]; [done|].
      rewrite (bool_decide_eq_true_2 _ eq_refl). by rewrite andb_false_r. }
  assert (∃ text, (if withContext then getContextString now else ret "") s = (Returned text, s))
    as [text Htext].
  { destruct withContext; [by apply getContextString_returns, Hctx|by eexists]. }
  unfold try_catch, bind at 1. cbn [gets].
  unfold bind at 1. rewrite Htext.
  assert (is_Some (serial_members (map (λ kv, (kv.1, serialise (heap s) kv.2))
             [("array", VRef l); ("instructions", instructions);
              ("context", guarded withContext (VStr text))]))) as [ms Hms].
  { cbn [map fst snd]. repeat apply serial_members_cons; [done|..|done].
    - apply serialise_primitive. by destruct Hinstr as [->|?]; [|destruct instructions].
    - apply serialise_primitive. by destruct withContext. }
  unfold bind at 1. rewrite (stringify_members_returns _ _ _ Hms).
  unfold bind at 1. cbn [fetch bind modify ret]. unfold bind at 1.
  match goal with |- context [setting_rate_limits_sort _ ?h ?s0] =>
    destruct (setting_rate_limits_sort_returns h s0) as (s' & ->) end.
  rewrite Hstatus. cbn [Z.eqb Pos.eqb negb].
  unfold bind, res_json. rewrite Hbody. cbn [ret]. rewrite Hidx, Hwhy, Hint.
  rewrite (bool_decide_eq_true_2 _ Hsame). cbn [negb].
  eexists _, _, _. split; [reflexivity|]. cbn [array indexes].
  split; [done|]. split; [done|]. split.
  - unfold gather. by rewrite length_map.
  - intros i index Hi. rewrite (gather_lookup _ _ _ _ Hi). split.
    + apply at_index_inside.
    + intros Hout. by rewrite at_index_outside.
Qed.

End Sort.

(** ** The whole of [messageStream] *)

Lemma set_called_called s : set_called (called s) s = s.
Proof. by destruct s. Qed.

Lemma forEach_calls (ids : list nat) : ∀ s,
  forEach ids (λ callback,
     try_catch (let* history := messageHistory in call callback history)
               (λ err, warn "onMessageHistoryChange callback error:")) s
  = (Returned tt,
     set_called (called s ++ map (λ id, {| callee := id; argument := VRef (_messageHistory s) |}) ids) s).
Proof.
  induction ids as [|id ids IH]; intros s.
  - cbn. by rewrite app_nil_r, set_called_called.
  - cbn [forEach]. unfold bind at 1.
    change (try_catch _ _ s) with
      (Returned tt, set_called (called s ++ [{| callee := id; argument := VRef (_messageHistory s) |}]) s).
    cbv beta iota. rewrite IH. cbn [called set_called _messageHistory map].
    rewrite <- app_assoc. by destruct s.
Qed.

(** The callbacks of the history are called with the array of the history;
    nothing else happens. *)
Lemma onMessageHistoryChangeExecute_calls s :
  onMessageHistoryChangeExecute s
  = (Returned tt,
     set_called (called s ++ map (λ id, {| callee := id; argument := VRef (_messageHistory s) |})
                                 (_onMessageHistoryChangeCallbacks s)) s).
Proof. unfold onMessageHistoryChangeExecute, bind at 1. cbn [gets]. apply forEach_calls. Qed.

(** [addMessage] with a content and a role it accepts: a new object at the
    next unused location, appended to the array of the history. *)
Lemma addMessage_appends s es text role :
  history_elements s = Some es →
  strlen text ≤ MAX_MESSAGE_LENGTH →
  is_role role = true →
  ∃ calls,
    addMessage (VStr text) role s
    = (Returned (Z.of_nat (length es)),
       set_called calls
         (set_heap (<[_messageHistory s := CArr (es ++ [VRef (fresh (dom (heap s)))])]>
                      (<[fresh (dom (heap s)) := new_message (trim text) role]> (heap s))) s)).
Proof.
  intros Hes Hlen Hrole. unfold addMessage.
  replace (if bool_decide (role = VUndefined) then VStr "user" else role) with role
    by (by destruct role).
  replace (MAX_MESSAGE_LENGTH <? strlen text) with false by (symmetry; apply Z.ltb_ge; lia).
  rewrite Hrole. cbn [negb]. unfold bind at 1. cbn [alloc].
  unfold bind at 1. cbn [gets _messageHistory set_heap].
  unfold bind at 1, push, bind at 1, elements. cbn [heap set_heap].
  assert (Hfresh : heap s !! fresh (dom (heap s)) = None) by apply fresh_unused.
  unfold history_elements in Hes.
  assert (Hne : fresh (dom (heap s)) ≠ _messageHistory s).
  { intros Heq. unfold elements_of in Hes. by rewrite <- Heq, Hfresh in Hes. }
  unfold elements_of at 1. rewrite lookup_insert_ne by done.
  unfold elements_of in Hes. destruct (heap s !! _messageHistory s) as [[|es']|] eqn:Hh; try done.
  injection Hes as ->. unfold bind at 1. cbn [store modify set_heap heap ret].
  unfold bind at 1. rewrite onMessageHistoryChangeExecute_calls.
  eexists. cbn [ret].
  match goal with |- context [Z.of_nat ?n + 1 - 1] =>
    replace (Z.of_nat n + 1 - 1) with (Z.of_nat n) by lia end.
  reflexivity.
Qed.






Lemma fresh_ne (h : gmap loc cell) l : is_Some (h !! l) → fresh (dom h) ≠ l.
Proof. intros [c Hc] E. pose proof (fresh_unused h) as Hf. congruence. Qed.

Lemma elements_of_insert_fresh h l c es :
  elements_of h l = Some es → elements_of (<[fresh (dom h) := c]> h) l = Some es.
Proof.
  unfold elements_of. intros H. rewrite lookup_insert_ne; [done|].
  apply fresh_ne. by destruct (h !! l); [eexists|].
Qed.

Lemma plain_insert h l c v :
  (∀ fields, h !! l ≠ Some (CObj fields)) → plain h v → plain (<[l := c]> h) v.
Proof.
  intros Hl (o & fields & -> & Ho & Hprim). exists o, fields.
  split; [done|]. split; [|done].
  rewrite lookup_insert_ne; [done|]. intros ->. by apply (Hl fields).
Qed.

Lemma plain_insert_fresh h c v : plain h v → plain (<[fresh (dom h) := c]> h) v.
Proof. apply plain_insert. intros fields. by rewrite fresh_unused. Qed.



(** [addMessage] with a content and a role it accepts: the new message
    is the last one of the history, and the stores stay well formed. *)
Lemma addMessage_well_formed s hs text role :
  well_formed s →
  history_elements s = Some hs →
  strlen text ≤ MAX_MESSAGE_LENGTH →
  is_role role = true →
  ∃ s' o,
    addMessage (VStr text) role s = (Returned (Z.of_nat (length hs)), s')
    ∧ well_formed s'
    ∧ history_elements s' = Some (hs ++ [VRef o])
    ∧ heap s' !! o = Some (new_message (trim text) role)
    ∧ yielded s' = yielded s.
Proof.
  intros (Hne & hs' & cs & Hhs' & Hcs & Hph & Hpc) Hhs Hlen Hrole.
  assert (hs' = hs) as -> by congruence.
  destruct (addMessage_appends s hs text role Hhs Hlen Hrole) as (calls & Hadd).
  set (o := fresh (dom (heap s))) in *.
  set (h0 := <[o := new_message (trim text) role]> (heap s)) in *.
  assert (Hhist : h0 !! _messageHistory s = Some (CArr hs)).
  { unfold history_elements, elements_of in Hhs. unfold h0.
    destruct (heap s !! _messageHistory s) as [[|es]|] eqn:E; try done.
    rewrite lookup_insert_ne; [congruence|]. by apply fresh_ne. }
  assert (Hkeep : ∀ v, plain (heap s) v →
            plain (<[_messageHistory s := CArr (hs ++ [VRef o])]> h0) v).
  { intros v Hv. apply plain_insert; [intros fields; by rewrite Hhist|].
    by apply plain_insert_fresh. }
  assert (Hoh : o ≠ _messageHistory s).
  { apply fresh_ne. unfold history_elements, elements_of in Hhs.
    by destruct (heap s !! _messageHistory s); [eexists|]. }
  eexists _, o. split; [exact Hadd|].
  unfold well_formed, history_elements, context_elements, elements_of.
  cbn [heap set_called set_heap _messageHistory _context yielded].
  rewrite !lookup_insert_eq.
  split; [|split; [done|split; [|done]]].
  - split; [done|]. exists (hs ++ [VRef o]), cs. split; [done|].
    rewrite lookup_insert_ne by done.
    split.
    { exact (elements_of_insert_fresh (heap s) _ _ _ Hcs). }
    split; [|by eapply Forall_impl; [exact Hpc|]].
    apply Forall_app. split; [by eapply Forall_impl; [exact Hph|]|].
    repeat constructor. exists o, (<["content" := VStr (trim text)]> (<["role" := role]> ∅)).
    split; [done|]. split.
    + rewrite lookup_insert_ne by done. unfold h0. by rewrite lookup_insert_eq.
    + intros k v Hk l ->.
      apply lookup_insert_Some in Hk as [[_ Hk]|[_ Hk]]; [done|].
      apply lookup_insert_Some in Hk as [[_ Hk]|[_ Hk]]; [|done].
      by rewrite Hk in Hrole.
  - rewrite lookup_insert_ne by done. unfold h0. by rewrite lookup_insert_eq.
Qed.

Section MessageStream.

Variable StringToNumber : string → number.
Variable JSON_parse : string → option json.

Lemma setting_rate_limits_returns header read write s :
  ∃ u, setting_rate_limits StringToNumber header read write s
       = (Returned (Number StringToNumber header), set_usageRemaining u s).
Proof.
  unfold setting_rate_limits.
  destruct (negb _ && _); by eexists.
Qed.



End MessageStream.

(** ** The stores behind the getters *)

(** C1, on the code: [agent.addMessage('hi', 'user')], then
    [hist = agent.messageHistory; hist.push(1); hist[0].content = 'bad'].
    The array the getter returns is the array the agent keeps: the next
    [agent.messageHistory] has two elements and its first message reads
    ['bad'], where the tests of the repository expect one element that
    reads ['hi']. *)
Theorem messageHistory_getter_hands_out_the_store :
  (addMessage (VStr "hi") (VStr "user") >>
   let* hist := messageHistory in
   let* before := caller_length hist in
   caller_push hist (VNum 1) >>
   caller_write hist 0 "content" (VStr "bad") >>
   let* again := messageHistory in
   let* after := caller_length again in
   let* content := caller_read again 0 "content" in
   ret (before, after, content)) ready
  = (Returned (1, 2, VStr "bad"),
     set_heap (<[3%positive := new_message "bad" (VStr "user")]>
                 (<[_messageHistory ready := CArr [VRef 3%positive; VNum 1]]> (heap ready)))
       ready).
Proof. vm_compute. reflexivity. Qed.

(** For every state and every value: what a caller pushes on the array it
    got from the getter is in the array the next call of the getter
    returns. *)
Lemma push_through_getter_reaches_store s es v :
  history_elements s = Some es →
  ((let* hist := messageHistory in
    caller_push hist v >>
    let* again := messageHistory in
    match again with
    | VRef l => elements l
    | _ => ret []
    end) s).1 = Returned (es ++ [v]).
Proof.
  intros Hes. unfold history_elements in Hes.
  unfold bind, messageHistory, caller_push, push, bind, elements, store, modify, gets, ret.
  rewrite Hes. cbn. unfold elements_of. by rewrite lookup_insert_eq.
Qed.

(** The same for [agent.context]: an entry pushed by the caller is in the
    context the agent renders and sends. *)
Lemma context_getter_hands_out_the_store :
  (addContextEntry print_json (VStr "ctx") (VNum 5) 10 >>
   let* ctx := context in
   caller_write ctx 0 "content" (VStr "bad") >>
   getContextString 10) ready
  = (Returned "bad now. ",
     set_heap (<[3%positive := new_entry "bad" (VNum 5)]>
                 (<[_context ready := CArr [VRef 3%positive]]> (heap ready)))
       ready).
Proof. vm_compute. reflexivity. Qed.

(** ** Initialization *)

(** C2, on the code: with one callback registered, each of the five
    failures makes [#initializeAgent] throw, and the callback is never
    called: [#onInitializedExecute] is reached on the success path only. *)
Theorem initializeAgent_failure_calls_no_callback :
  Forall (λ verify,
            let after := (onInitialized 7 >>
                          initializeAgent "KEY" verify
                            (answer 200 None (Some (limits_document 1 1 1)) [])) constructed in
            (∃ e, after.1 = Thrown e) ∧ called after.2 = [] ∧ _isInitialized after.2 = false)
         failing_handshakes.
Proof. repeat constructor; by eexists. Qed.

(** On success the callback is called once, with [true]. *)
Lemma initializeAgent_success_calls_callback :
  called ((onInitialized 7 >>
           initializeAgent "KEY"
             (answer 200 None (Some (JObj [("valid", JBool true)])) [])
             (answer 200 None (Some (limits_document 1 1 1)) [])) constructed).2
  = [{| callee := 7%nat; argument := VBool true |}].
Proof. vm_compute. reflexivity. Qed.

(** ** Usage counters *)

(** C3, on the code: [sort(['b', 'a'])] with 5 sorts remaining and a
    response without the header. [Number(null)] is [0], and [sort] tests
    [isNaN(rateLimitRemaining && header !== null)], which is [isNaN(0)]:
    the counter is overwritten with 0, where a decrement gives 4. *)
Theorem sort_without_header_overwrites_counter (StringToNumber : string → number) :
  _usageRemaining
    ((let* input := array_of_values [VStr "b"; VStr "a"] in
      sort StringToNumber input VUndefined VUndefined 0
        (answer 200 None
           (Some (JObj [("indexes", JArr [JNum 1; JNum 0]); ("reasoning", JStr "ok")])) []))
       ready).2
  = {| messages := VNum 10; sorts := VNum 0; rewrites := VNum 7 |}.
Proof. vm_compute. reflexivity. Qed.

(** [message] and [rewrite] on the same response decrement their counter
    by one. *)
Lemma message_without_header_decrements (StringToNumber : string → number) :
  _usageRemaining
    (message StringToNumber (VStr "Hello") (VBool false) (VBool false) 0
       (answer 200 None (Some (JObj [("message", JStr "Hello back")])) []) ready).2
  = {| messages := VNum 9; sorts := VNum 5; rewrites := VNum 7 |}.
Proof. vm_compute. reflexivity. Qed.

Lemma rewrite_without_header_decrements (StringToNumber : string → number) :
  _usageRemaining
    (rewrite StringToNumber (VStr "plz fix") VUndefined (VBool false) 0
       (answer 200 None (Some (JObj [("text", JStr "Fixed.")])) []) ready).2
  = {| messages := VNum 10; sorts := VNum 5; rewrites := VNum 6 |}.
Proof. vm_compute. reflexivity. Qed.

(** ** Greeting *)

(** C4, on the code: [greet(undefined, true, false)] answered with
    ['Hi!']. The reply is appended to the history although
    [saveToMessageHistory] is [false]: [greet] checks that the argument is
    a boolean and never reads it again. *)
Theorem greet_appends_reply_when_told_not_to (StringToNumber : string → number) :
  let after := greet StringToNumber VUndefined (VBool true) (VBool false) 0
                 (answer 200 None (Some (JObj [("message", JStr "Hi!")])) []) ready in
  after.1 = Returned "Hi!"
  ∧ history_elements ready = Some []
  ∧ history_elements after.2 = Some [VRef 3%positive]
  ∧ heap after.2 !! 3%positive = Some (new_message "Hi!" (VStr "assistant")).
Proof. vm_compute. repeat split; reflexivity. Qed.

(** ** Persistence *)

(** C5, on the code: [new Heylock('KEY', {agentId: 'A2'})] in a browser,
    then [addContextEntry('hello world', 0)]. The context is written under
    the key ['context']; nothing is stored under ['heylock:A2:context'],
    the key the README and the storage tests name. *)
Theorem context_is_stored_under_the_bare_key
    (JSON_parse : string → option json) (JSON_stringify : json → string) :
  let after := (constructor JSON_parse (VStr "KEY") (with_agentId "A2") 0 >>
                addContextEntry JSON_stringify (VStr "hello world") (VNum 0) 0)
                 (instance browser ∅ ∅) in
  localStorage after.2 !! "heylock:A2:context" = None
  ∧ localStorage after.2 !! "context"
    = Some (JSON_stringify (JArr [JObj [("content", JStr "hello world"); ("timestamp", JNum 0)]])).
Proof. vm_compute. split; reflexivity. Qed.

(** A context stored under the documented key is not restored: the
    constructor reads the key ['context']. *)
Lemma context_under_namespaced_key_is_not_restored
    (JSON_parse : string → option json) (text : string) :
  let after := new_Heylock JSON_parse (VStr "KEY") (with_agentId "A3") 0 browser ∅
                 {["heylock:A3:context" := text]} in
  after.1 = Returned tt ∧ context_elements after.2 = Some [].
Proof. vm_compute. split; reflexivity. Qed.

(** ** Replacing a store *)

(** C9, on the code: [setContext([{content: 'ok', timestamp: 1}, {content: ''}])].
    The second entry is invalid, and what the call throws is the
    [ReferenceError] of the first entry's warning, not the validation
    error of [setContext]; the context stays as it was. *)
Theorem setContext_throws_reference_error_for_invalid_input :
  let argument := array_of_two (new_entry "ok" (VNum 1)) (CObj {["content" := VStr ""]}) ready in
  match argument.1 with
  | Returned contextArray =>
      setContext print_json contextArray 100 argument.2
      = (Thrown (ReferenceError "timestamp is not defined"), argument.2)
  | Thrown _ => False
  end.
Proof. vm_compute. reflexivity. Qed.

(** ** Counterexamples *)


(** C7 as stated fails: calls at 100 s, 114 s and 116 s. The second call
    is throttled and leaves the timer at 100 s, so the third call, 2 s
    after the second, is 16 s after the recorded time: it sends a
    request and returns the answer of the service. *)
Lemma shouldEngage_measures_from_last_admitted_call :
  let first := shouldEngage VUndefined 100000 (answer 200 None (Some engagement_document) []) ready in
  let second := shouldEngage VUndefined 114000 (answer 200 None (Some engagement_document) []) first.2 in
  let third := shouldEngage VUndefined 116000 (answer 200 None (Some engagement_document) []) second.2 in
  second.1 = Returned throttled
  ∧ 116000 - 114000 < SHOULD_ENGAGE_THROTTLING_MS
  ∧ third.1 = Returned {| shouldEngage_ := true; reasoning := "go"; warning := None; fallback := false |}
  ∧ third.1 ≠ Returned throttled
  ∧ length (fetched third.2) = S (length (fetched second.2)).
Proof. vm_compute. repeat split; try reflexivity. discriminate. Qed.

(** C10 as stated fails: [setContext([{content: ''}, {content: 'a', timestamp: 5}])].
    The second entry is valid and has a timestamp, but the loop stops at
    the first entry with the validation error: no [ReferenceError] is
    thrown. *)
Lemma setContext_invalid_entry_comes_first :
  let argument := array_of_two (CObj {["content" := VStr ""]}) (new_entry "a" (VNum 5)) ready in
  match argument.1 with
  | Returned contextArray =>
      entry_invalid (heap argument.2) (VRef 4%positive) = false
      ∧ field (heap argument.2) (VRef 4%positive) "timestamp" = VNum 5
      ∧ caller_read contextArray 1 "timestamp" argument.2 = (Returned (VNum 5), argument.2)
      ∧ setContext print_json contextArray 100 argument.2
        = (Thrown (setContext_invalid 0), argument.2)
      ∧ setContext_invalid 0 ≠ ReferenceError "timestamp is not defined"
  | Thrown _ => False
  end.
Proof. vm_compute. repeat split; try reflexivity. discriminate. Qed.

(** ** The theorems at concrete inputs *)

(** The no-break space is white space for [trim]: a content that consists
    of it is blank for the validations, and it is removed at the end of
    what [addMessage] stores. *)
Lemma no_break_space_is_white_space :
  let nbsp := String (ascii_of_N 160) "" in
  is_blank nbsp = true
  ∧ trim ("a" +:+ nbsp) = "a"
  ∧ (addContextEntry print_json (VStr nbsp) VUndefined 0 ready).1
    = Thrown (Error "addContextEntry failed: content must be a non-empty string.")
  ∧ last_content (addMessage (VStr ("a" +:+ nbsp)) VUndefined ready).2 = VStr "a".
Proof. vm_compute. repeat split; reflexivity. Qed.

(** C7 at concrete inputs: on [ready], calls at 100 s, 105 s and 110 s
    with a message added in between. The first is admitted; the third,
    10 s after it, is throttled. *)
Lemma shouldEngage_throttles_second_call :
  let first := shouldEngage VUndefined 100000 (answer 200 None (Some engagement_document) []) ready in
  let before := (perform_all decimal_number parse_examples print_json
                   [Use_shouldEngage VUndefined 105000
                      (answer 200 None (Some engagement_document) []);
                    Use_addMessage (VStr "Hello") VUndefined] first.2).2 in
  let second := shouldEngage VUndefined 110000 (Rejected (TypeError "fetch failed")) before in
  _shouldEngageTimeCalled first.2 = 100000
  ∧ second.1 = Returned throttled
  ∧ fetched second.2 = fetched before
  ∧ _shouldEngageTimeCalled second.2 = 100000.
Proof.
  destruct (shouldEngage_throttles_after_admitted_call decimal_number parse_examples print_json
              ready VUndefined 100000 (answer 200 None (Some engagement_document) [])
              [Use_shouldEngage VUndefined 105000
                 (answer 200 None (Some engagement_document) []);
               Use_addMessage (VStr "Hello") VUndefined]
              VUndefined 110000 (Rejected (TypeError "fetch failed")))
    as (Hfirst & Hsecond & Hfetched & Htimer).
  - vm_compute. discriminate.
  - vm_compute. reflexivity.
  - split; [exact Hfirst|]. split; [by rewrite Hsecond|]. split; [exact Hfetched|].
    rewrite Htimer. vm_compute. reflexivity.
Defined.

(** Input [['a', 'b', 'c']] with the indexes [[2, 0, 1]]: the output is
    [['c', 'a', 'b']]. *)
Lemma sort_gathers_letters :
  ∃ result s',
    sort decimal_number (VRef 3%positive) (VStr "desc") VUndefined 0
      (Resolved {| status := 200; ratelimit_remaining := Some "4";
                   body := Some (JObj [("indexes", JArr [JNum 2; JNum 0; JNum 1]);
                                       ("reasoning", JStr "ok")]);
                   reads := [] |})
      with_letters
    = (Returned result, s')
    ∧ array result = Some [VStr "c"; VStr "a"; VStr "b"]
    ∧ indexes result = [2; 0; 1].
Proof.
  destruct (sort_gathers_by_indexes decimal_number with_letters 3%positive
              [VStr "a"; VStr "b"; VStr "c"] (VStr "desc") VUndefined true 0
              {| status := 200; ratelimit_remaining := Some "4";
                 body := Some (JObj [("indexes", JArr [JNum 2; JNum 0; JNum 1]);
                                     ("reasoning", JStr "ok")]);
                 reads := [] |}
              [("indexes", JArr [JNum 2; JNum 0; JNum 1]); ("reasoning", JStr "ok")]
              [JNum 2; JNum 0; JNum 1] "ok" [2; 0; 1])
    as (result & output & s' & Hrun & Harray & Hindexes & Hlength & Hgather).
  - vm_compute. reflexivity.
  - simpl. lia.
  - right. reflexivity.
  - reflexivity.
  - intros _. exists []. split; [vm_compute; reflexivity|constructor].
  - vm_compute. discriminate.
  - reflexivity.
  - reflexivity.
  - reflexivity.
  - reflexivity.
  - reflexivity.
  - reflexivity.
  - exists result, s'. split; [exact Hrun|]. split; [|exact Hindexes].
    rewrite Harray. f_equal.
    destruct (Hgather 0%nat 2 eq_refl) as [H0 _].
    destruct (Hgather 1%nat 0 eq_refl) as [H1 _].
    destruct (Hgather 2%nat 1 eq_refl) as [H2 _].
    specialize (H0 ltac:(cbn; lia)). specialize (H1 ltac:(cbn; lia)).
    specialize (H2 ltac:(cbn; lia)).
    destruct output as [|x [|y [|z [|]]]]; try discriminate Hlength.
    vm_compute in H0, H1, H2. congruence.
Defined.

(** [setContext([{content: 'ok', timestamp: 1}, {content: 'later'}])]: both
    entries are valid, the first has a timestamp, and the call throws the
    [ReferenceError]. *)
Lemma setContext_rejects_valid_timestamped_array :
  setContext print_json (VRef 5%positive) 100 with_entries
  = (Thrown (ReferenceError "timestamp is not defined"), with_entries).
Proof.
  destruct (setContext_rejects_timestamped_entry print_json with_entries 5%positive
              [VRef 3%positive; VRef 4%positive] 0 (VRef 3%positive) 100)
    as (j & x & Hfind & _ & Hrun).
  - vm_compute. reflexivity.
  - reflexivity.
  - split; [vm_compute; reflexivity|vm_compute; discriminate].
  - vm_compute in Hfind. injection Hfind as <- <-. exact Hrun.
Defined.


(** Records whose accumulated text [modifyMessage] refuses:
    [messageStream('Hello')] over a body with the records
    [{message: ' '}], [{message: 'a'}] and [{done: true}]. The blank
    fragment is added to the text but not emitted; the second is emitted,
    the placeholder holds ['a'] and the stream ends with [' a']. *)
Lemma messageStream_skips_refused_text :
  let after := messageStream decimal_number parse_examples
                 (VStr "Hello") VUndefined VUndefined 0
                 (answer 200 (Some "7") None
                    [terminated (print_json (record_fragment " "));
                     terminated (print_json (record_fragment "a"));
                     terminated (print_json record_done)])
                 ready in
  after.1 = Returned (Some " a")
  ∧ yielded after.2 = [JStr "a"]
  ∧ last_content after.2 = VStr "a"
  ∧ emitted "" [" "; "a"] = ["a"]
  ∧ last_accepted "" [" "; "a"] "" = " a".
Proof. vm_compute. repeat split; reflexivity. Qed.

(** * Further properties of the code *)

(** ** The message history *)

Lemma prefixb_append p r : prefixb p (p +:+ r) = true.
Proof.
  induction p as [|a p IH]; [done|]. rewrite append_cons. cbn [prefixb].
  by rewrite bool_decide_eq_true_2, IH.
Qed.

Lemma onMessageHistoryChangeExecute_notifies s :
  onMessageHistoryChangeExecute s = (Returned tt, history_notified s).
Proof. apply onMessageHistoryChangeExecute_calls. Qed.

Lemma history_array s es :
  history_elements s = Some es → heap s !! _messageHistory s = Some (CArr es).
Proof.
  unfold history_elements, elements_of.
  destruct (heap s !! _messageHistory s) as [[|es']|]; naive_solver.
Qed.

(** X1: [addMessage(content, role)] with a content of at most 10000
    characters and a role that is ['user'], ['assistant'] or left out
    (then ['user']): a new object [{content: content.trim(), role}] is
    appended to the history, its index is returned, and every subscriber
    of the history is called once with the array. Nothing else of the
    agent changes. *)
Theorem addMessage_appends_and_notifies s es text role :
  history_elements s = Some es →
  strlen text ≤ MAX_MESSAGE_LENGTH →
  role = VUndefined ∨ is_role role = true →
  ∃ o,
    heap s !! o = None
    ∧ addMessage (VStr text) role s
      = (Returned (Z.of_nat (length es)),
         history_notified
           (set_heap (<[_messageHistory s := CArr (es ++ [VRef o])]>
                        (<[o := new_message (trim text) (default_param role (VStr "user"))]>
                           (heap s))) s)).
Proof.
  intros Hes Hlen Hrole. exists (fresh (dom (heap s))). split; [apply fresh_unused|].
  unfold addMessage. fold (default_param role (VStr "user")).
  assert (is_role (default_param role (VStr "user")) = true) as ->.
  { destruct Hrole as [->|Hrole]; [done|]. by destruct role. }
  replace (MAX_MESSAGE_LENGTH <? strlen text) with false by (symmetry; apply Z.ltb_ge; lia).
  cbn [negb]. unfold bind at 1. cbn [alloc].
  unfold bind at 1. cbn [gets _messageHistory set_heap].
  unfold bind at 1, push, bind at 1, elements. cbn [heap set_heap].
  apply history_array in Hes.
  unfold elements_of at 1. rewrite lookup_insert_ne by (apply fresh_ne; by eexists).
  rewrite Hes. unfold bind at 1. cbn [store modify set_heap heap ret].
  unfold bind at 1. rewrite onMessageHistoryChangeExecute_notifies. cbn [ret].
  match goal with |- context [Z.of_nat ?n + 1 - 1] =>
    replace (Z.of_nat n + 1 - 1) with (Z.of_nat n) by lia end.
  reflexivity.
Qed.

(** X2: [addMessage] rejects a content that is no string or is longer
    than 10000 characters, and a role that is neither ['user'] nor
    ['assistant']: it throws an [Error] that names [addMessageToHistory]
    and leaves the agent as it was. A blank content is not rejected. *)
Theorem addMessage_rejects_without_effect content role s :
  (∀ text, content = VStr text →
           MAX_MESSAGE_LENGTH < strlen text
           ∨ is_role (default_param role (VStr "user")) = false) →
  ∃ reason,
    addMessage content role s = (Thrown (Error reason), s)
    ∧ prefixb "addMessageToHistory failed: " reason = true.
Proof.
  intros Hbad. unfold addMessage. fold (default_param role (VStr "user")).
  destruct content as [| |b|x|text|l]; try (by eexists).
  destruct (Hbad text eq_refl) as [Hlong|Hrole].
  - apply Z.ltb_lt in Hlong. rewrite Hlong. by eexists.
  - rewrite Hrole. destruct (_ <? _); by eexists.
Qed.

(** X3: [removeMessage(index)] for an integer [index]: within the
    history it removes exactly the message at [index], keeps the others in
    their order and calls the subscribers; below zero or past the end it
    throws an [Error] that names [removeMessage] and leaves the agent as
    it was. *)
Theorem removeMessage_removes_or_rejects s es n :
  history_elements s = Some es →
  if decide (0 ≤ n < Z.of_nat (length es)) then
    removeMessage (VNum n) s
    = (Returned tt,
       history_notified
         (set_heap (<[_messageHistory s := CArr (delete (Z.to_nat n) es)]> (heap s)) s))
  else
    ∃ reason,
      removeMessage (VNum n) s = (Thrown (Error reason), s)
      ∧ prefixb "removeMessage failed: index " reason = true.
Proof.
  intros Hes.
  destruct (decide (0 ≤ n < Z.of_nat (length es))) as [Hin|Hout];
    unfold removeMessage; cbn [typeof num_lt negb orb bool_decide];
    rewrite bool_decide_eq_true_2 by done; cbn [negb orb].
  - replace (n <? 0) with false by (symmetry; apply Z.ltb_ge; lia).
    unfold bind at 1. cbn [gets]. unfold bind at 1, elements.
    fold (history_elements s). rewrite Hes. cbn [num_gt].
    replace (Z.of_nat (length es) - 1 <? n) with false by (symmetry; apply Z.ltb_ge; lia).
    unfold bind at 1, splice1, bind at 1, elements. fold (history_elements s). rewrite Hes.
    cbn [store modify]. rewrite onMessageHistoryChangeExecute_notifies.
    cbn [relative_start]. replace (n <? 0) with false by (symmetry; apply Z.ltb_ge; lia).
    by rewrite Nat.min_l by lia.
  - destruct (decide (n < 0)) as [Hneg|Hpos].
    { replace (n <? 0) with true by (symmetry; apply Z.ltb_lt; lia).
      eexists. split; [reflexivity|vm_compute; reflexivity]. }
    replace (n <? 0) with false by (symmetry; apply Z.ltb_ge; lia).
    unfold bind at 1. cbn [gets]. unfold bind at 1, elements.
    fold (history_elements s). rewrite Hes. cbn [num_gt number_toString].
    replace (Z.of_nat (length es) - 1 <? n) with true by (symmetry; apply Z.ltb_lt; lia).
    eexists. split; [reflexivity|apply prefixb_append].
Qed.

(** X4: [removeMessage(NaN)] passes both tests of the index ([NaN < 0]
    and [NaN > length - 1] are false), and [splice(NaN, 1)] removes the
    first message. *)
Theorem removeMessage_NaN_removes_first s es :
  history_elements s = Some es →
  removeMessage VNaN s
  = (Returned tt,
     history_notified (set_heap (<[_messageHistory s := CArr (drop 1 es)]> (heap s)) s)).
Proof.
  intros Hes. unfold removeMessage. cbn [typeof num_lt negb orb].
  rewrite bool_decide_eq_true_2 by done. cbn [negb orb].
  unfold bind at 1. cbn [gets]. unfold bind at 1, elements.
  fold (history_elements s). rewrite Hes. cbn [num_gt].
  unfold bind at 1, splice1, bind at 1, elements. fold (history_elements s). rewrite Hes.
  cbn [store modify relative_start]. rewrite onMessageHistoryChangeExecute_notifies.
  by destruct es.
Qed.

(** What [modifyMessage] writes: the message object, in place. *)
Lemma modifyMessage_in_place s es i o fields text role :
  history_elements s = Some es →
  es !! i = Some (VRef o) →
  heap s !! o = Some (CObj fields) →
  storable text →
  truthy role = false ∨ is_role role = true →
  modifyMessage (VNum (Z.of_nat i)) (VStr text) role s
  = (Returned tt,
     history_notified
       (set_heap
          (<[o := CObj (<["role" := if truthy role then role
                                    else default VUndefined (fields !! "role")]>
                          (<["content" := VStr (trim text)]> fields))]> (heap s)) s)).
Proof.
  intros Hes Hix Ho [Hblank Hlen] Hrole.
  assert (Hne : o ≠ _messageHistory s).
  { intros ->. apply history_array in Hes. congruence. }
  assert (Hlt : (i < length es)%nat) by (by eapply lookup_lt_Some).
  unfold modifyMessage.
  change (negb (bool_decide (typeof (VNum (Z.of_nat i)) = TNumber))) with false.
  replace (num_lt (VNum (Z.of_nat i)) 0) with false by (symmetry; apply Z.ltb_ge; lia).
  cbn [orb]. unfold bind at 1. cbn [gets]. unfold bind at 1, elements at 1.
  unfold history_elements in Hes. rewrite Hes.
  replace (num_gt (VNum (Z.of_nat i)) (Z.of_nat (length es) - 1)) with false
    by (symmetry; apply Z.ltb_ge; lia).
  rewrite Hblank.
  replace (MAX_MESSAGE_LENGTH <? strlen text) with false by (symmetry; apply Z.ltb_ge; lia).
  replace (truthy role && negb (is_role role)) with false
    by (by destruct Hrole as [->| ->]; [|rewrite andb_false_r]).
  assert (Hat : at_index es (VNum (Z.of_nat i)) = VRef o).
  { unfold at_index. replace (Z.of_nat i <? 0) with false by (symmetry; apply Z.ltb_ge; lia).
    by rewrite Nat2Z.id, Hix. }
  rewrite Hat. cbv iota beta.
  unfold bind at 1, set_property at 1. rewrite Ho.
  unfold bind at 1, elements at 1. cbn [heap set_heap _messageHistory].
  unfold elements_of at 1. rewrite lookup_insert_ne by done.
  unfold elements_of in Hes. rewrite Hes. rewrite Hat.
  unfold bind at 1, get_property at 1. cbn [nullish].
  unfold bind at 1, set_property at 1. cbn [heap set_heap]. rewrite lookup_insert_eq.
  rewrite onMessageHistoryChangeExecute_notifies. cbn [field heap set_heap].
  rewrite lookup_insert_eq, insert_insert_eq.
  rewrite lookup_insert_ne by done. reflexivity.
Qed.

(** X5: [modifyMessage(index, content, role)] within the history, with a
    content that is not blank and at most 10000 characters: the message
    object at [index] is written in place (its content becomes
    [content.trim()], its role becomes [role], or stays when [role] is
    falsy), the array of the history is not touched, and the subscribers
    are called. Who holds the message object observes the change. *)
Theorem modifyMessage_updates_in_place s es i o fields text role :
  history_elements s = Some es →
  es !! i = Some (VRef o) →
  heap s !! o = Some (CObj fields) →
  storable text →
  truthy role = false ∨ is_role role = true →
  modifyMessage (VNum (Z.of_nat i)) (VStr text) role s
  = (Returned tt,
     history_notified
       (set_heap
          (<[o := CObj (<["role" := if truthy role then role
                                    else default VUndefined (fields !! "role")]>
                          (<["content" := VStr (trim text)]> fields))]> (heap s)) s)).
Proof. apply modifyMessage_in_place. Qed.

(** X6: [modifyMessage] is atomic: whenever it throws, whatever the
    arguments, the agent is as it was before the call. *)
Theorem modifyMessage_throws_without_effect index content role s :
  match modifyMessage index content role s with
  | (Thrown _, s') => s' = s
  | (Returned _, _) => True
  end.
Proof.
  unfold modifyMessage. destruct (negb _ || _); [done|].
  unfold bind at 1. cbn [gets]. unfold bind at 1, elements at 1.
  destruct (elements_of (heap s) (_messageHistory s)) as [es|] eqn:Hes; [|done].
  destruct (num_gt _ _); [done|].
  destruct content as [| |b|x|text|l0]; try done.
  destruct (is_blank text); [done|]. destruct (_ <? _); [done|].
  destruct (truthy role && _); [done|].
  unfold bind at 1, set_property at 1.
  destruct (at_index es index) as [| |b|x|t|l] eqn:Hat; try done.
  assert (Hfinal : ∀ s0, match onMessageHistoryChangeExecute s0 with
                         | (Thrown _, s') => s' = s
                         | (Returned _, _) => True
                         end).
  { intros s0. pose proof (onMessageHistoryChangeExecute_returns s0) as Hr.
    by destruct (onMessageHistoryChangeExecute s0) as [[[]|e] s']. }
  destruct (heap s !! l) as [[fields|elems]|] eqn:Hl.
  - assert (Hne : l ≠ _messageHistory s).
    { intros ->. unfold elements_of in Hes. by rewrite Hl in Hes. }
    unfold bind at 1, elements at 1. cbn [heap set_heap _messageHistory].
    unfold elements_of at 1. rewrite lookup_insert_ne by done.
    unfold elements_of in Hes. rewrite Hes, Hat.
    unfold bind at 1, get_property at 1. cbn [nullish].
    unfold bind at 1, set_property at 1. cbn [heap set_heap]. rewrite lookup_insert_eq.
    apply Hfinal.
  - unfold bind at 1, elements at 1. rewrite Hes, Hat.
    unfold bind at 1, get_property at 1. cbn [nullish].
    unfold bind at 1, set_property at 1. rewrite Hl. apply Hfinal.
  - unfold bind at 1, elements at 1. rewrite Hes, Hat.
    unfold bind at 1, get_property at 1. cbn [nullish].
    unfold bind at 1, set_property at 1. rewrite Hl. apply Hfinal.
Qed.

(** X7: [modifyMessage] refuses a content that is no string, is blank
    or is longer than 10000 characters, whatever the index and the role:
    it throws and writes nothing. [addMessage] stores a blank content;
    [modifyMessage] cannot write one. *)
Theorem modifyMessage_rejects_content index content role s :
  (∀ text, content = VStr text → is_blank text = true ∨ MAX_MESSAGE_LENGTH < strlen text) →
  ∃ e, modifyMessage index content role s = (Thrown e, s).
Proof.
  intros Hbad. unfold modifyMessage. destruct (negb _ || _); [by eexists|].
  unfold bind at 1. cbn [gets]. unfold bind at 1, elements at 1.
  destruct (elements_of (heap s) (_messageHistory s)) as [es|]; [|by eexists].
  destruct (num_gt _ _); [by eexists|].
  destruct content as [| |b|x|text|l0]; try (by eexists).
  destruct (Hbad text eq_refl) as [->|Hlong]; [by eexists|].
  apply Z.ltb_lt in Hlong. rewrite Hlong. destruct (is_blank text); by eexists.
Qed.

(** X8: [clearMessageHistory()] gives the agent a new, empty array and
    calls the subscribers with it. The array the getter handed out before
    is left behind with its messages: it is no longer the history. *)
Theorem clearMessageHistory_detaches_old_array s es :
  history_elements s = Some es →
  ∃ s',
    clearMessageHistory s = (Returned tt, history_notified s')
    ∧ history_elements s' = Some []
    ∧ _messageHistory s' ≠ _messageHistory s
    ∧ elements_of (heap s') (_messageHistory s) = Some es
    ∧ heap s ⊆ heap s'.
Proof.
  intros Hes. unfold clearMessageHistory.
  unfold bind at 1. cbn [alloc]. unfold bind at 1. cbn [modify].
  rewrite onMessageHistoryChangeExecute_notifies.
  eexists. split; [reflexivity|].
  unfold history_elements, elements_of. cbn [heap set_heap set_messageHistory _messageHistory].
  rewrite lookup_insert_eq. split; [done|].
  assert (Hne : fresh (dom (heap s)) ≠ _messageHistory s).
  { apply fresh_ne. apply history_array in Hes. by eexists. }
  split; [done|]. rewrite lookup_insert_ne by done.
  split; [by rewrite (history_array _ _ Hes)|].
  apply insert_subseteq, fresh_unused.
Qed.

(** ** The context *)

Lemma context_array s es :
  context_elements s = Some es → heap s !! _context s = Some (CArr es).
Proof.
  unfold context_elements, elements_of.
  destruct (heap s !! _context s) as [[|es']|]; naive_solver.
Qed.

Lemma try_catch_returns (m : M unit) h :
  (∀ e s, (h e s).1 = Returned tt) → ∀ s, (try_catch m h s).1 = Returned tt.
Proof.
  intros Hh s. unfold try_catch. destruct (m s) as [[[]|e] s']; [done|apply Hh].
Qed.

Lemma warn_returns text s : (warn text s).1 = Returned tt.
Proof. unfold warn. by destruct (suppressWarnings _). Qed.

Lemma plain_new_entry h o text stamp :
  primitive stamp → h !! o = Some (new_entry text stamp) → plain h (VRef o).
Proof.
  intros Hstamp Ho. eexists o, _. split; [done|]. split; [exact Ho|].
  intros k v Hk.
  apply lookup_insert_Some in Hk as [[_ <-]|[_ Hk]]; [done|].
  apply lookup_insert_Some in Hk as [[_ <-]|[_ Hk]]; done.
Qed.

Section Context.

Variable JSON_stringify : json → string.

Lemma keeps_setStorageItem {C} (f : state → C) key value :
  (∀ x s, f (set_console x s) = f s) →
  (∀ x s, f (set_localStorage x s) = f s) →
  keeps f (setStorageItem JSON_stringify key value).
Proof.
  intros Hc Hl. unfold setStorageItem.
  repeat first [keeps_step | by intros ?; apply Hl].
Qed.

Lemma keeps_onContextChangeExecute {C} (f : state → C) :
  (∀ x s, f (set_console x s) = f s) →
  (∀ x s, f (set_localStorage x s) = f s) →
  (∀ x s, f (set_called x s) = f s) →
  keeps f (onContextChangeExecute JSON_stringify).
Proof.
  intros Hc Hl Hd. unfold onContextChangeExecute, context.
  repeat keeps_step. by apply keeps_setStorageItem.
Qed.

Lemma onContextChangeExecute_returns s :
  (onContextChangeExecute JSON_stringify s).1 = Returned tt.
Proof.
  unfold onContextChangeExecute, bind at 1. cbn [gets].
  apply forEach_returns. intros callback s0. apply try_catch_returns.
  intros e s1. apply warn_returns.
Qed.

Lemma forEach_context_calls (callbacks : list callback) : ∀ s,
  called (forEach callbacks (λ callback,
            try_catch
              (let* ctx := context in
               match callback with
               | UserCallback id => call id ctx
               | StorageSubscriber =>
                   let* ctx := context in
                   setStorageItem JSON_stringify "context" ctx
               end)
              (λ err, warn "onContextChange callback error:")) s).2
  = called s ++ omap (λ callback, match callback with
                                  | UserCallback id =>
                                      Some {| callee := id; argument := VRef (_context s) |}
                                  | StorageSubscriber => None
                                  end) callbacks.
Proof.
  induction callbacks as [|callback callbacks IH]; intros s.
  - cbn. by rewrite app_nil_r.
  - cbn [forEach omap]. unfold bind at 1.
    match goal with |- context [try_catch ?m ?h s] => set (step := try_catch m h) end.
    assert (Hreturns : (step s).1 = Returned tt).
    { apply try_catch_returns. intros e s1. apply warn_returns. }
    assert (Hcontext : _context (step s).2 = _context s).
    { assert (keeps _context step) as Hk; [|apply Hk].
      unfold step, context. repeat keeps_step. by apply keeps_setStorageItem. }
    destruct callback as [id|].
    + destruct (step s) as [[[]|e] s'] eqn:Hstep; [|done].
      unfold step, try_catch, bind, context in Hstep. cbn in Hstep. injection Hstep as <-.
      rewrite IH. cbn [called set_called _context option_bind]. cbn. by rewrite <- app_assoc.
    + assert (Hcalled : called (step s).2 = called s).
      { assert (keeps called step) as Hk; [|apply Hk].
        unfold step, context. repeat keeps_step. by apply keeps_setStorageItem. }
      destruct (step s) as [[[]|e] s'] eqn:Hstep; [|done].
      cbn in Hcontext, Hcalled. rewrite IH, Hcontext, Hcalled. done.
Qed.

(** What [#onContextChangeExecute] does: it returns, it calls every
    function of the caller once with the array of the context, and beyond
    the calls, the local storage and the console it changes nothing. *)
Lemma onContextChangeExecute_notifies s :
  ∃ s',
    onContextChangeExecute JSON_stringify s = (Returned tt, s')
    ∧ beyond_notifications s' = beyond_notifications s
    ∧ called s' = called s ++ context_calls s.
Proof.
  pose proof (onContextChangeExecute_returns s) as Hr.
  pose proof (keeps_onContextChangeExecute beyond_notifications
                ltac:(done) ltac:(done) ltac:(done) s) as Hk.
  assert (called (onContextChangeExecute JSON_stringify s).2 = called s ++ context_calls s)
    as Hc.
  { unfold onContextChangeExecute, bind at 1. cbn [gets]. apply forEach_context_calls. }
  destruct (onContextChangeExecute JSON_stringify s) as [[[]|e] s']; [|done].
  by exists s'.
Qed.

Lemma addContextEntry_adds s es text given now :
  context_elements s = Some es →
  is_blank text = false →
  strlen text ≤ MAX_CONTEXT_ENTRY_LENGTH →
  (∀ t, given = Some t → 0 ≤ t) →
  ∃ o s',
    heap s !! o = None
    ∧ addContextEntry JSON_stringify (VStr text) (optional_number given) now s
      = (Returned (Z.of_nat (length es)), s')
    ∧ beyond_notifications s'
      = beyond_notifications
          (set_heap (<[_context s := CArr (es ++ [VRef o])]>
                       (<[o := new_entry (trim text) (VNum (default now given))]> (heap s))) s)
    ∧ called s' = called s ++ context_calls s.
Proof.
  intros Hes Hblank Hlen Hgiven. exists (fresh (dom (heap s))).
  unfold addContextEntry. rewrite Hblank.
  replace (MAX_CONTEXT_ENTRY_LENGTH <? strlen text) with false
    by (symmetry; apply Z.ltb_ge; lia).
  assert (timestamp_invalid (optional_number given) = false) as ->.
  { destruct given as [t|]; [|done]. specialize (Hgiven t eq_refl).
    unfold timestamp_invalid. cbn. by replace (t <? 0) with false by (symmetry; apply Z.ltb_ge; lia). }
  assert (coalesce (optional_number given) (VNum now) = VNum (default now given))
    as -> by (by destruct given).
  unfold bind at 1.
  match goal with |- context [when ?b ?m s] =>
    assert (∃ c, when b m s = (Returned tt, set_console c s)) as [c ->]
  end.
  { destruct (_ && _); cbn; [by eexists|]. exists (console s). by destruct s. }
  unfold bind at 1. cbn [alloc heap set_console].
  unfold bind at 1. cbn [gets _context set_heap set_console].
  unfold bind at 1, push, bind at 1, elements. cbn [heap set_heap set_console].
  apply context_array in Hes.
  unfold elements_of at 1. rewrite lookup_insert_ne by (apply fresh_ne; by eexists).
  rewrite Hes. unfold bind at 1. cbn [store modify set_heap heap ret].
  unfold bind at 1.
  match goal with |- context [onContextChangeExecute _ ?s0] =>
    destruct (onContextChangeExecute_notifies s0) as (s' & -> & Hbeyond & Hcalled)
  end.
  exists s'. cbn [ret]. split; [apply fresh_unused|]. split.
  { match goal with |- context [Z.of_nat ?n + 1 - 1] =>
      by replace (Z.of_nat n + 1 - 1) with (Z.of_nat n) by lia end. }
  split; [by rewrite Hbeyond|by rewrite Hcalled].
Qed.

(** X9: [addContextEntry(content, timestamp)] with a content that is
    not blank and at most 2000 characters, and a timestamp that is left
    out or a number that is not negative: a new object
    [{content: content.trim(), timestamp}] is appended to the context,
    with the reading of the clock for a timestamp left out; its index is
    returned and every subscriber is called. *)
Theorem addContextEntry_appends s es text given now :
  context_elements s = Some es →
  is_blank text = false →
  strlen text ≤ MAX_CONTEXT_ENTRY_LENGTH →
  (∀ t, given = Some t → 0 ≤ t) →
  ∃ o s',
    heap s !! o = None
    ∧ addContextEntry JSON_stringify (VStr text) (optional_number given) now s
      = (Returned (Z.of_nat (length es)), s')
    ∧ beyond_notifications s'
      = beyond_notifications
          (set_heap (<[_context s := CArr (es ++ [VRef o])]>
                       (<[o := new_entry (trim text) (VNum (default now given))]> (heap s))) s)
    ∧ called s' = called s ++ context_calls s.
Proof. apply addContextEntry_adds. Qed.

(** X10: [addContextEntry] rejects a content that is no string, is blank
    or is longer than 2000 characters, and a timestamp that is given but
    is not a finite number from zero on ([null], a string, [NaN], an
    infinity, a negative number): it throws and leaves the agent as it
    was. *)
Theorem addContextEntry_rejects_without_effect content timestamp now s :
  (∀ text, content = VStr text →
           is_blank text = true
           ∨ MAX_CONTEXT_ENTRY_LENGTH < strlen text
           ∨ (timestamp ≠ VUndefined ∧ ∀ t, timestamp = VNum t → t < 0)) →
  ∃ reason,
    addContextEntry JSON_stringify content timestamp now s = (Thrown (Error reason), s)
    ∧ prefixb "addContextEntry failed: " reason = true.
Proof.
  intros Hbad. unfold addContextEntry.
  destruct content as [| |b|x|text|l]; try (by eexists).
  destruct (is_blank text) eqn:Hblank; [by eexists|].
  destruct (MAX_CONTEXT_ENTRY_LENGTH <? strlen text) eqn:Hlong; [by eexists|].
  apply Z.ltb_ge in Hlong.
  destruct (Hbad text eq_refl) as [?|[?|[Hgiven Hnegative]]]; [congruence|lia|].
  assert (timestamp_invalid timestamp = true) as ->; [|by eexists].
  unfold timestamp_invalid.
  destruct timestamp as [| |b|[t| |neg]|t|l]; try done; [|by destruct neg].
  cbn. by replace (t <? 0) with true by (symmetry; apply Z.ltb_lt; auto).
Qed.

(** The warning about a timestamp in the future is written whatever
    [suppressWarnings] says. *)
Lemma addContextEntry_warns_in_the_future s es text t now :
  context_elements s = Some es →
  is_blank text = false →
  strlen text ≤ MAX_CONTEXT_ENTRY_LENGTH →
  0 ≤ t → now < t →
  suppressWarnings (cfg s) = true →
  ∃ s',
    addContextEntry JSON_stringify (VStr text) (VNum t) now s
    = (Returned (Z.of_nat (length es)), s')
    ∧ console s'
      = console s ++ ["addContextEntry warning: timestamp is in the future. This may lead to unexpected behavior."].
Proof.
  intros Hes Hblank Hlen Ht Hfuture Hquiet.
  unfold addContextEntry. rewrite Hblank.
  replace (MAX_CONTEXT_ENTRY_LENGTH <? strlen text) with false
    by (symmetry; apply Z.ltb_ge; lia).
  unfold timestamp_invalid, timestamp_given. cbn [typeof isFinite num_lt num_gt negb].
  rewrite !bool_decide_eq_false_2 by done. rewrite bool_decide_eq_true_2 by done.
  replace (t <? 0) with false by (symmetry; apply Z.ltb_ge; lia).
  replace (now <? t) with true by (symmetry; apply Z.ltb_lt; lia).
  cbn [negb andb orb when]. unfold bind at 1. cbn [console_warn modify].
  unfold bind at 1. cbn [alloc heap set_console].
  unfold bind at 1. cbn [gets _context set_heap set_console].
  unfold bind at 1, push, bind at 1, elements. cbn [heap set_heap set_console].
  apply context_array in Hes.
  unfold elements_of at 1. rewrite lookup_insert_ne by (apply fresh_ne; by eexists).
  rewrite Hes. unfold bind at 1. cbn [store modify set_heap heap ret].
  unfold bind at 1.
  match goal with |- context [onContextChangeExecute _ ?s0] =>
    pose proof (onContextChangeExecute_returns s0) as Hr;
    assert (keeps console_when_quiet (onContextChangeExecute JSON_stringify)) as Hk;
    [|specialize (Hk s0); destruct (onContextChangeExecute JSON_stringify s0) as [[[]|e] s']; [|done]]
  end.
  { assert (∀ text, keeps console_when_quiet (warn text)) as Hwarn.
    { intros text0 s0. unfold warn, console_when_quiet.
      by destruct (suppressWarnings (cfg s0)) eqn:E; cbn; rewrite ?E. }
    unfold onContextChangeExecute, context, setStorageItem.
    repeat first [apply Hwarn | keeps_step | by intros ?]. }
  exists s'. cbn [ret]. split.
  { match goal with |- context [Z.of_nat ?n + 1 - 1] =>
      by replace (Z.of_nat n + 1 - 1) with (Z.of_nat n) by lia end. }
  unfold console_when_quiet in Hk. cbn in Hk. rewrite Hquiet in Hk.
  assert (suppressWarnings (cfg s') = true) as Hquiet'.
  { destruct (suppressWarnings (cfg s')); [done|]. by destruct (console s). }
  by rewrite Hquiet' in Hk.
Qed.

(** X11: the warning of [addContextEntry] about a timestamp in the future
    goes to the console even when the agent was told to suppress its
    warnings; the entry is added all the same: the context ends with a
    new object that holds the trimmed content and the timestamp. *)
Theorem addContextEntry_future_warning_is_not_suppressed s es text t now :
  context_elements s = Some es →
  is_blank text = false →
  strlen text ≤ MAX_CONTEXT_ENTRY_LENGTH →
  0 ≤ t → now < t →
  suppressWarnings (cfg s) = true →
  ∃ o s',
    heap s !! o = None
    ∧ addContextEntry JSON_stringify (VStr text) (VNum t) now s
      = (Returned (Z.of_nat (length es)), s')
    ∧ context_elements s' = Some (es ++ [VRef o])
    ∧ heap s' !! o = Some (new_entry (trim text) (VNum t))
    ∧ console s'
      = console s ++ ["addContextEntry warning: timestamp is in the future. This may lead to unexpected behavior."].
Proof.
  intros Hes Hblank Hlen Ht Hfuture Hquiet.
  destruct (addContextEntry_adds s es text (Some t) now Hes Hblank Hlen)
    as (o & s1 & Ho & Hrun1 & Hbeyond & _).
  { by intros ? [= <-]. }
  destruct (addContextEntry_warns_in_the_future s es text t now
              Hes Hblank Hlen Ht Hfuture Hquiet) as (s' & Hrun & Hconsole).
  cbn [optional_number] in Hrun1. rewrite Hrun in Hrun1. injection Hrun1 as <-.
  assert (Hheap : heap s' = <[_context s := CArr (es ++ [VRef o])]>
                              (<[o := new_entry (trim text) (VNum t)]> (heap s)))
    by (by injection Hbeyond).
  assert (Hctx : _context s' = _context s) by (by injection Hbeyond).
  assert (Hoc : o ≠ _context s).
  { intros ->. apply context_array in Hes. congruence. }
  exists o, s'. split; [done|]. split; [done|]. split; [|split; [|done]].
  - unfold context_elements, elements_of. by rewrite Hctx, Hheap, lookup_insert_eq.
  - rewrite Hheap, lookup_insert_ne by done. by rewrite lookup_insert_eq.
Qed.

(** X12: [modifyContextEntry(index, content, timestamp)] within the
    context, with a content that is not blank and at most 2000 characters:
    the entry at [index] is replaced by a new object with the trimmed
    content and the given timestamp, or the timestamp of the old entry
    when none is given. The old object is not written (where
    [modifyMessage] writes in place). *)
Theorem modifyContextEntry_replaces_entry s es i old text given now :
  context_elements s = Some es →
  es !! i = Some old →
  nullish old = false →
  is_blank text = false →
  strlen text ≤ MAX_CONTEXT_ENTRY_LENGTH →
  (∀ t, given = Some t → 0 ≤ t) →
  ∃ o s',
    heap s !! o = None
    ∧ modifyContextEntry JSON_stringify (VNum (Z.of_nat i)) (VStr text) (optional_number given) now s
      = (Returned tt, s')
    ∧ beyond_notifications s'
      = beyond_notifications
          (set_heap (<[_context s := CArr (<[i := VRef o]> es)]>
                       (<[o := new_entry (trim text)
                                 (match given with
                                  | Some t => VNum t
                                  | None => field (heap s) old "timestamp"
                                  end)]> (heap s))) s).
Proof.
  intros Hes Hix Hold Hblank Hlen Hgiven. exists (fresh (dom (heap s))).
  assert (Hlt : (i < length es)%nat) by (by eapply lookup_lt_Some).
  unfold modifyContextEntry.
  change (negb (bool_decide (typeof (VNum (Z.of_nat i)) = TNumber))) with false.
  replace (num_lt (VNum (Z.of_nat i)) 0) with false by (symmetry; apply Z.ltb_ge; lia).
  cbn [orb]. unfold bind at 1. cbn [gets]. unfold bind at 1, elements at 1.
  fold (context_elements s). rewrite Hes.
  replace (num_gt (VNum (Z.of_nat i)) (Z.of_nat (length es) - 1)) with false
    by (symmetry; apply Z.ltb_ge; lia).
  rewrite Hblank.
  replace (MAX_CONTEXT_ENTRY_LENGTH <? strlen text) with false
    by (symmetry; apply Z.ltb_ge; lia).
  assert (timestamp_invalid (optional_number given) = false) as ->.
  { destruct given as [t|]; [|done]. specialize (Hgiven t eq_refl).
    unfold timestamp_invalid. cbn. by replace (t <? 0) with false by (symmetry; apply Z.ltb_ge; lia). }
  unfold bind at 1.
  match goal with |- context [when ?b ?m s] =>
    assert (∃ c, when b m s = (Returned tt, set_console c s)) as [c ->]
  end.
  { destruct (_ && _); cbn; [by eexists|]. exists (console s). by destruct s. }
  assert (Hat : at_index es (VNum (Z.of_nat i)) = old).
  { unfold at_index. replace (Z.of_nat i <? 0) with false by (symmetry; apply Z.ltb_ge; lia).
    by rewrite Nat2Z.id, Hix. }
  rewrite Hat. unfold bind at 1.
  match goal with |- context [(if nullish ?ts then ?a else ?b) (set_console c s)] =>
    assert ((if nullish ts then a else b) (set_console c s)
            = (Returned (match given with
                         | Some t => VNum t
                         | None => field (heap s) old "timestamp"
                         end), set_console c s)) as ->
  end.
  { destruct given; [done|]. cbn [optional_number nullish].
    unfold get_property. by rewrite Hold. }
  unfold bind at 1. cbn [alloc heap set_console].
  unfold bind at 1, set_index, bind at 1, elements. cbn [heap set_heap set_console _context].
  apply context_array in Hes.
  unfold elements_of at 1. rewrite lookup_insert_ne by (apply fresh_ne; by eexists).
  rewrite Hes. cbn [store modify set_heap heap].
  match goal with |- context [onContextChangeExecute _ ?s0] =>
    destruct (onContextChangeExecute_notifies s0) as (s' & -> & Hbeyond & Hcalled)
  end.
  exists s'. split; [apply fresh_unused|]. split; [done|].
  rewrite Hbeyond. by rewrite Nat2Z.id.
Qed.

(** X13: [removeContextEntry(index)] for an integer [index]: within the
    context it removes exactly the entry at [index] and calls the
    subscribers; below zero or past the end it throws an [Error] that
    names [removeContextEntry] and leaves the agent as it was. *)
Theorem removeContextEntry_removes_or_rejects s es n :
  context_elements s = Some es →
  if decide (0 ≤ n < Z.of_nat (length es)) then
    ∃ s',
      removeContextEntry JSON_stringify (VNum n) s = (Returned tt, s')
      ∧ beyond_notifications s'
        = beyond_notifications
            (set_heap (<[_context s := CArr (delete (Z.to_nat n) es)]> (heap s)) s)
      ∧ called s' = called s ++ context_calls s
  else
    ∃ reason,
      removeContextEntry JSON_stringify (VNum n) s = (Thrown (Error reason), s)
      ∧ prefixb "removeContextEntry failed: index " reason = true.
Proof.
  intros Hes.
  destruct (decide (0 ≤ n < Z.of_nat (length es))) as [Hin|Hout];
    unfold removeContextEntry; cbn [typeof num_lt negb orb];
    rewrite bool_decide_eq_true_2 by done; cbn [negb orb].
  - replace (n <? 0) with false by (symmetry; apply Z.ltb_ge; lia).
    unfold bind at 1. cbn [gets]. unfold bind at 1, elements.
    fold (context_elements s). rewrite Hes. cbn [num_gt].
    replace (Z.of_nat (length es) - 1 <? n) with false by (symmetry; apply Z.ltb_ge; lia).
    unfold bind at 1, splice1, bind at 1, elements. fold (context_elements s). rewrite Hes.
    cbn [store modify].
    match goal with |- context [onContextChangeExecute _ ?s0] =>
      destruct (onContextChangeExecute_notifies s0) as (s' & -> & Hbeyond & Hcalled)
    end.
    exists s'. split; [done|]. rewrite Hbeyond, Hcalled. cbn [relative_start].
    replace (n <? 0) with false by (symmetry; apply Z.ltb_ge; lia).
    by rewrite Nat.min_l by lia.
  - destruct (decide (n < 0)) as [Hneg|Hpos].
    { replace (n <? 0) with true by (symmetry; apply Z.ltb_lt; lia).
      eexists. split; [reflexivity|vm_compute; reflexivity]. }
    replace (n <? 0) with false by (symmetry; apply Z.ltb_ge; lia).
    unfold bind at 1. cbn [gets]. unfold bind at 1, elements.
    fold (context_elements s). rewrite Hes. cbn [num_gt number_toString].
    replace (Z.of_nat (length es) - 1 <? n) with true by (symmetry; apply Z.ltb_lt; lia).
    eexists. split; [reflexivity|apply prefixb_append].
Qed.

Lemma ToString_primitive n n' h h' v : primitive v → ToString n h v = ToString n' h' v.
Proof.
  intros Hv. destruct v as [| |[]|[z| |[]]|t|l]; try (by destruct n, n').
  by destruct (Hv l).
Qed.

Lemma render_entries_app es1 es2 : ∀ now acc s,
  render_entries (es1 ++ es2) now acc s
  = (let* acc' := render_entries es1 now acc in render_entries es2 now acc') s.
Proof.
  induction es1 as [|e es1 IH]; intros now acc s; [done|].
  cbn [app render_entries]. unfold bind.
  destruct (get_property e "content" s) as [[content|err] s1]; [|done].
  destruct (get_property e "timestamp" s1) as [[timestamp|err] s2]; [|done].
  cbn [gets]. by rewrite IH.
Qed.

(** The text of entries that are plain objects depends on those objects
    only. *)
Lemma render_entries_plain es : ∀ now acc s1 s2,
  Forall (λ e, plain (heap s1) e ∧ ∀ key, field (heap s2) e key = field (heap s1) e key) es →
  ∃ text,
    render_entries es now acc s1 = (Returned text, s1)
    ∧ render_entries es now acc s2 = (Returned text, s2).
Proof.
  induction es as [|e es IH]; intros now acc s1 s2 Hes; [by eexists|].
  apply Forall_cons in Hes as [[(o & fields & -> & Ho & Hprim) Hsame] Hes].
  cbn [render_entries]. unfold bind at 1 4, get_property at 1 3. cbn [nullish].
  unfold bind at 1 3, get_property at 1 2. cbn [nullish].
  unfold bind at 1 2. cbn [gets]. rewrite !Hsame.
  rewrite (ToString_primitive (size (heap s2)) (size (heap s1)) (heap s2) (heap s1)).
  - by apply IH.
  - unfold field. rewrite Ho. destruct (fields !! "content") as [v|] eqn:Hv; [|done].
    by apply (Hprim _ _ Hv).
Qed.

(** X14: once [addContextEntry(content, timestamp)] has returned,
    [getContextString()] is what it was before, followed by the sentence
    of the new entry: the trimmed content, how long ago its timestamp was,
    and a full stop. (For a context of plain objects, as the methods of
    the agent build it.) *)
Theorem getContextString_after_addContextEntry s es text given now later :
  context_elements s = Some es →
  Forall (plain (heap s)) es →
  is_blank text = false →
  strlen text ≤ MAX_CONTEXT_ENTRY_LENGTH →
  (∀ t, given = Some t → 0 ≤ t) →
  ∃ before s',
    getContextString later s = (Returned before, s)
    ∧ (addContextEntry JSON_stringify (VStr text) (optional_number given) now >>
       getContextString later) s
      = (Returned (before +:+ trim text +:+ " "
                   +:+ formatTimestampAgo (VNum (default now given)) later +:+ ". "), s').
Proof.
  intros Hes Hplain Hblank Hlen Hgiven.
  destruct (addContextEntry_adds s es text given now Hes Hblank Hlen Hgiven)
    as (o & s' & Ho & Hrun & Hbeyond & _).
  set (entry := new_entry (trim text) (VNum (default now given))) in *.
  assert (Hheap : heap s' = <[_context s := CArr (es ++ [VRef o])]> (<[o := entry]> (heap s)))
    by (by injection Hbeyond).
  assert (Hctx : _context s' = _context s) by (by injection Hbeyond).
  pose proof (context_array _ _ Hes) as Harray.
  assert (Hoc : o ≠ _context s) by (intros ->; congruence).
  assert (Hold : Forall (λ e, plain (heap s) e
                              ∧ ∀ key, field (heap s') e key = field (heap s) e key) es).
  { eapply Forall_impl; [exact Hplain|]. intros e (p & fields & -> & Hp & Hprim).
    split; [by exists p, fields|]. intros key. unfold field. rewrite Hheap, Hp.
    rewrite lookup_insert_ne by (intros <-; congruence).
    rewrite lookup_insert_ne by (intros <-; congruence). by rewrite Hp. }
  destruct (render_entries_plain es later "" s s' Hold) as (before & Hbefore & Hbefore').
  exists before, s'. split.
  { unfold getContextString, bind at 1. cbn [gets]. unfold bind at 1, elements.
    fold (context_elements s). by rewrite Hes. }
  unfold bind at 1. rewrite Hrun.
  unfold getContextString, bind at 1. cbn [gets]. unfold bind at 1, elements.
  rewrite Hctx. unfold elements_of. rewrite Hheap, lookup_insert_eq.
  rewrite render_entries_app. unfold bind at 1. rewrite Hbefore'.
  cbn [render_entries]. unfold bind at 1, get_property at 1. cbn [nullish].
  unfold bind at 1, get_property at 1. cbn [nullish].
  unfold bind at 1. cbn [gets ret]. unfold field. rewrite Hheap.
  rewrite lookup_insert_ne by done. rewrite lookup_insert_eq.
  unfold entry, new_entry. rewrite lookup_insert_eq.
  rewrite lookup_insert_ne by done. rewrite lookup_insert_eq. cbn [default id].
  by rewrite (ToString_primitive _ 0 _ ∅ (VStr (trim text))).
Qed.

Lemma entry_valid_object h x :
  entry_invalid h x = false →
  ∃ o fields text, x = VRef o ∧ h !! o = Some (CObj fields)
                   ∧ fields !! "content" = Some (VStr text).
Proof.
  unfold entry_invalid. intros H.
  repeat (apply orb_false_elim in H as [H ?]).
  destruct x as [| |b|n|t|o]; try done. exists o.
  unfold field in *. destruct (h !! o) as [[fields|es]|]; try done.
  destruct (fields !! "content") as [[| |b|n|t|o']|] eqn:Hc; try done. eauto.
Qed.

Lemma validate_entries_untimestamped es : ∀ index now s,
  Forall (λ x, entry_invalid (heap s) x = false
               ∧ field (heap s) x "timestamp" = VUndefined) es →
  validate_entries index es now s = (Returned tt, s).
Proof.
  induction es as [|x es IH]; intros index now s Hall; [done|].
  apply Forall_cons in Hall as [[Hx Hstamp] Hall].
  cbn [validate_entries]. unfold bind at 1. cbn [gets]. rewrite Hx, Hstamp.
  unfold bind at 1. change (timestamp_given VUndefined) with false.
  cbn [ret]. by apply IH.
Qed.

Lemma copy_entries_fresh es now : ∀ s,
  Forall (λ x, entry_invalid (heap s) x = false
               ∧ field (heap s) x "timestamp" = VUndefined) es →
  ∃ copies h',
    copy_entries es now s = (Returned copies, set_heap h' s)
    ∧ heap s ⊆ h'
    ∧ Forall2 (λ original copy,
                 ∃ o text, copy = VRef o
                           ∧ heap s !! o = None
                           ∧ field (heap s) original "content" = VStr text
                           ∧ h' !! o = Some (new_entry (trim text) (VNum now)))
              es copies.
Proof.
  induction es as [|x es IH]; intros s Hall.
  - exists [], (heap s). split; [by destruct s|]. split; [done|constructor].
  - apply Forall_cons in Hall as [[Hx Hstamp] Hall].
    destruct (entry_valid_object _ _ Hx) as (ox & fields & text & -> & Hox & Hcontent).
    set (o := fresh (dom (heap s))).
    set (s1 := set_heap (<[o := new_entry (trim text) (VNum now)]> (heap s)) s).
    assert (Ho : heap s !! o = None) by apply fresh_unused.
    assert (Hsub : heap s ⊆ heap s1) by (by apply insert_subseteq).
    assert (Hfield : ∀ v key, entry_invalid (heap s) v = false →
                              field (heap s1) v key = field (heap s) v key).
    { intros v key Hv. destruct (entry_valid_object _ _ Hv) as (ov & fv & tv & -> & Hov & _).
      unfold field. rewrite Hov. by rewrite (lookup_weaken _ _ _ _ Hov Hsub). }
    destruct (IH s1) as (copies & h' & Hrun & Hsub' & Hcopies).
    { eapply Forall_impl; [exact Hall|]. intros v [Hv Hts]. cbn beta in *.
      unfold entry_invalid in *. by rewrite !Hfield. }
    exists (VRef o :: copies), h'.
    cbn [copy_entries]. unfold bind at 1, get_property at 1. cbn [nullish].
    unfold bind at 1, get_property at 1. cbn [nullish].
    assert (Hc : field (heap s) (VRef ox) "content" = VStr text).
    { unfold field. by rewrite Hox, Hcontent. }
    rewrite Hc, Hstamp. cbn [coalesce nullish].
    unfold bind at 1. cbn [alloc]. fold o. fold s1.
    unfold bind at 1. rewrite Hrun. cbn [ret].
    split; [by destruct s|]. split; [by etrans|].
    constructor.
    + exists o, text. repeat split; [done|done|].
      eapply lookup_weaken; [|exact Hsub']. unfold s1. cbn [heap set_heap].
      by rewrite lookup_insert_eq.
    + eapply Forall2_impl_valid; [exact Hall|exact Hcopies|]. cbn beta.
      intros original copy [Hvalid _] (o' & text' & -> & Ho' & Hc' & Hnew).
      exists o', text'. rewrite !Hfield in * by done. repeat split; [|done|done].
      eapply lookup_weaken_None; [exact Ho'|exact Hsub].
Qed.

(** X15: [setContext(contextArray)] with an array of valid entries that
    have no timestamp: the context becomes a new array of new objects,
    each with the trimmed content of the original and the reading of the
    clock as its timestamp. No location the heap used before, the array
    and the entries of the caller included, is part of the new context,
    and those are left as they were. *)
Theorem setContext_copies_untimestamped s l es now :
  elements_of (heap s) l = Some es →
  Forall (λ x, entry_invalid (heap s) x = false
               ∧ field (heap s) x "timestamp" = VUndefined) es →
  ∃ s' copies,
    setContext JSON_stringify (VRef l) now s = (Returned tt, s')
    ∧ context_elements s' = Some copies
    ∧ heap s !! _context s' = None
    ∧ heap s ⊆ heap s'
    ∧ Forall2 (λ original copy,
                 ∃ o text, copy = VRef o
                           ∧ heap s !! o = None
                           ∧ field (heap s) original "content" = VStr text
                           ∧ heap s' !! o = Some (new_entry (trim text) (VNum now)))
              es copies.
Proof.
  intros Hes Hall.
  destruct (copy_entries_fresh es now s Hall) as (copies & h1 & Hcopy & Hsub & Hcopies).
  unfold setContext, bind at 1. cbn [gets]. rewrite Hes.
  unfold bind at 1. rewrite validate_entries_untimestamped by done.
  unfold bind at 1. rewrite Hcopy. unfold bind at 1. cbn [alloc heap set_heap].
  set (a := fresh (dom h1)). unfold bind at 1. cbn [modify].
  match goal with |- context [onContextChangeExecute _ ?s0] =>
    destruct (onContextChangeExecute_notifies s0) as (s' & -> & Hbeyond & _)
  end.
  assert (Hh : heap s' = <[a := CArr copies]> h1) by (by injection Hbeyond).
  assert (Hc : _context s' = a) by (by injection Hbeyond).
  assert (Ha : h1 !! a = None) by apply fresh_unused.
  exists s', copies. split; [done|].
  unfold context_elements, elements_of. rewrite Hh, Hc, lookup_insert_eq.
  split; [done|]. split; [by eapply lookup_weaken_None|].
  split; [etrans; [exact Hsub|by apply insert_subseteq]|].
  eapply Forall2_impl; [exact Hcopies|]. cbn beta.
  intros original copy (o & text & -> & Ho & Hco & Hnew).
  exists o, text. repeat split; [done|done|].
  rewrite lookup_insert_ne; [done|]. intros <-. congruence.
Qed.

End Context.

(** ** Unsubscribing *)

Lemma delete_past_end {A} (l : list A) i : (length l ≤ i)%nat → delete i l = l.
Proof. intros H. by rewrite delete_take_drop, take_ge, drop_ge, app_nil_r by lia. Qed.

Lemma indexOf_found {A} `{EqDecision A} (before after : list A) x : ∀ from,
  x ∉ before → indexOf (before ++ x :: after) x from = from + Z.of_nat (length before).
Proof.
  induction before as [|y before IH]; intros from Hnot.
  - cbn. rewrite decide_True by done. lia.
  - apply not_elem_of_cons in Hnot as [Hne Hnot]. cbn [app indexOf].
    rewrite decide_False by done. rewrite IH by done. cbn [length]. lia.
Qed.

Lemma indexOf_absent {A} `{EqDecision A} (l : list A) x : ∀ from,
  x ∉ l → indexOf l x from = -1.
Proof.
  induction l as [|y l IH]; intros from Hnot; [done|].
  apply not_elem_of_cons in Hnot as [Hne Hnot]. cbn.
  rewrite decide_False by done. by apply IH.
Qed.

Lemma splice_callbacks_found {A} `{EqDecision A} (before after : list A) x :
  x ∉ before →
  splice_callbacks (before ++ x :: after) (indexOf (before ++ x :: after) x 0) = before ++ after.
Proof.
  intros Hnot. rewrite indexOf_found by done. unfold splice_callbacks, relative_start.
  replace (0 + Z.of_nat (length before) <? 0) with false by (symmetry; apply Z.ltb_ge; lia).
  rewrite Z.add_0_l, Nat2Z.id, Nat.min_l by (rewrite length_app; lia).
  apply delete_middle.
Qed.

(** X16: the function [onMessageHistoryChange(callback)] returns removes
    the first registration of the callback and nothing else; when the
    callback is not registered (any more) it does nothing, so calling it
    twice is harmless. The function [onContextChange] returns has the same
    body and behaves the same. *)
Theorem unsubscribe_removes_first_registration s :
  (∀ id before after,
     _onMessageHistoryChangeCallbacks s = before ++ id :: after →
     id ∉ before →
     onMessageHistoryChange_unsubscribe id s
     = (Returned tt, set_onMessageHistoryChangeCallbacks (before ++ after) s))
  ∧ (∀ id,
       id ∉ _onMessageHistoryChangeCallbacks s →
       onMessageHistoryChange_unsubscribe id s = (Returned tt, s))
  ∧ (∀ callback before after,
       _onContextChangeCallbacks s = before ++ callback :: after →
       callback ∉ before →
       onContextChange_unsubscribe callback s
       = (Returned tt, set_onContextChangeCallbacks (before ++ after) s))
  ∧ (∀ callback,
       callback ∉ _onContextChangeCallbacks s →
       onContextChange_unsubscribe callback s = (Returned tt, s)).
Proof.
  split; [|split; [|split]].
  - intros id before after Hlist Hnot.
    unfold onMessageHistoryChange_unsubscribe, bind. cbn [gets]. rewrite Hlist.
    rewrite bool_decide_eq_false_2 by (rewrite indexOf_found by done; lia).
    cbn [negb when]. unfold modify. by rewrite Hlist, splice_callbacks_found.
  - intros id Hnot. unfold onMessageHistoryChange_unsubscribe, bind. cbn [gets].
    by rewrite indexOf_absent.
  - intros callback before after Hlist Hnot.
    unfold onContextChange_unsubscribe, bind. cbn [gets]. rewrite Hlist.
    rewrite bool_decide_eq_false_2 by (rewrite indexOf_found by done; lia).
    cbn [negb when]. unfold modify. by rewrite Hlist, splice_callbacks_found.
  - intros callback Hnot. unfold onContextChange_unsubscribe, bind. cbn [gets].
    by rewrite indexOf_absent.
Qed.

(** X17: the function [onInitialized(callback)] returns removes by
    position: the index the callback had when it was registered. After
    [onInitialized(a)] and [onInitialized(b)], calling the function
    returned for [a] and then the one returned for [b] leaves [b]
    registered (its index is past the end by then), and calling the one
    returned for [a] twice removes both [a] and [b]. *)
Theorem onInitialized_unsubscribe_is_positional s a b :
  (let* unsubscribe_a := onInitialized_subscription a in
   let* unsubscribe_b := onInitialized_subscription b in
   unsubscribe_a >> unsubscribe_b) s
  = (Returned tt, set_onInitializedCallbacks (_onInitializedCallbacks s ++ [b]) s)
  ∧ (let* unsubscribe_a := onInitialized_subscription a in
     let* unsubscribe_b := onInitialized_subscription b in
     unsubscribe_a >> unsubscribe_a) s
    = (Returned tt, set_onInitializedCallbacks (_onInitializedCallbacks s) s).
Proof.
  set (callbacks := _onInitializedCallbacks s).
  assert (Hfirst : splice_callbacks ((callbacks ++ [a]) ++ [b])
                     (Z.of_nat (length (callbacks ++ [a])) - 1) = callbacks ++ [b]).
  { unfold splice_callbacks, relative_start. rewrite !length_app. cbn [length].
    replace (Z.of_nat (length callbacks + 1) - 1 <? 0) with false
      by (symmetry; apply Z.ltb_ge; lia).
    replace (Z.to_nat (Z.of_nat (length callbacks + 1) - 1)) with (length callbacks) by lia.
    rewrite Nat.min_l by lia. rewrite <- (assoc_L (++)). apply delete_middle. }
  assert (Hpast : splice_callbacks (callbacks ++ [b])
                    (Z.of_nat (length ((callbacks ++ [a]) ++ [b])) - 1) = callbacks ++ [b]).
  { unfold splice_callbacks, relative_start. rewrite !length_app. cbn [length].
    replace (Z.of_nat (length callbacks + 1 + 1) - 1 <? 0) with false
      by (symmetry; apply Z.ltb_ge; lia).
    apply delete_past_end. rewrite length_app. cbn [length]. lia. }
  assert (Hagain : splice_callbacks (callbacks ++ [b])
                     (Z.of_nat (length (callbacks ++ [a])) - 1) = callbacks).
  { unfold splice_callbacks, relative_start. rewrite !length_app. cbn [length].
    replace (Z.of_nat (length callbacks + 1) - 1 <? 0) with false
      by (symmetry; apply Z.ltb_ge; lia).
    replace (Z.to_nat (Z.of_nat (length callbacks + 1) - 1)) with (length callbacks) by lia.
    rewrite Nat.min_l by lia. rewrite (delete_middle callbacks [] b). apply app_nil_r. }
  assert (Hindex : ∀ l : list nat, l ≠ [] → bool_decide (Z.of_nat (length l) - 1 = -1) = false).
  { intros l Hl. apply bool_decide_eq_false_2. destruct l; [done|]. cbn [length]. lia. }
  unfold onInitialized_subscription, onInitialized, onInitialized_unsubscribe, bind.
  cbn [modify gets ret _onInitializedCallbacks set_onInitializedCallbacks].
  fold callbacks. rewrite !Hindex by (by destruct callbacks).
  cbn [negb when modify _onInitializedCallbacks set_onInitializedCallbacks].
  rewrite Hfirst. unfold modify. cbn [_onInitializedCallbacks set_onInitializedCallbacks].
  split; [by rewrite Hpast|by rewrite Hagain].
Qed.

(** ** Construction *)

Lemma restore_entries_copies entries now : ∀ s,
  forallb stored_entry_valid entries = true →
  ∃ copies h',
    restore_entries entries now s = (Returned copies, set_heap h' s)
    ∧ heap s ⊆ h'
    ∧ Forall2 (λ entry copy,
                 ∃ o members text,
                   entry = JObj members
                   ∧ assoc "content" members = Some (JStr text)
                   ∧ copy = VRef o
                   ∧ heap s !! o = None
                   ∧ h' !! o = Some (new_entry (trim text)
                                       (match assoc "timestamp" members with
                                        | Some (JNum t) => VNum t
                                        | _ => VNum now
                                        end)))
              entries copies.
Proof.
  induction entries as [|entry entries IH]; intros s Hvalid.
  - exists [], (heap s). split; [by destruct s|]. split; [done|constructor].
  - cbn [forallb] in Hvalid. apply andb_prop in Hvalid as [Hentry Hvalid].
    destruct entry as [| | | | |members]; try done. cbn [stored_entry_valid] in Hentry.
    destruct (assoc "content" members) as [[| | |text| |]|] eqn:Hcontent; try done.
    set (stamp := match assoc "timestamp" members with
                  | Some (JNum t) => VNum t
                  | _ => VNum now
                  end).
    set (o := fresh (dom (heap s))).
    set (s1 := set_heap (<[o := new_entry (trim text) stamp]> (heap s)) s).
    assert (Ho : heap s !! o = None) by apply fresh_unused.
    assert (Hsub : heap s ⊆ heap s1) by (by apply insert_subseteq).
    destruct (IH s1 Hvalid) as (copies & h' & Hrun & Hsub' & Hcopies).
    exists (VRef o :: copies), h'.
    cbn [restore_entries]. rewrite Hcontent.
    assert (coalesce (match assoc "timestamp" members with
                      | Some (JNum t) => VNum t
                      | _ => VUndefined
                      end) (VNum now) = stamp) as ->.
    { unfold stamp. by destruct (assoc "timestamp" members) as [[]|]. }
    unfold bind at 1. cbn [alloc]. fold o. fold s1.
    unfold bind at 1. rewrite Hrun. cbn [ret].
    split; [by destruct s|]. split; [by etrans|].
    constructor.
    + exists o, members, text. repeat split; [done|done|].
      eapply lookup_weaken; [|exact Hsub']. unfold s1. cbn [heap set_heap].
      by rewrite lookup_insert_eq.
    + eapply Forall2_impl; [exact Hcopies|]. cbn beta.
      intros e copy (o' & members' & text' & -> & Hc' & -> & Ho' & Hnew).
      exists o', members', text'. repeat split; [done|..|done].
      eapply lookup_weaken_None; [exact Ho'|exact Hsub].
Qed.

Section Construction.

Variable JSON_parse : string → option json.

(** What the constructor does up to the point where it has read the
    stored context: in a browser whose local storage works, with storage
    enabled. *)
Lemma constructor_reads_storage key opts now e h storage history quiet :
  0 < strlen key →
  coalesce (opt_useStorage opts) (VBool true) = VBool true →
  coalesce (opt_useMessageHistory opts) (VBool true) = VBool history →
  truthy (coalesce (opt_suppressWarnings opts) (VBool false)) = quiet →
  isNode e && negb (isBrowser e) = false →
  hasLocalStorage e = true →
  ∃ s0,
    cfg s0 = {| agentKey := key; useStorage := true; useMessageHistory := history;
                suppressWarnings := quiet; env := e |}
    ∧ s0 = set_onContextChangeCallbacks [StorageSubscriber]
             (set_cfg (cfg s0) (instance e h storage))
    ∧ new_Heylock JSON_parse (VStr key) opts now e h storage
      = (match storage !! "context" with
         | Some text =>
             if bool_decide (text = "") then ret tt
             else
               match JSON_parse text with
               | Some (JArr parsedContext) =>
                   if forallb stored_entry_valid parsedContext then
                     let* copies := restore_entries parsedContext now in
                     let* array := alloc (CArr copies) in
                     modify (set_context array)
                   else warn "Stored context is invalid. Context will not be restored."
               | Some _ => warn "Stored context is invalid. Context will not be restored."
               | None => warn "Failed to parse stored context. Context will not be restored."
               end
         | None => ret tt
         end) s0.
Proof.
  intros Hkey Hstorage Hhistory Hquiet Henv Hlocal.
  eexists. split; [|split; [|
    unfold new_Heylock, constructor; rewrite Hstorage, Hhistory, Hquiet;
    replace (strlen key <=? 0) with false by (symmetry; apply Z.leb_gt; lia);
    unfold bind at 1; cbn [gets]; unfold bind at 1; cbn [modify when];
    unfold bind at 1; cbn [onContextChange modify];
    unfold bind at 1, getStorageItem at 1;
    change (is_blank "context") with false; cbv iota;
    unfold bind at 1; cbn [gets env cfg set_cfg set_onContextChangeCallbacks instance];
    rewrite Henv; unfold try_catch; rewrite Hlocal; cbn [negb];
    unfold bind at 1;
    cbn [gets localStorage set_cfg set_onContextChangeCallbacks instance];
    destruct (storage !! "context") as [text|]; cbn [from_option ret]; reflexivity]].
  - reflexivity.
  - reflexivity.
Qed.

(** X18: a context stored under the key ['context'] is restored by the
    constructor (in a browser whose local storage works, with storage
    enabled): when the stored text parses as an array of valid entries,
    the context of the new agent holds one new object for each, with the
    trimmed content and the stored timestamp, or the reading of the clock
    where none is stored. Nothing is logged and the storage is not
    written. *)
Theorem constructor_restores_stored_context
    key opts now e h storage history quiet text entries :
  0 < strlen key →
  coalesce (opt_useStorage opts) (VBool true) = VBool true →
  coalesce (opt_useMessageHistory opts) (VBool true) = VBool history →
  truthy (coalesce (opt_suppressWarnings opts) (VBool false)) = quiet →
  isNode e && negb (isBrowser e) = false →
  hasLocalStorage e = true →
  storage !! "context" = Some text →
  text ≠ "" →
  JSON_parse text = Some (JArr entries) →
  forallb stored_entry_valid entries = true →
  ∃ s' copies,
    new_Heylock JSON_parse (VStr key) opts now e h storage = (Returned tt, s')
    ∧ context_elements s' = Some copies
    ∧ Forall2 (λ entry copy,
                 ∃ o members content,
                   entry = JObj members
                   ∧ assoc "content" members = Some (JStr content)
                   ∧ copy = VRef o
                   ∧ heap s' !! o = Some (new_entry (trim content)
                                            (match assoc "timestamp" members with
                                             | Some (JNum t) => VNum t
                                             | _ => VNum now
                                             end)))
              entries copies
    ∧ history_elements s' = Some []
    ∧ console s' = []
    ∧ localStorage s' = storage.
Proof.
  intros Hkey Hstorage Hhistory Hquiet Henv Hlocal Hstored Htext Hparse Hvalid.
  destruct (constructor_reads_storage key opts now e h storage history quiet
              Hkey Hstorage Hhistory Hquiet Henv Hlocal) as (s0 & Hcfg & Hs0 & ->).
  rewrite Hstored, bool_decide_eq_false_2, Hparse, Hvalid by done.
  destruct (restore_entries_copies entries now s0 Hvalid)
    as (copies & h1 & Hrestore & Hsub & Hcopies).
  unfold bind at 1. rewrite Hrestore. unfold bind at 1. cbn [alloc modify heap set_heap].
  set (a := fresh (dom h1)).
  assert (Ha : h1 !! a = None) by apply fresh_unused.
  eexists _, copies. split; [reflexivity|].
  unfold context_elements, history_elements, elements_of.
  cbn [heap set_heap set_context _context _messageHistory console localStorage].
  rewrite lookup_insert_eq. split; [done|]. split; [|split; [|by rewrite Hs0]].
  - eapply Forall2_impl; [exact Hcopies|]. cbn beta.
    intros entry copy (o & members & content & -> & Hc & -> & Ho & Hnew).
    exists o, members, content. repeat split; [done|].
    rewrite lookup_insert_ne; [done|]. intros <-. congruence.
  - assert (Hhist : heap s0 !! _messageHistory s0 = Some (CArr [])).
    { rewrite Hs0. cbn [heap _messageHistory set_onContextChangeCallbacks set_cfg instance].
      rewrite lookup_insert_ne by (apply fresh_ne; rewrite lookup_insert_eq; by eexists).
      by rewrite lookup_insert_eq. }
    rewrite lookup_insert_ne
      by (intros E; pose proof (lookup_weaken_None _ _ _ Ha Hsub); congruence).
    by rewrite (lookup_weaken _ _ _ _ Hhist Hsub).
Qed.

(** X19: a stored context the constructor cannot use does not stop the
    construction: when the text under ['context'] does not parse, is no
    array, or holds an entry that is not valid, the new agent starts with
    an empty context, the stored text stays where it is, and one warning
    is logged unless warnings are suppressed. *)
Theorem constructor_discards_unusable_stored_context
    key opts now e h storage history quiet text :
  0 < strlen key →
  coalesce (opt_useStorage opts) (VBool true) = VBool true →
  coalesce (opt_useMessageHistory opts) (VBool true) = VBool history →
  truthy (coalesce (opt_suppressWarnings opts) (VBool false)) = quiet →
  isNode e && negb (isBrowser e) = false →
  hasLocalStorage e = true →
  storage !! "context" = Some text →
  text ≠ "" →
  (∀ entries, JSON_parse text = Some (JArr entries) →
              forallb stored_entry_valid entries = false) →
  ∃ s',
    new_Heylock JSON_parse (VStr key) opts now e h storage = (Returned tt, s')
    ∧ context_elements s' = Some []
    ∧ localStorage s' = storage
    ∧ console s'
      = if quiet then []
        else [match JSON_parse text with
              | Some _ => "Stored context is invalid. Context will not be restored."
              | None => "Failed to parse stored context. Context will not be restored."
              end].
Proof.
  intros Hkey Hstorage Hhistory Hquiet Henv Hlocal Hstored Htext Hunusable.
  destruct (constructor_reads_storage key opts now e h storage history quiet
              Hkey Hstorage Hhistory Hquiet Henv Hlocal) as (s0 & Hcfg & Hs0 & ->).
  rewrite Hstored, bool_decide_eq_false_2 by done.
  assert (Hcontext : context_elements s0 = Some []).
  { rewrite Hs0. unfold context_elements, elements_of.
    cbn [heap _context set_onContextChangeCallbacks set_cfg instance].
    by rewrite lookup_insert_eq. }
  assert (Hwarn : ∀ notice, ∃ s',
            warn notice s0 = (Returned tt, s')
            ∧ context_elements s' = Some []
            ∧ localStorage s' = storage
            ∧ console s' = if quiet then [] else [notice]).
  { intros notice. unfold warn. rewrite Hcfg. cbn [suppressWarnings].
    assert (Hconsole : console s0 = []) by (by rewrite Hs0).
    assert (Hlocal0 : localStorage s0 = storage) by (by rewrite Hs0).
    destruct quiet; eexists; (split; [reflexivity|]);
      (split; [exact Hcontext|]); (split; [exact Hlocal0|]); cbn [console set_console];
      by rewrite Hconsole. }
  destruct (JSON_parse text) as [[| | | |entries|]|] eqn:Hparse; try apply Hwarn.
  by rewrite (Hunusable entries eq_refl).
Qed.

End Construction.

(** ** The routes *)

Lemma includes_prefixb hay needle : prefixb needle hay = true → includes hay needle = true.
Proof. intros H. destruct hay; cbn; by rewrite H. Qed.

Lemma rethrow_names {A} prefix e s : failure_names prefix (@rethrow A prefix e s).
Proof.
  unfold failure_names, rethrow. destruct (includes (error_message e) prefix) eqn:Hin.
  - by eexists.
  - eexists. split; [done|]. apply includes_prefixb, prefixb_append.
Qed.

Lemma try_catch_rethrow_names {A} prefix (m : M A) s :
  failure_names prefix (try_catch m (rethrow prefix) s).
Proof.
  unfold try_catch. destruct (m s) as [[a|e] s']; [done|apply rethrow_names].
Qed.

Lemma try_catch_bind {A B} (m : M A) (k : A → M B) h s a s1 :
  m s = (Returned a, s1) → try_catch (bind m k) h s = try_catch (k a) h s1.
Proof. unfold try_catch, bind. by intros ->. Qed.

Ltac names_throw := eexists; split; [reflexivity|vm_compute; reflexivity].

Section Routes.

Variable StringToNumber : string → number.

(** X20: whatever [rewrite], [sort] and [shouldEngage] throw, for every
    argument, agent and answer of the service, is an [Error] whose message
    contains the name of the method followed by [failed: ]. *)
Theorem routes_name_themselves_in_errors s now answer :
  (∀ content instructions useContext,
     failure_names "rewrite failed: "
       (rewrite StringToNumber content instructions useContext now answer s))
  ∧ (∀ array instructions useContext,
       failure_names "sort failed: "
         (sort StringToNumber array instructions useContext now answer s))
  ∧ (∀ instructions,
       failure_names "shouldEngage failed: " (shouldEngage instructions now answer s)).
Proof.
  split; [|split].
  - intros content instructions useContext. unfold rewrite.
    destruct content as [| |b|x|text|l]; try names_throw.
    destruct (is_blank text); [names_throw|].
    destruct (_ <? _); [names_throw|].
    destruct (default_param useContext (VBool true)) as [| |withContext|x|t|l]; try names_throw.
    destruct (negb _ && negb _); [names_throw|].
    destruct (match instructions with VStr i => _ | _ => false end); [names_throw|].
    apply try_catch_rethrow_names.
  - intros array instructions useContext. unfold sort, bind at 1. cbn [gets].
    destruct (match array with VRef l => _ | _ => None end) as [items|]; [|done].
    destruct (_ <? _); [done|].
    destruct (negb _ && negb _); [names_throw|].
    destruct (default_param useContext (VBool true)) as [| |withContext|x|t|l]; try names_throw.
    apply try_catch_rethrow_names.
  - intros instructions. unfold shouldEngage, bind at 1. cbn [gets].
    destruct (_ <? _); [done|].
    unfold bind at 1. cbn [modify].
    destruct (negb _ && _); [names_throw|].
    destruct (match instructions with VStr text => _ | _ => false end); [names_throw|].
    apply try_catch_rethrow_names.
Qed.

(** X21: [sort] on a value that is no array, or on an array of fewer
    than two elements, returns the fallback result at once: no request is
    sent, the other arguments are not looked at, and the agent is as it
    was. The result has [indexes] [0 .. length - 1] (none for a value that
    is no array) and, although the warning says the original array is
    returned, no [array]. *)
Theorem sort_short_input_falls_back s input instructions useContext now answer :
  (∀ l items, input = VRef l → elements_of (heap s) l = Some items → (length items < 2)%nat) →
  ∃ result,
    sort StringToNumber input instructions useContext now answer s = (Returned result, s)
    ∧ array result = None
    ∧ sort_fallback result = true
    ∧ sort_warning result
      = Some "Input array is invalid or too short to sort. Returning original array."
    ∧ indexes result
      = match input with
        | VRef l => from_option (λ items, map Z.of_nat (seq 0 (length items))) []
                      (elements_of (heap s) l)
        | _ => []
        end.
Proof.
  intros Hshort. unfold sort, bind at 1. cbn [gets].
  destruct input as [| |b|x|t|l]; try (by eexists).
  destruct (elements_of (heap s) l) as [items|] eqn:Hitems; [|by eexists].
  specialize (Hshort l items eq_refl Hitems).
  replace (Z.of_nat (length items) <? 2) with true by (symmetry; apply Z.ltb_lt; lia).
  by eexists.
Qed.

(** X22: [rewrite] sends its request and counts it whatever the service
    answers, and whether or not the agent is initialized: with arguments
    that pass the validation, one request goes out, and the counter of
    rewrites becomes the number of the header [x-ratelimit-remaining], or
    one less than it was when the header is absent or no number. This
    happens before the status is looked at, so also when [rewrite] then
    throws for a status like 429 or 500. *)
Theorem rewrite_counts_whatever_the_answer
    s text instructions useContext withContext now r :
  is_blank text = false →
  strlen text ≤ MAX_MESSAGE_LENGTH →
  instructions = VUndefined ∨ (∃ i, instructions = VStr i ∧ strlen i ≤ MAX_MESSAGE_LENGTH) →
  default_param useContext (VBool true) = VBool withContext →
  (withContext = true → context_readable s) →
  let after := (rewrite StringToNumber (VStr text) instructions useContext now (Resolved r) s).2 in
  (∃ body,
     fetched after
     = fetched s ++ [{| url := "https://heylock.dev/api/v1/rewrite"; method := "POST";
                        authorization := Some (agentKey (cfg s)); payload := Some body |}])
  ∧ _usageRemaining after
    = set_rewrites
        (match ratelimit_remaining r with
         | Some header =>
             if bool_decide (StringToNumber header = NaN)
             then VNumber (minus_one (ToNumber StringToNumber (heap s)
                                        (rewrites (_usageRemaining s))))
             else VNumber (StringToNumber header)
         | None => VNumber (minus_one (ToNumber StringToNumber (heap s)
                                         (rewrites (_usageRemaining s))))
         end)
        (_usageRemaining s).
Proof.
  intros Hblank Hlen Hinstructions HuseContext Hreadable after. subst after.
  unfold rewrite. rewrite Hblank, HuseContext.
  replace (MAX_MESSAGE_LENGTH <? strlen text) with false by (symmetry; apply Z.ltb_ge; lia).
  assert (negb (bool_decide (instructions = VUndefined))
          && negb (bool_decide (typeof instructions = TString)) = false) as ->.
  { by destruct Hinstructions as [->|(i & -> & _)]. }
  assert (match instructions with
          | VStr i => MAX_MESSAGE_LENGTH <? strlen i
          | _ => false
          end = false) as ->.
  { destruct Hinstructions as [->|(i & -> & Hi)]; [done|]. apply Z.ltb_ge. lia. }
  erewrite try_catch_bind by reflexivity.
  assert (∃ contextString,
            (if withContext then getContextString now else ret "") s
            = (Returned contextString, s)) as (contextString & HcontextString).
  { destruct withContext; [by apply getContextString_returns, Hreadable|by eexists]. }
  erewrite try_catch_bind by exact HcontextString.
  match goal with
  | |- context [stringify_members ?members] =>
      assert (is_Some (serial_members (map (λ kv, (kv.1, serialise (heap s) kv.2)) members)))
        as [ms Hms]
  end.
  { cbn [map fst snd]. repeat apply serial_members_cons; try by apply serialise_primitive.
    - apply serialise_primitive. by destruct Hinstructions as [->|(i & -> & _)].
    - by destruct withContext.
    - by eexists. }
  erewrite try_catch_bind by (by apply stringify_members_returns).
  erewrite try_catch_bind by reflexivity.
  assert (∃ u, setting_rate_limits StringToNumber (ratelimit_remaining r) rewrites set_rewrites
                 (set_fetched (fetched s ++ [{| url := "https://heylock.dev/api/v1/rewrite";
                                                method := "POST";
                                                authorization := Some (agentKey (cfg s));
                                                payload := Some (JObj ms) |}]) s)
               = (Returned (Number StringToNumber (ratelimit_remaining r)),
                  set_usageRemaining u
                    (set_fetched (fetched s ++ [{| url := "https://heylock.dev/api/v1/rewrite";
                                                   method := "POST";
                                                   authorization := Some (agentKey (cfg s));
                                                   payload := Some (JObj ms) |}]) s))
               ∧ u = set_rewrites
                       (match ratelimit_remaining r with
                        | Some header =>
                            if bool_decide (StringToNumber header = NaN)
                            then VNumber (minus_one (ToNumber StringToNumber (heap s)
                                                       (rewrites (_usageRemaining s))))
                            else VNumber (StringToNumber header)
                        | None => VNumber (minus_one (ToNumber StringToNumber (heap s)
                                                        (rewrites (_usageRemaining s))))
                        end)
                       (_usageRemaining s)) as (u & Hlimits & Hu).
  { unfold setting_rate_limits, bind, assign, decrement. cbn [modify ret].
    destruct (ratelimit_remaining r) as [header|]; cbn [Number].
    - destruct (bool_decide (StringToNumber header = NaN)); cbn [negb andb];
        [by eexists|]. rewrite bool_decide_eq_true_2 by (by eexists). by eexists.
    - rewrite andb_false_r. by eexists. }
  erewrite try_catch_bind by exact Hlimits.
  match goal with |- context [try_catch ?m ?h ?s5] =>
    assert (keeps (λ s, (fetched s, _usageRemaining s)) (try_catch m h)) as Hkeeps;
    [|specialize (Hkeeps s5); cbn beta in Hkeeps; injection Hkeeps as Hfetched Husage]
  end.
  { repeat first [apply keeps_res_json | keeps_step]. }
  rewrite Hfetched, Husage. cbn [fetched _usageRemaining set_usageRemaining set_fetched].
  split; [by eexists|done].
Qed.

End Routes.

(** ** Limits and initialization *)

Lemma remaining_of_keeps_counters limits kind s :
  _usageRemaining (remaining_of limits kind s).2 = _usageRemaining s.
Proof. by apply (keeps_remaining_of _usageRemaining). Qed.

(** X23: [fetchUsageRemaining] replaces the three counters together or
    not at all: when it returns, the counters of the agent are the ones it
    returns; when it throws (agent not initialized, request failed, status
    other than 200, a counter missing in the document), the counters are
    what they were. *)
Theorem fetchUsageRemaining_is_all_or_nothing answer s :
  match fetchUsageRemaining answer s with
  | (Returned counters, s') => _usageRemaining s' = counters
  | (Thrown _, s') => _usageRemaining s' = _usageRemaining s
  end.
Proof.
  unfold fetchUsageRemaining, bind at 1, isInitialized. cbn [gets].
  destruct (_isInitialized s); cbn [negb]; [|done].
  unfold try_catch.
  match goal with |- context [match ?body s with _ => _ end] =>
    assert (match body s with
            | (Returned counters, s') => _usageRemaining s' = counters
            | (Thrown _, s') => _usageRemaining s' = _usageRemaining s
            end) as Hbody;
    [|destruct (body s) as [[counters|e] s']; [done|];
      unfold rethrow; by destruct (includes _ _)]
  end.
  unfold bind at 1. cbn [gets]. unfold bind at 1, fetch, bind at 1. cbn [modify].
  destruct answer as [r|e]; [|done]. cbn [ret].
  destruct (status r =? 401); [done|]. destruct (status r =? 500); [done|].
  destruct (status r =? 503); [done|]. destruct (negb (status r =? 200)); [done|].
  unfold bind at 1, res_json. destruct (body r) as [limitsData|]; [|done]. cbn [ret].
  unfold bind at 1.
  destruct (member limitsData "limits" _) as [[limits|e] s1] eqn:Hlimits; cycle 1.
  { destruct limitsData; by injection Hlimits as _ <-. }
  assert (_usageRemaining s1 = _usageRemaining s) as H1.
  { destruct limitsData; by injection Hlimits as _ <-. }
  unfold bind at 1.
  pose proof (remaining_of_keeps_counters limits "messages" s1) as H2.
  destruct (remaining_of limits "messages" s1) as [[m|e] s2]; [|cbn in *; congruence].
  unfold bind at 1.
  pose proof (remaining_of_keeps_counters limits "sorts" s2) as H3.
  destruct (remaining_of limits "sorts" s2) as [[so|e] s3]; [|cbn in *; congruence].
  unfold bind at 1.
  pose proof (remaining_of_keeps_counters limits "rewrites" s3) as H4.
  destruct (remaining_of limits "rewrites" s3) as [[rw|e] s4]; [|cbn in *; congruence].
  done.
Qed.

Lemma forEach_initialized_calls (ids : list nat) : ∀ s,
  forEach ids (λ callback,
     try_catch (let* initialized := isInitialized in call callback (VBool initialized))
               (λ error, warn "onInitialized callback error:")) s
  = (Returned tt,
     set_called (called s ++ map (λ id, {| callee := id; argument := VBool (_isInitialized s) |})
                                 ids) s).
Proof.
  induction ids as [|id ids IH]; intros s.
  - cbn. by rewrite app_nil_r, set_called_called.
  - cbn [forEach]. unfold bind at 1.
    change (try_catch _ _ s) with
      (Returned tt,
       set_called (called s ++ [{| callee := id; argument := VBool (_isInitialized s) |}]) s).
    cbv beta iota. rewrite IH. cbn [called set_called _isInitialized map].
    rewrite <- app_assoc. by destruct s.
Qed.

Lemma onInitializedExecute_calls s :
  onInitializedExecute s
  = (Returned tt,
     set_called (called s ++ map (λ id, {| callee := id; argument := VBool (_isInitialized s) |})
                                 (_onInitializedCallbacks s)) s).
Proof. unfold onInitializedExecute, bind at 1. cbn [gets]. apply forEach_initialized_calls. Qed.

(** X24: a handshake that succeeds. With the key verified
    ([{valid: true}]) and the limits read from a document with the three
    counters, [#initializeAgent] sends two requests (the key in the body
    of the first, in the [Authorization] header of the second), sets
    [isInitialized], takes over the counters, and calls every
    [onInitialized] callback once, in the order of registration, with
    [true]. *)
Theorem initializeAgent_success_notifies_once key v l members m so rw s :
  status v = 200 →
  body v = Some (JObj members) →
  assoc "valid" members = Some (JBool true) →
  status l = 200 →
  body l = Some (limits_document m so rw) →
  initializeAgent key (Resolved v) (Resolved l) s
  = (Returned tt,
     set_called
       (called s ++ map (λ id, {| callee := id; argument := VBool true |})
                        (_onInitializedCallbacks s))
       (set_usageRemaining {| messages := VNum m; sorts := VNum so; rewrites := VNum rw |}
          (set_fetched
             (fetched s
              ++ [{| url := "https://heylock.dev/api/internal/verifyKey"; method := "POST";
                     authorization := None; payload := Some (JObj [("key", JStr key)]) |};
                  {| url := "https://heylock.dev/api/v1/limits"; method := "GET";
                     authorization := Some (agentKey (cfg s)); payload := None |}])
             (set_isInitialized true s)))).
Proof.
  intros Hv Hvbody Hvalid Hl Hlbody.
  unfold initializeAgent, try_catch, bind at 1, fetch, bind at 1. cbn [modify ret].
  rewrite Hv. cbn [Z.eqb Pos.eqb negb]. unfold bind at 1, res_json. rewrite Hvbody. cbn [ret].
  unfold bind at 1. cbn [member ret]. rewrite Hvalid.
  unfold bind at 1. cbn [modify]. unfold bind at 1.
  unfold fetchUsageRemaining, bind at 1, isInitialized. cbn [gets _isInitialized set_isInitialized negb].
  unfold try_catch, bind at 1. cbn [gets]. unfold bind at 1, fetch, bind at 1. cbn [modify ret].
  rewrite Hl. cbn [Z.eqb Pos.eqb negb]. unfold bind at 1, res_json. rewrite Hlbody. cbn [ret].
  unfold bind at 1. change (member (limits_document m so rw) "limits" ?s0)
    with (Returned (assoc "limits" [("limits", JObj [("messages", JObj [("remaining", JNum m)]);
                                                      ("sorts", JObj [("remaining", JNum so)]);
                                                      ("rewrites", JObj [("remaining", JNum rw)])])]),
          s0).
  cbv iota beta.
  set (counters := Some (JObj [("messages", JObj [("remaining", JNum m)]);
                               ("sorts", JObj [("remaining", JNum so)]);
                               ("rewrites", JObj [("remaining", JNum rw)])])).
  change (assoc "limits" _) with counters.
  unfold bind at 1. change (remaining_of counters "messages" ?s0) with (Returned (VNum m), s0).
  cbv iota beta.
  unfold bind at 1. change (remaining_of counters "sorts" ?s0) with (Returned (VNum so), s0).
  cbv iota beta.
  unfold bind at 1. change (remaining_of counters "rewrites" ?s0) with (Returned (VNum rw), s0).
  cbv iota beta.
  unfold bind, usageRemaining, modify, gets. rewrite onInitializedExecute_calls.
  cbn [called _isInitialized _onInitializedCallbacks set_usageRemaining set_fetched
       set_isInitialized fetched cfg].
  rewrite <- app_assoc. reflexivity.
Qed.

Lemma fetchUsageRemaining_throws limits s :
  (∀ l, limits = Resolved l → status l ≠ 200) →
  ∃ e, (fetchUsageRemaining limits s).1 = Thrown e.
Proof.
  intros Hfails. unfold fetchUsageRemaining, bind at 1, isInitialized. cbn [gets].
  destruct (_isInitialized s); cbn [negb]; [|by eexists].
  unfold try_catch.
  match goal with |- context [match ?body s with _ => _ end] =>
    assert (∃ e, (body s).1 = Thrown e) as [e He];
    [|destruct (body s) as [[counters|e'] s']; [done|];
      unfold rethrow; destruct (includes _ _); by eexists]
  end.
  unfold bind at 1. cbn [gets]. unfold bind at 1, fetch, bind at 1. cbn [modify].
  destruct limits as [l|e]; [|by eexists]. cbn [ret].
  destruct (status l =? 401); [by eexists|]. destruct (status l =? 500); [by eexists|].
  destruct (status l =? 503); [by eexists|].
  destruct (status l =? 200) eqn:Hstatus; [|by eexists].
  apply Z.eqb_eq in Hstatus. by destruct (Hfails l eq_refl).
Qed.

(** X25: a handshake that fails half way. When the key is verified but
    the limits cannot be read (the request fails or its status is not
    200), [#initializeAgent] throws an [Error] that names the
    initialization, and calls no [onInitialized] callback; yet the agent
    stays initialized: [isInitialized] is [true]. *)
Theorem initializeAgent_limits_failure_leaves_agent_initialized key v members limits s :
  status v = 200 →
  body v = Some (JObj members) →
  assoc "valid" members = Some (JBool true) →
  (∀ l, limits = Resolved l → status l ≠ 200) →
  ∃ message s',
    initializeAgent key (Resolved v) limits s = (Thrown (Error message), s')
    ∧ includes message "Agent initialization failed: " = true
    ∧ _isInitialized s' = true
    ∧ called s' = called s.
Proof.
  intros Hv Hvbody Hvalid Hfails.
  pose proof (rethrow_names (A := unit) "Agent initialization failed: ") as Hnames.
  unfold initializeAgent, try_catch, bind at 1, fetch, bind at 1. cbn [modify ret].
  rewrite Hv. cbn [Z.eqb Pos.eqb negb]. unfold bind at 1, res_json. rewrite Hvbody. cbn [ret].
  unfold bind at 1. cbn [member ret]. rewrite Hvalid.
  unfold bind at 1. cbn [modify]. unfold bind at 1.
  match goal with |- context [fetchUsageRemaining limits ?s1] =>
    destruct (fetchUsageRemaining_throws limits s1 Hfails) as [e He];
    pose proof (keeps_fetchUsageRemaining (λ s, (_isInitialized s, called s)) limits
                  ltac:(done) ltac:(done) ltac:(done) s1) as Hkeeps;
    destruct (fetchUsageRemaining limits s1) as [[counters|e'] s2]; [done|]
  end.
  cbn in Hkeeps. injection Hkeeps as Hinitialized Hcalled.
  specialize (Hnames e' s2). unfold failure_names, rethrow in *.
  destruct (includes (error_message e') "Agent initialization failed: ");
    cbn in Hnames; destruct Hnames as (message & [= <-] & Hincludes);
    eexists _, s2; (split; [reflexivity|]); by repeat split.
Qed.

(** ** A stream that fails *)

Section FailingStream.

Variable StringToNumber : string → number.
Variable JSON_parse : string → option json.

Lemma keeps_setting_rate_limits {C} (f : state → C) header read write :
  (∀ x s, f (set_usageRemaining x s) = f s) →
  keeps f (setting_rate_limits StringToNumber header read write).
Proof.
  intros Hf. unfold setting_rate_limits, assign, decrement.
  repeat first [keeps_step | by intros ?; apply Hf].
Qed.

(** The request of [messageStream], from the point where the copy of the
    history has been made: with an answer that is no 200 response it
    throws, and it changes neither the heap nor the history. *)
Lemma stream_request_fails
    text useHistory historyForStream (withContext save : bool) (index : jsval) now answer key s :
  (∀ r, answer = Resolved r → status r ≠ 200) →
  ∃ e s',
    (let* contextString :=
       if withContext then getContextString now else ret "" in
     let* payload :=
       stringify_members
         [("content", VStr text);
          ("history", guarded useHistory (VRef historyForStream));
          ("stream", VBool true);
          ("context", guarded withContext (VStr contextString))] in
     let* messageRes :=
       fetch {| url := "https://heylock.dev/api/v1/message"; method := "POST";
                authorization := Some key; payload := Some payload |} answer in
     let* rateLimitRemaining :=
       setting_rate_limits StringToNumber (ratelimit_remaining messageRes) messages set_messages in
     if status messageRes =? 500 then
       throw (Error "messageStream failed: we are experiencing temporary server issues. Please try again later.")
     else if status messageRes =? 400 then
       throw (Error "messageStream failed: please check arguments. Refer to the documentation for more information (see documentation link).")
     else if status messageRes =? 401 then
       throw (Error "messageStream failed: authorization failed. Please check your agent key and try again.")
     else if status messageRes =? 429 then
       if negb (bool_decide (rateLimitRemaining = NaN)) && number_le_zero rateLimitRemaining then
         throw (Error "messageStream failed: you have reached your message plan limit. Please upgrade your plan or wait for the limit to reset.")
       else
         throw (Error "messageStream failed: too many requests. Try again later.")
     else if status messageRes =? 502 then
       throw (Error "messageStream failed: we are experiencing unexpected external service errors. Please try again later.")
     else if negb (status messageRes =? 200) then
       throw (Error "messageStream failed: something went wrong. Please check your internet connection or ensure you are using the correct package version.")
     else
       while_reads JSON_parse save index (reads messageRes) "" "") s
    = (Thrown e, s')
    ∧ heap s' = heap s
    ∧ _messageHistory s' = _messageHistory s.
Proof.
  intros Hfails.
  set (readContext := if withContext then getContextString now else ret "").
  assert (keeps (λ s, s) readContext) as Hcontext.
  { unfold readContext. destruct withContext; [apply keeps_getContextString|apply keeps_ret]. }
  specialize (Hcontext s). unfold bind at 1.
  destruct (readContext s) as [[contextString|e] s1]; cbn in Hcontext;
    subst s1; [|by eexists _, _].
  unfold bind at 1.
  match goal with |- context [stringify_members ?members s] =>
    pose proof (keeps_stringify_members (λ s, s) members s) as Hpayload;
    destruct (stringify_members members s) as [[payload|e] s2]; cbn in Hpayload; subst s2;
    [|by eexists _, _]
  end.
  unfold bind at 1, fetch, bind at 1. cbn [modify].
  destruct answer as [r|e]; [|by eexists _, _]. cbn [ret].
  unfold bind at 1.
  match goal with |- context [setting_rate_limits _ _ _ _ ?s3] =>
    destruct (setting_rate_limits_returns StringToNumber (ratelimit_remaining r)
                messages set_messages s3) as (u & ->)
  end.
  destruct (status r =? 500); [by eexists _, _|]. destruct (status r =? 400); [by eexists _, _|].
  destruct (status r =? 401); [by eexists _, _|].
  destruct (status r =? 429); [destruct (_ && _); by eexists _, _|].
  destruct (status r =? 502); [by eexists _, _|].
  destruct (status r =? 200) eqn:Hstatus; [|by eexists _, _].
  apply Z.eqb_eq in Hstatus. by destruct (Hfails r eq_refl).
Qed.

(** X26: [messageStream] without history-saving hides its own failure.
    When the request fails (it is rejected, or its status is not 200),
    the [catch] block calls [modifyMessage] with the index [false] it got
    from [saveToMessageHistory && ...]; that call throws, so what the
    caller sees is the complaint of [modifyMessage] about the index, not
    an error of [messageStream]. *)
Theorem messageStream_unsaved_failure_is_masked s text useContext withContext now answer :
  _isInitialized s = true →
  is_blank text = false →
  strlen text ≤ MAX_MESSAGE_LENGTH →
  default_param useContext (VBool true) = VBool withContext →
  (∀ r, answer = Resolved r → status r ≠ 200) →
  ∃ s',
    messageStream StringToNumber JSON_parse (VStr text) useContext (VBool false) now answer s
    = (Thrown (Error "modifyMessage failed: index must be a number greater than or equal to 0."),
       s').
Proof.
  intros Hinit Hblank Hlen HuseContext Hfails.
  unfold messageStream. rewrite HuseContext.
  change (default_param (VBool false) (VBool true)) with (VBool false).
  unfold bind at 1, isInitialized. cbn [gets]. rewrite Hinit. cbn [negb].
  rewrite Hblank.
  replace (MAX_MESSAGE_LENGTH <? strlen text) with false by (symmetry; apply Z.ltb_ge; lia).
  unfold bind at 1. cbn [when ret]. unfold bind at 1. cbn [ret].
  match goal with |- context [try_catch ?body ?h s] =>
    assert (∃ e s1, body s = (Thrown e, s1)) as (e & s1 & Hbody)
  end.
  { unfold bind at 1. cbn [gets]. unfold bind at 1. cbn [gets]. unfold bind at 1. cbn [gets].
    unfold bind at 1, elements at 1.
    destruct (elements_of (heap s) (_messageHistory s)) as [es|]; [|by eexists _, _].
    unfold bind at 1. cbn [alloc].
    match goal with |- context [set_heap ?h3 s] =>
      destruct (stream_request_fails text (useMessageHistory (cfg s)) (fresh (dom (heap s)))
                  withContext false (VBool false) now answer (agentKey (cfg s))
                  (set_heap h3 s) Hfails) as (e & s1 & Hrequest & _)
    end.
    by exists e, s1. }
  unfold try_catch. rewrite Hbody. by exists s1.
Qed.

(** What [messageStream] does before its [try] block when it saves to
    the history: the message of the user and an empty placeholder of the
    assistant are appended, and the index of the placeholder is kept. *)
Lemma messageStream_prepares_placeholder s hs text :
  well_formed s →
  history_elements s = Some hs →
  strlen text ≤ MAX_MESSAGE_LENGTH →
  ∃ s2 user o,
    (∀ B (k : jsval → M B),
       (when true (addMessage (VStr text) (VStr "user") >> ret tt) >>
        bind (let* index := addMessage (VStr "") (VStr "assistant") in ret (VNum index)) k) s
       = k (VNum (Z.of_nat (S (length hs)))) s2)
    ∧ history_elements s2 = Some (hs ++ [VRef user; VRef o])
    ∧ heap s2 !! o = Some (new_message "" (VStr "assistant")).
Proof.
  intros Hwf Hhs Hlen.
  destruct (addMessage_well_formed s hs text (VStr "user") Hwf Hhs Hlen eq_refl)
    as (s1 & o1 & Hadd1 & Hwf1 & Hhs1 & _ & _).
  destruct (addMessage_well_formed s1 _ "" (VStr "assistant") Hwf1 Hhs1 ltac:(done) eq_refl)
    as (s2 & o2 & Hadd2 & _ & Hhs2 & Ho2 & _).
  rewrite <- (assoc_L (++)) in Hhs2. cbn [app] in Hhs2.
  exists s2, o1, o2. split; [|by split].
  intros B k. cbn [when]. unfold bind at 1. unfold bind at 1. rewrite Hadd1. cbn [ret].
  unfold bind at 1. unfold bind at 1. rewrite Hadd2. cbn [ret].
  do 2 f_equal. rewrite length_app. cbn [length]. f_equal. lia.
Qed.

(** X27: [messageStream] with history-saving, when the request fails
    (it is rejected, or its status is not 200): it throws an [Error] that
    names [messageStream], and the history keeps the message of the user
    followed by the placeholder of the assistant, whose content is now the
    notice ['An error occurred while processing your request. Please try
    again later.']. *)
Theorem messageStream_saved_failure_marks_placeholder
    s text useContext saveToMessageHistory withContext now answer :
  well_formed s →
  _isInitialized s = true →
  is_blank text = false →
  strlen text ≤ MAX_MESSAGE_LENGTH →
  default_param useContext (VBool true) = VBool withContext →
  default_param saveToMessageHistory (VBool true) = VBool true →
  (∀ r, answer = Resolved r → status r ≠ 200) →
  ∃ message s' es user placeholder,
    messageStream StringToNumber JSON_parse (VStr text) useContext saveToMessageHistory
      now answer s
    = (Thrown (Error message), s')
    ∧ includes message "messageStream failed: " = true
    ∧ history_elements s = Some es
    ∧ history_elements s' = Some (es ++ [VRef user; VRef placeholder])
    ∧ field (heap s') (VRef placeholder) "content"
      = VStr "An error occurred while processing your request. Please try again later."
    ∧ field (heap s') (VRef placeholder) "role" = VStr "assistant".
Proof.
  intros Hwf Hinit Hblank Hlen HuseContext Hsave Hfails.
  pose proof Hwf as (_ & hs & _ & Hhs & _).
  unfold messageStream. rewrite HuseContext, Hsave.
  unfold bind at 1, isInitialized. cbn [gets]. rewrite Hinit. cbn [negb].
  rewrite Hblank.
  replace (MAX_MESSAGE_LENGTH <? strlen text) with false by (symmetry; apply Z.ltb_ge; lia).
  destruct (messageStream_prepares_placeholder s hs text Hwf Hhs Hlen)
    as (s2 & user & o & Hprepare & Hhs2 & Ho2).
  rewrite Hprepare. clear Hprepare.
  set (index := S (length hs)).
  pose proof (history_array _ _ Hhs2) as Harray2.
  assert (Hoh : o ≠ _messageHistory s2).
  { intros ->. rewrite Harray2 in Ho2. discriminate Ho2. }
  assert (Hindex : (hs ++ [VRef user; VRef o]) !! index = Some (VRef o)).
  { unfold index. rewrite lookup_app_r by lia.
    by replace (S (length hs) - length hs)%nat with 1%nat by lia. }
  match goal with |- context [try_catch ?body ?h s2] =>
    assert (∃ e s4, body s2 = (Thrown e, s4)
                    ∧ history_elements s4 = Some (hs ++ [VRef user; VRef o])
                    ∧ heap s4 !! o = Some (new_message "" (VStr "assistant")))
      as (e & s4 & Hbody & Hhs4 & Ho4)
  end.
  { unfold bind at 1. cbn [gets]. unfold bind at 1. cbn [gets]. unfold bind at 1. cbn [gets].
    unfold bind at 1, elements at 1. fold (history_elements s2). rewrite Hhs2.
    unfold bind at 1. cbn [alloc].
    match goal with |- context [set_heap ?h3 s2] =>
      destruct (stream_request_fails text (useMessageHistory (cfg s2)) (fresh (dom (heap s2)))
                  withContext true (VNum (Z.of_nat index)) now answer (agentKey (cfg s2))
                  (set_heap h3 s2) Hfails) as (e & s4 & Hrequest & Hheap & Hhistory)
    end.
    exists e, s4. split; [exact Hrequest|].
    unfold history_elements, elements_of. rewrite Hheap, Hhistory.
    cbn [heap set_heap _messageHistory].
    rewrite !lookup_insert_ne by (apply fresh_ne; by eexists).
    by rewrite Harray2, Ho2. }
  unfold try_catch. rewrite Hbody.
  unfold bind at 1.
  rewrite (modifyMessage_in_place s4 _ index o _
             "An error occurred while processing your request. Please try again later."
             VUndefined Hhs4 Hindex Ho4) by (by split || by left).
  pose proof (rethrow_names (A := option string) "messageStream failed: " e) as Hnames.
  match goal with |- context [rethrow _ e ?s5] =>
    specialize (Hnames s5); set (s' := s5) in *
  end.
  assert (Hrethrow : ∃ message, rethrow (A := option string) "messageStream failed: " e s'
                                = (Thrown (Error message), s')
                                ∧ includes message "messageStream failed: " = true).
  { unfold failure_names, rethrow in *.
    destruct (includes (error_message e) "messageStream failed: ");
      cbn in Hnames; destruct Hnames as (message & [= <-] & Hincludes); by eexists. }
  destruct Hrethrow as (message & -> & Hincludes).
  exists message, s', hs, user, o. split; [done|]. split; [done|]. split; [done|].
  pose proof (history_array _ _ Hhs4) as Harray4.
  assert (Hoh4 : o ≠ _messageHistory s4).
  { intros ->. rewrite Harray4 in Ho4. discriminate Ho4. }
  unfold history_elements, elements_of, field, s', history_notified.
  cbn [heap set_heap set_called _messageHistory].
  rewrite lookup_insert_ne by done. rewrite Harray4, lookup_insert_eq.
  split; [done|]. split; [by rewrite lookup_insert_ne, lookup_insert_eq|].
  by rewrite lookup_insert_eq.
Qed.

End FailingStream.

(** ** The message history, at concrete inputs *)

(** X1 at [conversing], whose history holds two messages:
    [addMessage(' How are you? ')] appends a third one for the user. *)
Lemma addMessage_appends_third_message :
  ∃ o,
    heap conversing !! o = None
    ∧ addMessage (VStr " How are you? ") VUndefined conversing
      = (Returned (Z.of_nat (length [VRef 3%positive; VRef 4%positive])),
         history_notified
           (set_heap (<[_messageHistory conversing
                        := CArr ([VRef 3%positive; VRef 4%positive] ++ [VRef o])]>
                        (<[o := new_message (trim " How are you? ")
                                  (default_param VUndefined (VStr "user"))]>
                           (heap conversing))) conversing)).
Proof.
  apply (addMessage_appends_and_notifies conversing [VRef 3%positive; VRef 4%positive]
           " How are you? " VUndefined).
  - vm_compute. reflexivity.
  - vm_compute. discriminate.
  - by left.
Defined.

(** X2: [addMessage('Hello', 'system')] is rejected. *)
Lemma addMessage_rejects_system_role :
  ∃ reason,
    addMessage (VStr "Hello") (VStr "system") conversing = (Thrown (Error reason), conversing)
    ∧ prefixb "addMessageToHistory failed: " reason = true.
Proof.
  apply (addMessage_rejects_without_effect (VStr "Hello") (VStr "system") conversing).
  intros text _. by right.
Defined.

(** X3 at [conversing]: [removeMessage(0)] leaves the second message,
    [removeMessage(2)] is past the end. *)
Lemma removeMessage_removes_first_of_two :
  removeMessage (VNum 0) conversing
  = (Returned tt,
     history_notified
       (set_heap (<[_messageHistory conversing := CArr [VRef 4%positive]]> (heap conversing))
                 conversing))
  ∧ ∃ reason,
      removeMessage (VNum 2) conversing = (Thrown (Error reason), conversing)
      ∧ prefixb "removeMessage failed: index " reason = true.
Proof.
  split.
  - apply (removeMessage_removes_or_rejects conversing [VRef 3%positive; VRef 4%positive] 0).
    vm_compute. reflexivity.
  - apply (removeMessage_removes_or_rejects conversing [VRef 3%positive; VRef 4%positive] 2).
    vm_compute. reflexivity.
Defined.

(** X4 at [conversing]: [removeMessage(NaN)] does the same. *)
Lemma removeMessage_NaN_removes_first_of_two :
  removeMessage VNaN conversing
  = (Returned tt,
     history_notified
       (set_heap (<[_messageHistory conversing := CArr [VRef 4%positive]]> (heap conversing))
                 conversing)).
Proof.
  apply (removeMessage_NaN_removes_first conversing [VRef 3%positive; VRef 4%positive]).
  vm_compute. reflexivity.
Defined.

(** X5 at [conversing]: [modifyMessage(1, ' Hey ')] rewrites the second
    message and keeps its role. *)
Lemma modifyMessage_rewrites_second_message :
  modifyMessage (VNum 1) (VStr " Hey ") VUndefined conversing
  = (Returned tt,
     history_notified
       (set_heap (<[4%positive := new_message "Hey" (VStr "assistant")]> (heap conversing))
                 conversing)).
Proof.
  etrans.
  { apply (modifyMessage_updates_in_place conversing [VRef 3%positive; VRef 4%positive]
             1 4%positive
             (<["content" := VStr "Hi there"]> (<["role" := VStr "assistant"]> ∅))
             " Hey " VUndefined).
    - vm_compute. reflexivity.
    - reflexivity.
    - vm_compute. reflexivity.
    - split; vm_compute; [reflexivity|discriminate].
    - by left. }
  reflexivity.
Defined.

(** X7: [modifyMessage(1, '   ')] is rejected. *)
Lemma modifyMessage_rejects_spaces :
  ∃ e, modifyMessage (VNum 1) (VStr "   ") VUndefined conversing = (Thrown e, conversing).
Proof.
  apply (modifyMessage_rejects_content (VNum 1) (VStr "   ") VUndefined conversing).
  intros text [= <-]. by left.
Defined.

(** X8 at [conversing]: after [clearMessageHistory()] the array at the
    old location still holds the two messages. *)
Lemma clearMessageHistory_detaches_conversation :
  ∃ s',
    clearMessageHistory conversing = (Returned tt, history_notified s')
    ∧ history_elements s' = Some []
    ∧ _messageHistory s' ≠ _messageHistory conversing
    ∧ elements_of (heap s') (_messageHistory conversing)
      = Some [VRef 3%positive; VRef 4%positive]
    ∧ heap conversing ⊆ heap s'.
Proof.
  apply (clearMessageHistory_detaches_old_array conversing [VRef 3%positive; VRef 4%positive]).
  vm_compute. reflexivity.
Defined.

(** ** The context, at concrete inputs *)

(** X9 at [remembering], whose context holds two entries:
    [addContextEntry(' has a cat ')] at 9 s. *)
Lemma addContextEntry_appends_third_entry :
  ∃ o s',
    heap remembering !! o = None
    ∧ addContextEntry print_json (VStr " has a cat ") VUndefined 9000 remembering
      = (Returned 2, s')
    ∧ beyond_notifications s'
      = beyond_notifications
          (set_heap (<[_context remembering
                       := CArr ([VRef 3%positive; VRef 4%positive] ++ [VRef o])]>
                       (<[o := new_entry "has a cat" (VNum 9000)]> (heap remembering)))
                    remembering)
    ∧ called s' = called remembering ++ context_calls remembering.
Proof.
  apply (addContextEntry_appends print_json remembering [VRef 3%positive; VRef 4%positive]
           " has a cat " None 9000).
  - vm_compute. reflexivity.
  - vm_compute. reflexivity.
  - vm_compute. discriminate.
  - discriminate.
Defined.

(** X10: [addContextEntry('has a cat', -1)] is rejected. *)
Lemma addContextEntry_rejects_negative_timestamp :
  ∃ reason,
    addContextEntry print_json (VStr "has a cat") (VNum (-1)) 9000 remembering
    = (Thrown (Error reason), remembering)
    ∧ prefixb "addContextEntry failed: " reason = true.
Proof.
  apply (addContextEntry_rejects_without_effect print_json (VStr "has a cat") (VNum (-1))
           9000 remembering).
  intros text _. right. right. split; [discriminate|]. intros t [= <-]. lia.
Defined.

(** X11 at [remembering], an agent with [suppressWarnings: true]: a
    timestamp of 10 s at 9 s is reported on the console. *)
Lemma addContextEntry_warns_quiet_agent :
  ∃ o s',
    heap remembering !! o = None
    ∧ addContextEntry print_json (VStr " has a cat ") (VNum 10000) 9000 remembering
      = (Returned (Z.of_nat (length [VRef 3%positive; VRef 4%positive])), s')
    ∧ context_elements s' = Some ([VRef 3%positive; VRef 4%positive] ++ [VRef o])
    ∧ heap s' !! o = Some (new_entry (trim " has a cat ") (VNum 10000))
    ∧ console s'
      = console remembering ++ ["addContextEntry warning: timestamp is in the future. This may lead to unexpected behavior."].
Proof.
  apply (addContextEntry_future_warning_is_not_suppressed print_json remembering
           [VRef 3%positive; VRef 4%positive] " has a cat " 10000 9000).
  - vm_compute. reflexivity.
  - vm_compute. reflexivity.
  - vm_compute. discriminate.
  - lia.
  - lia.
  - vm_compute. reflexivity.
Defined.

(** X12 at [remembering]: [modifyContextEntry(0, ' likes coffee ')] keeps
    the timestamp 1000 of the first entry. *)
Lemma modifyContextEntry_replaces_first_entry :
  ∃ o s',
    heap remembering !! o = None
    ∧ modifyContextEntry print_json (VNum 0) (VStr " likes coffee ") VUndefined 9000 remembering
      = (Returned tt, s')
    ∧ beyond_notifications s'
      = beyond_notifications
          (set_heap (<[_context remembering := CArr [VRef o; VRef 4%positive]]>
                       (<[o := new_entry "likes coffee" (VNum 1000)]> (heap remembering)))
                    remembering).
Proof.
  apply (modifyContextEntry_replaces_entry print_json remembering
           [VRef 3%positive; VRef 4%positive] 0 (VRef 3%positive) " likes coffee " None 9000).
  - vm_compute. reflexivity.
  - reflexivity.
  - reflexivity.
  - vm_compute. reflexivity.
  - vm_compute. discriminate.
  - discriminate.
Defined.

(** X13 at [remembering]: [removeContextEntry(1)] removes the second
    entry, [removeContextEntry(2)] is out of bounds. *)
Lemma removeContextEntry_removes_second_entry :
  (∃ s',
     removeContextEntry print_json (VNum 1) remembering = (Returned tt, s')
     ∧ beyond_notifications s'
       = beyond_notifications
           (set_heap (<[_context remembering := CArr [VRef 3%positive]]> (heap remembering))
                     remembering)
     ∧ called s' = called remembering ++ context_calls remembering)
  ∧ ∃ reason,
      removeContextEntry print_json (VNum 2) remembering = (Thrown (Error reason), remembering)
      ∧ prefixb "removeContextEntry failed: index " reason = true.
Proof.
  split.
  - apply (removeContextEntry_removes_or_rejects print_json remembering
             [VRef 3%positive; VRef 4%positive] 1). vm_compute. reflexivity.
  - apply (removeContextEntry_removes_or_rejects print_json remembering
             [VRef 3%positive; VRef 4%positive] 2). vm_compute. reflexivity.
Defined.

(** X14 at [remembering]: at 7 s the context reads
    ['likes tea 6 seconds ago. from Oslo 2 seconds ago. ']; an entry added
    then is rendered behind it. *)
Lemma getContextString_after_third_entry :
  ∃ s',
    (addContextEntry print_json (VStr " has a cat ") VUndefined 7000 >>
     getContextString 7000) remembering
    = (Returned "likes tea 6 seconds ago. from Oslo 2 seconds ago. has a cat now. ", s').
Proof.
  destruct (getContextString_after_addContextEntry print_json remembering
              [VRef 3%positive; VRef 4%positive] " has a cat " None 7000 7000)
    as (before & s' & Hbefore & Hrun).
  - vm_compute. reflexivity.
  - apply Forall_cons_2; [|apply Forall_cons_2; [|apply Forall_nil_2]].
    + apply (plain_new_entry _ _ "likes tea" (VNum 1000)); [done|vm_compute; reflexivity].
    + apply (plain_new_entry _ _ "from Oslo" (VNum 5000)); [done|vm_compute; reflexivity].
  - vm_compute. reflexivity.
  - vm_compute. discriminate.
  - discriminate.
  - exists s'. vm_compute in Hbefore. injection Hbefore as <-. exact Hrun.
Defined.

(** X15 at [with_plain_entries]: the array [[{content: ' a '}, {content: 'b'}]]
    of the caller is at location 7. *)
Lemma setContext_copies_two_entries :
  ∃ s' copies,
    setContext print_json (VRef 7%positive) 9000 with_plain_entries = (Returned tt, s')
    ∧ context_elements s' = Some copies
    ∧ length copies = 2%nat
    ∧ heap with_plain_entries ⊆ heap s'.
Proof.
  destruct (setContext_copies_untimestamped print_json with_plain_entries 7%positive
              [VRef 5%positive; VRef 6%positive] 9000)
    as (s' & copies & Hrun & Hcontext & _ & Hsub & Hcopies).
  - vm_compute. reflexivity.
  - apply Forall_cons_2; [|apply Forall_cons_2; [|apply Forall_nil_2]];
      split; vm_compute; reflexivity.
  - exists s', copies. apply Forall2_length in Hcopies.
    split; [exact Hrun|]. split; [exact Hcontext|]. split; [symmetry; exact Hcopies|exact Hsub].
Defined.

(** ** Subscriptions, construction and routes, at concrete inputs *)

(** X16 at [conversing], whose only subscriber of the history is 7. *)
Lemma unsubscribe_removes_only_subscriber :
  onMessageHistoryChange_unsubscribe 7 conversing
  = (Returned tt, set_onMessageHistoryChangeCallbacks ([] ++ []) conversing).
Proof.
  destruct (unsubscribe_removes_first_registration conversing) as [Hfirst _].
  apply (Hfirst 7%nat [] []).
  - vm_compute. reflexivity.
  - apply not_elem_of_nil.
Defined.

(** X18: a new agent in a browser whose local storage holds the text of
    [usable_stored_context] under ['context']. *)
Lemma constructor_restores_two_entries :
  ∃ s' copies,
    new_Heylock parse_contexts (VStr "KEY") (with_agentId "A2") 9000 browser ∅
      {["context" := print_json usable_stored_context]}
    = (Returned tt, s')
    ∧ context_elements s' = Some copies
    ∧ length copies = 2%nat
    ∧ console s' = [].
Proof.
  destruct (constructor_restores_stored_context parse_contexts "KEY" (with_agentId "A2") 9000
              browser ∅ {["context" := print_json usable_stored_context]} true true
              (print_json usable_stored_context)
              [JObj [("content", JStr " likes tea "); ("timestamp", JNum 1000)];
               JObj [("content", JStr "from Oslo")]])
    as (s' & copies & Hrun & Hcontext & Hcopies & _ & Hconsole & _).
  - vm_compute. reflexivity.
  - reflexivity.
  - reflexivity.
  - reflexivity.
  - reflexivity.
  - reflexivity.
  - vm_compute. reflexivity.
  - vm_compute. discriminate.
  - vm_compute. reflexivity.
  - vm_compute. reflexivity.
  - exists s', copies. apply Forall2_length in Hcopies.
    split; [exact Hrun|]. split; [exact Hcontext|]. split; [symmetry; exact Hcopies|exact Hconsole].
Defined.

(** X19: the same with the text of [unusable_stored_context], whose
    second entry is blank. *)
Lemma constructor_discards_blank_entry :
  ∃ s',
    new_Heylock parse_contexts (VStr "KEY") (with_agentId "A2") 9000 browser ∅
      {["context" := print_json unusable_stored_context]}
    = (Returned tt, s')
    ∧ context_elements s' = Some []
    ∧ localStorage s' = {["context" := print_json unusable_stored_context]}.
Proof.
  destruct (constructor_discards_unusable_stored_context parse_contexts "KEY" (with_agentId "A2")
              9000 browser ∅ {["context" := print_json unusable_stored_context]} true true
              (print_json unusable_stored_context))
    as (s' & Hrun & Hcontext & Hstorage & _).
  - vm_compute. reflexivity.
  - reflexivity.
  - reflexivity.
  - reflexivity.
  - reflexivity.
  - reflexivity.
  - vm_compute. reflexivity.
  - vm_compute. discriminate.
  - intros entries Hparse. vm_compute in Hparse. injection Hparse as <-. vm_compute. reflexivity.
  - exists s'. split; [exact Hrun|]. split; [exact Hcontext|exact Hstorage].
Defined.

(** X21 at [with_one_letter]: [sort(['a'])], the array at location 3. *)
Lemma sort_of_one_letter_falls_back :
  ∃ result,
    sort decimal_number (VRef 3%positive) (VNum 5) (VStr "yes") 0
      (Rejected (TypeError "fetch failed")) with_one_letter
    = (Returned result, with_one_letter)
    ∧ array result = None
    ∧ indexes result = [0].
Proof.
  destruct (sort_short_input_falls_back decimal_number with_one_letter (VRef 3%positive)
              (VNum 5) (VStr "yes") 0 (Rejected (TypeError "fetch failed")))
    as (result & Hrun & Harray & _ & _ & Hindexes).
  - intros l items [= <-] Hitems. vm_compute in Hitems. injection Hitems as <-. cbn. lia.
  - exists result. split; [exact Hrun|]. split; [exact Harray|]. rewrite Hindexes.
    vm_compute. reflexivity.
Defined.

(** X22 at [ready], with 7 rewrites remaining: [rewrite('Hi')] answered
    with the status 429 and the header ['0'], and with the status 500 and
    no header. *)
Lemma rewrite_counts_failed_requests :
  rewrites (_usageRemaining
              (rewrite decimal_number (VStr "Hi") VUndefined VUndefined 0
                 (answer 429 (Some "0") None []) ready).2) = VNum 0
  ∧ rewrites (_usageRemaining
                (rewrite decimal_number (VStr "Hi") VUndefined VUndefined 0
                   (answer 500 None None []) ready).2) = VNum 6.
Proof.
  split.
  - destruct (rewrite_counts_whatever_the_answer decimal_number ready "Hi" VUndefined VUndefined
                true 0 {| status := 429; ratelimit_remaining := Some "0"; body := None;
                          reads := [] |}) as [_ Hcounters].
    + vm_compute. reflexivity.
    + vm_compute. discriminate.
    + by left.
    + reflexivity.
    + intros _. exists []. split; [vm_compute; reflexivity|constructor].
    + etrans; [exact (f_equal rewrites Hcounters)|]. vm_compute. reflexivity.
  - destruct (rewrite_counts_whatever_the_answer decimal_number ready "Hi" VUndefined VUndefined
                true 0 {| status := 500; ratelimit_remaining := None; body := None;
                          reads := [] |}) as [_ Hcounters].
    + vm_compute. reflexivity.
    + vm_compute. discriminate.
    + by left.
    + reflexivity.
    + intros _. exists []. split; [vm_compute; reflexivity|constructor].
    + etrans; [exact (f_equal rewrites Hcounters)|]. vm_compute. reflexivity.
Defined.

(** X24 at [awaiting]: the handshake succeeds, the callback 3 is called
    with [true]. *)
Lemma initializeAgent_notifies_the_callback :
  ∃ s',
    initializeAgent "KEY"
      (answer 200 None (Some (JObj [("valid", JBool true)])) [])
      (answer 200 None (Some (limits_document 10 5 7)) []) awaiting
    = (Returned tt, s')
    ∧ called s' = [{| callee := 3; argument := VBool true |}]
    ∧ _usageRemaining s' = {| messages := VNum 10; sorts := VNum 5; rewrites := VNum 7 |}.
Proof.
  eexists. split.
  - apply (initializeAgent_success_notifies_once "KEY"
             {| status := 200; ratelimit_remaining := None;
                body := Some (JObj [("valid", JBool true)]); reads := [] |}
             {| status := 200; ratelimit_remaining := None;
                body := Some (limits_document 10 5 7); reads := [] |}
             [("valid", JBool true)] 10 5 7 awaiting); reflexivity.
  - split; vm_compute; reflexivity.
Defined.

(** X25 at [awaiting]: the key is verified, the limits answer 503. *)
Lemma initializeAgent_stays_initialized_after_503 :
  ∃ message s',
    initializeAgent "KEY"
      (answer 200 None (Some (JObj [("valid", JBool true)])) [])
      (answer 503 None None []) awaiting
    = (Thrown (Error message), s')
    ∧ includes message "Agent initialization failed: " = true
    ∧ _isInitialized s' = true
    ∧ called s' = called awaiting.
Proof.
  apply (initializeAgent_limits_failure_leaves_agent_initialized "KEY"
           {| status := 200; ratelimit_remaining := None;
              body := Some (JObj [("valid", JBool true)]); reads := [] |}
           [("valid", JBool true)] (answer 503 None None []) awaiting); try reflexivity.
  intros l [= <-]. discriminate.
Defined.

(** X26 at [ready]: [messageStream('Hello', true, false)] answered with
    the status 500. *)
Lemma messageStream_masks_status_500 :
  ∃ s',
    messageStream decimal_number parse_examples (VStr "Hello") (VBool true) (VBool false) 0
      (answer 500 None None []) ready
    = (Thrown (Error "modifyMessage failed: index must be a number greater than or equal to 0."),
       s').
Proof.
  apply (messageStream_unsaved_failure_is_masked decimal_number parse_examples ready "Hello"
           (VBool true) true 0 (answer 500 None None [])).
  - vm_compute. reflexivity.
  - vm_compute. reflexivity.
  - vm_compute. discriminate.
  - reflexivity.
  - intros r [= <-]. discriminate.
Defined.

(** X27 at [ready]: [messageStream('Hello')] whose request is
    rejected. *)
Lemma messageStream_marks_placeholder_after_rejection :
  ∃ message s' es user placeholder,
    messageStream decimal_number parse_examples (VStr "Hello") VUndefined VUndefined 0
      (Rejected (TypeError "fetch failed")) ready
    = (Thrown (Error message), s')
    ∧ includes message "messageStream failed: " = true
    ∧ history_elements ready = Some es
    ∧ history_elements s' = Some (es ++ [VRef user; VRef placeholder])
    ∧ field (heap s') (VRef placeholder) "content"
      = VStr "An error occurred while processing your request. Please try again later."
    ∧ field (heap s') (VRef placeholder) "role" = VStr "assistant".
Proof.
  apply (messageStream_saved_failure_marks_placeholder decimal_number parse_examples ready
           "Hello" VUndefined VUndefined true 0 (Rejected (TypeError "fetch failed"))).
  - split; [vm_compute; discriminate|]. exists [], [].
    vm_compute. repeat split; constructor.
  - vm_compute. reflexivity.
  - vm_compute. reflexivity.
  - vm_compute. discriminate.
  - reflexivity.
  - reflexivity.
  - discriminate.
Defined.

(** X28 at [with_bad_messages]: the second message of the array at
    location 7 has the role ['system']. *)
Lemma setMessageHistory_rejects_system_role :
  ∃ j, (j < 2)%nat
       ∧ setMessageHistory (VRef 7%positive) with_bad_messages
         = (Thrown (setMessageHistory_invalid (Z.of_nat j)), with_bad_messages).
Proof.
  apply (setMessageHistory_all_or_nothing with_bad_messages 7%positive
           [VRef 5%positive; VRef 6%positive]).
  - vm_compute. reflexivity.
  - apply Exists_cons_tl, Exists_cons_hd. vm_compute. reflexivity.
Defined.

(** X29 at [with_messages]: both messages of the array at location 7 are
    valid. *)
Lemma setMessageHistory_copies_two_messages :
  ∃ s' copies,
    setMessageHistory (VRef 7%positive) with_messages = (Returned tt, s')
    ∧ history_elements s' = Some copies
    ∧ length copies = 2%nat
    ∧ heap with_messages ⊆ heap s'.
Proof.
  destruct (setMessageHistory_copies with_messages 7%positive
              [VRef 5%positive; VRef 6%positive])
    as (s' & copies & Hrun & Hhistory & _ & Hsub & Hcopies).
  - vm_compute. reflexivity.
  - apply Forall_cons_2; [|apply Forall_cons_2; [|apply Forall_nil_2]]; vm_compute; reflexivity.
  - exists s', copies. apply Forall2_length in Hcopies.
    split; [exact Hrun|]. split; [exact Hhistory|]. split; [symmetry; exact Hcopies|exact Hsub].
Defined.

(** X30 at [with_bad_entries]: the second entry of the array at location
    7 is blank. *)
Lemma setContext_rejects_blank_entry :
  ∃ e, setContext print_json (VRef 7%positive) 9000 with_bad_entries = (Thrown e, with_bad_entries).
Proof.
  apply (setContext_all_or_nothing print_json with_bad_entries 7%positive
           [VRef 5%positive; VRef 6%positive]).
  - vm_compute. reflexivity.
  - apply Exists_cons_tl, Exists_cons_hd. vm_compute. reflexivity.
Defined.
